(** * n8n-porter: the migration engine of [main.py], embedded and verified

    The development follows the layout of [main.py]:
    - Python values the engine manipulates (strings, insertion-ordered
      dictionaries, JSON documents, exceptions);
    - the dependency graph builder and the creation-order resolver;
    - the rewrite performed by [create_workflow];
    - the resource ledger kept in [resource_mapping.json];
    - the orchestration ([perform_restore], [perform_cleanup]) over an
      explicit world made of the ledger file and the log of remote calls.

    Definitions come first, the theorems about them afterwards. *)

From Stdlib Require Import String Ascii List Bool Arith ZArith Lia Permutation.
From Stdlib Require Import DecimalString.
Import ListNotations.
Local Open Scope string_scope.
Local Open Scope list_scope.

(** ** Python dictionaries

    A [dict] keeps its keys in insertion order and the engine iterates over
    them ([items()], [remaining.items()]), so a dictionary is an association
    list whose keys are pairwise distinct. *)

Module PyDict.

Definition dict (V : Type) : Type := list (string * V).

Section Ops.
Context {V : Type}.

Definition keys (d : dict V) : list string := map fst d.

Definition values (d : dict V) : list V := map snd d.

(** [k in d] *)
Definition mem (k : string) (d : dict V) : bool :=
existsb (String.eqb k) (keys d).

(** [d.get(k)] *)
Fixpoint get (d : dict V) (k : string) : option V :=
match d with
| [] => None
| (k', v) :: d' => if String.eqb k' k then Some v else get d' k
end.

(** [d[k] = v]: an existing key keeps its position, a new key goes last. *)
Fixpoint set (d : dict V) (k : string) (v : V) : dict V :=
match d with
| [] => [(k, v)]
| (k', v') :: d' =>
if String.eqb k' k then (k', v) :: d' else (k', v') :: set d' k v
end.

(** [del d[k]], used where [k] is known to be a key of [d]. *)
Definition del (d : dict V) (k : string) : dict V :=
filter (fun kv => negb (String.eqb (fst kv) k)) d.

(** The invariant of a Python dictionary. *)
Definition wf (d : dict V) : Prop := NoDup (keys d).
End Ops.

End PyDict.

(** ** The creation-order resolver: [get_workflow_order] *)

Definition graph : Type := PyDict.dict (list string).

(** What [get_workflow_order] does: it returns the order, or raises
    [ValueError("Circular dependency detected in workflows")].  [OutOfFuel]
    belongs to the model only: the [while] loop is run for a bounded number of
    rounds, and [order_loop_total] shows the bound is never reached. *)
Inductive order_result : Type :=
| Order (order : list string)
| CircularDependency
| OutOfFuel.

(** [not any(dep in remaining for dep in deps)] *)
Definition is_ready (remaining : graph) (deps : list string) : bool :=
  negb (existsb (fun dep => PyDict.mem dep remaining) deps).

(** [[workflow_id for workflow_id, deps in remaining.items() if ...]] *)
Definition ready_of (remaining : graph) : list string :=
  map fst (filter (fun kv => is_ready remaining (snd kv)) remaining).

(** [for workflow_id in ready: del remaining[workflow_id]] *)
Definition delete_all (remaining : graph) (ready : list string) : graph :=
  fold_left PyDict.del ready remaining.

(** The [while remaining:] loop, one round per unit of fuel. *)
Fixpoint order_loop (fuel : nat) (remaining : graph) (order : list string)
  : order_result :=
  match remaining with
  | [] => Order order
  | _ :: _ =>
      match fuel with
      | O => OutOfFuel
      | S fuel' =>
          match ready_of remaining with
          | [] => CircularDependency
          | ready =>
              order_loop fuel' (delete_all remaining ready) (order ++ ready)
          end
      end
  end.

Definition get_workflow_order (g : graph) : order_result :=
  order_loop (length g) g [].

(** *** Vocabulary for the resolver's specification *)

(** The dependencies of [k] that are themselves keys of the graph. *)
Definition inset_deps (g : graph) (deps : list string) : list string :=
  filter (fun d => PyDict.mem d g) deps.

(** An edge of the graph restricted to its keys: [a] depends on [b]. *)
Definition edge (g : graph) (a b : string) : Prop :=
  exists deps, In (a, deps) g /\ In b deps /\ In b (PyDict.keys g).

(** One or more edges. *)
Inductive reach (g : graph) : string -> string -> Prop :=
| reach_edge a b : edge g a b -> reach g a b
| reach_step a b c : edge g a b -> reach g b c -> reach g a c.

Definition acyclic (g : graph) : Prop := forall a, ~ reach g a a.

Definition cyclic (g : graph) : Prop := exists a, reach g a a.

(** [x] occurs before [y] in [l]. *)
Definition before (x y : string) (l : list string) : Prop :=
  exists l1 l2 l3, l = l1 ++ x :: l2 ++ y :: l3.

(** The length of the longest chain of in-set dependencies below [k],
    followed for at most [n] edges. *)
Fixpoint depth (g : graph) (n : nat) (k : string) : nat :=
  match n with
  | O => 0
  | S n' =>
      match PyDict.get g k with
      | None => 0
      | Some deps => list_max (map (fun d => S (depth g n' d)) (inset_deps g deps))
      end
  end.

(** The round in which a workflow becomes ready. *)
Definition level (g : graph) (k : string) : nat := depth g (length g) k.

(** The keys of level [i], in discovery order. *)
Definition layer (g : graph) (lvl : string -> nat) (i : nat) : list string :=
  filter (fun k => Nat.eqb (lvl k) i) (PyDict.keys g).

(** The keys sorted by level, discovery order kept inside a level. *)
Definition layered (g : graph) (lvl : string -> nat) (rounds : nat) : list string :=
  flat_map (layer g lvl) (seq 0 rounds).

(** The graph with every dependency outside the key set dropped. *)
Definition restrict (g : graph) : graph :=
  map (fun kv => (fst kv, inset_deps g (snd kv))) g.

(** [lvl] numbers the rounds: a key without in-set dependencies is at level
    0, any other key one above its deepest in-set dependency. *)
Definition is_level (g : graph) (lvl : string -> nat) : Prop :=
  forall k deps, In (k, deps) g ->
    lvl k = list_max (map (fun d => S (lvl d)) (inset_deps g deps)).

(** The number of rounds the loop takes on a graph levelled by [lvl]. *)
Definition rounds (g : graph) (lvl : string -> nat) : nat :=
  list_max (map (fun k => S (lvl k)) (PyDict.keys g)).

(** [is_level], checked by computation. *)
Definition is_level_b (g : graph) (lvl : string -> nat) : bool :=
  forallb (fun kv => Nat.eqb (lvl (fst kv))
                       (list_max (map (fun d => S (lvl d)) (inset_deps g (snd kv)))))
          g.

(** A graph to run the resolver on: [W3] calls [W2], [W2] calls [W1] and a
    workflow that is not part of the backup, [W0] and [W4] call nothing. *)
Definition sample_graph : graph :=
  [("W3", ["W2"]); ("W0", []); ("W2", ["W1"; "external"]); ("W1", []);
   ("W4", ["W0"])].

Definition sample_level (k : string) : nat :=
  if String.eqb k "W3" then 2
  else if String.eqb k "W2" then 1
  else if String.eqb k "W4" then 1
  else 0.

(** ** Python strings

    A [str] is a [string]; each character stands for a code point below
    256. *)

Module PyStr.

Definition space : ascii := " "%char.

(** [old in s] for strings: [old] occurs in [s]. *)
Fixpoint contains (old s : string) : bool :=
String.prefix old s ||
match s with
| EmptyString => false
| String _ s' => contains old s'
end.

(** [s.split(' ')[0]]: the characters before the first space. *)
Fixpoint split_first (s : string) : string :=
match s with
| EmptyString => EmptyString
| String c s' =>
if Ascii.eqb c space then EmptyString else String c (split_first s')
end.

(** [c.lower()] on one code point: [A-Z] and the capital letters of Latin-1. *)
Definition lower_char (c : ascii) : ascii :=
let n := nat_of_ascii c in
if (Nat.leb 65 n && Nat.leb n 90)
 || (Nat.leb 192 n && Nat.leb n 222 && negb (Nat.eqb n 215))
then ascii_of_nat (n + 32) else c.

(** [s.lower()] *)
Fixpoint lower (s : string) : string :=
match s with
| EmptyString => EmptyString
| String c s' => String (lower_char c) (lower s')
end.

(** [s.replace(old, new)] for a non-empty [old]: occurrences are replaced
from left to right and do not overlap; [skip] counts the characters of
the occurrence just replaced that are still to be passed over. *)
Fixpoint replace_from (old new : string) (skip : nat) (s : string) : string :=
match s with
| EmptyString => EmptyString
| String c s' =>
match skip with
| S skip' => replace_from old new skip' s'
| O =>
if String.prefix old s
then new ++ replace_from old new (String.length old - 1) s'
else String c (replace_from old new 0 s')
end
end.

(** [s.replace("", new)]: [new] goes before every character and at the end. *)
Fixpoint intersperse (new s : string) : string :=
match s with
| EmptyString => new
| String c s' => new ++ String c (intersperse new s')
end.

(** [s.replace(old, new)] *)
Definition replace (old new s : string) : string :=
match old with
| EmptyString => intersperse new s
| String _ _ => replace_from old new 0 s
end.

(** The code points below 256 that [str.strip()] takes away. *)
Definition is_whitespace (c : ascii) : bool :=
let n := nat_of_ascii c in
(Nat.leb 9 n && Nat.leb n 13) || (Nat.leb 28 n && Nat.leb n 32)
|| Nat.eqb n 133 || Nat.eqb n 160.

Fixpoint lstrip (s : string) : string :=
match s with
| EmptyString => EmptyString
| String c s' => if is_whitespace c then lstrip s' else s
end.

Fixpoint rstrip (s : string) : string :=
match s with
| EmptyString => EmptyString
| String c s' =>
match rstrip s' with
| EmptyString => if is_whitespace c then EmptyString
 else String c EmptyString
| rest => String c rest
end
end.

(** [s.strip()] *)
Definition strip (s : string) : string := rstrip (lstrip s).

(** [s.endswith(suffix)] *)
Definition endswith (s suffix : string) : bool :=
Nat.leb (String.length suffix) (String.length s)
&& String.eqb suffix
 (String.substring (String.length s - String.length suffix)
 (String.length suffix) s).

(** [s[:-n]] for a positive [n]. *)
Definition drop_last (n : nat) (s : string) : string :=
String.substring 0 (String.length s - n) s.

(** [str(z)] for an integer. *)
Definition of_int (z : Z) : string := NilZero.string_of_int (Z.to_int z).

(** [sep.join(parts)] *)
Fixpoint join (sep : string) (parts : list string) : string :=
match parts with
| [] => EmptyString
| [p] => p
| p :: rest => p ++ sep ++ join sep rest
end.

End PyStr.

(** ** Python values and exceptions *)

(** What [json.load] produces: [None], [bool], [int], [str], [list] and
    [dict] with string keys.  Floats are not modelled. *)
#[local] Unset Elimination Schemes.
Inductive value : Type :=
| PNone
| PBool (b : bool)
| PInt (z : Z)
| PStr (s : string)
| PList (l : list value)
| PDict (d : list (string * value)).
#[local] Set Elimination Schemes.

Inductive exn : Type :=
| KeyError
| TypeError
| AttributeError
| ValueError
| JSONDecodeError
| RequestException
| PlainException
| StopIteration.

(** A computation that returns or raises. *)
Inductive result (A : Type) : Type :=
| Ok (a : A)
| Raise (e : exn).

Arguments Ok {A} a.
Arguments Raise {A} e.

Definition bind {A B : Type} (r : result A) (f : A -> result B) : result B :=
  match r with
  | Ok a => f a
  | Raise e => Raise e
  end.

Notation "x <- r ;; k" := (bind r (fun x => k))
  (at level 61, r at next level, right associativity).

(** [for x in xs: ...] where the body may raise. *)
Fixpoint for_each {A B : Type} (f : A -> result B) (xs : list A)
  : result (list B) :=
  match xs with
  | [] => Ok []
  | x :: xs' => y <- f x ;; ys <- for_each f xs' ;; Ok (y :: ys)
  end.

Module Py.

(** [bool(v)] *)
Definition truthy (v : value) : bool :=
match v with
| PNone => false
| PBool b => b
| PInt z => negb (Z.eqb z 0)
| PStr s => negb (String.eqb s "")
| PList l => match l with [] => false | _ => true end
| PDict d => match d with [] => false | _ => true end
end.

(** [v == s] for a string literal [s]. *)
Definition eq_str (v : value) (s : string) : bool :=
match v with
| PStr s' => String.eqb s' s
| _ => false
end.

(** [s in v] for a string [s]: a key of a dict, an element of a list, a
substring of a string; [TypeError] on anything else. *)
Definition str_in (s : string) (v : value) : result bool :=
match v with
| PDict d => Ok (PyDict.mem s d)
| PList l => Ok (existsb (fun x => eq_str x s) l)
| PStr s' => Ok (PyStr.contains s s')
| _ => Raise TypeError
end.

(** [v.get(k)]: only a dict has [get]. *)
Definition get (v : value) (k : string) : result (option value) :=
match v with
| PDict d => Ok (PyDict.get d k)
| _ => Raise AttributeError
end.

(** [v.get(k, default)] *)
Definition get_default (v : value) (k : string) (default : value)
: result value :=
o <- get v k ;;
Ok (match o with Some x => x | None => default end).

(** [v[k]] for a string [k]. *)
Definition item (v : value) (k : string) : result value :=
match v with
| PDict d =>
match PyDict.get d k with
| Some x => Ok x
| None => Raise KeyError
end
| _ => Raise TypeError
end.

(** [iter(v)]: the elements of a list, the keys of a dict, the characters
of a string. *)
Definition iter (v : value) : result (list value) :=
match v with
| PList l => Ok l
| PDict d => Ok (map PStr (PyDict.keys d))
| PStr s =>
Ok (map (fun c => PStr (String c EmptyString)) (list_ascii_of_string s))
| _ => Raise TypeError
end.

(** [v in mapping] for a dict [mapping] with string keys: a list or a dict
cannot be hashed, other values are hashed and found or not. *)
Definition in_mapping {V : Type} (v : value) (mapping : PyDict.dict V)
: result bool :=
match v with
| PStr s => Ok (PyDict.mem s mapping)
| PList _ | PDict _ => Raise TypeError
| _ => Ok false
end.

End Py.

(** ** The [json] module

    [json.dumps] and [json.loads] belong to Python's library, not to the
    engine: the engine is written over any pair of them. *)
Record json_module : Type := {
  dumps : value -> string;
  loads : string -> result value
}.

(** ** A reference [json] module

    [json.dumps] with its default separators and [ensure_ascii], and
    [json.loads], on the values modelled here (no floats, code points below
    256).  The engine does not depend on it; it is what the examples run
    on. *)

Module RefJson.

Definition dquote : ascii := ascii_of_nat 34.
Definition backslash : ascii := ascii_of_nat 92.

Definition hex_digit (n : nat) : ascii :=
if Nat.ltb n 10 then ascii_of_nat (48 + n) else ascii_of_nat (87 + n).

(** One character inside a JSON string. *)
Definition escape_char (c : ascii) : string :=
let n := nat_of_ascii c in
let esc (e : ascii) := String backslash (String e EmptyString) in
if Nat.eqb n 34 then esc dquote
else if Nat.eqb n 92 then esc backslash
else if Nat.eqb n 10 then esc "n"%char
else if Nat.eqb n 13 then esc "r"%char
else if Nat.eqb n 9 then esc "t"%char
else if Nat.eqb n 8 then esc "b"%char
else if Nat.eqb n 12 then esc "f"%char
else if Nat.ltb n 32 || Nat.leb 127 n
then String backslash
 (String "u"%char
(String "0"%char
 (String "0"%char
(String (hex_digit (n / 16))
 (String (hex_digit (n mod 16)) EmptyString)))))
else String c EmptyString.

Fixpoint escape (s : string) : string :=
match s with
| EmptyString => EmptyString
| String c s' => (escape_char c ++ escape s')%string
end.

Definition quote (s : string) : string :=
String dquote (escape s ++ String dquote EmptyString)%string.

Fixpoint dumps_value (v : value) : string :=
match v with
| PNone => "null"
| PBool true => "true"
| PBool false => "false"
| PInt z => PyStr.of_int z
| PStr s => quote s
| PList l => ("[" ++ PyStr.join ", " (map dumps_value l) ++ "]")%string
| PDict d =>
("{" ++ PyStr.join ", "
(map (fun kv => (quote (fst kv) ++ ": " ++ dumps_value (snd kv))%string) d)
 ++ "}")%string
end.

Definition is_json_whitespace (c : ascii) : bool :=
let n := nat_of_ascii c in
Nat.eqb n 32 || Nat.eqb n 9 || Nat.eqb n 10 || Nat.eqb n 13.

Fixpoint skip_ws (s : string) : string :=
match s with
| EmptyString => EmptyString
| String c r => if is_json_whitespace c then skip_ws r else s
end.

Definition hex_value (c : ascii) : option nat :=
let n := nat_of_ascii c in
if Nat.leb 48 n && Nat.leb n 57 then Some (n - 48)
else if Nat.leb 97 n && Nat.leb n 102 then Some (n - 87)
else if Nat.leb 65 n && Nat.leb n 70 then Some (n - 55)
else None.

Definition unescape (e : ascii) : option ascii :=
let n := nat_of_ascii e in
if Nat.eqb n 34 then Some dquote
else if Nat.eqb n 92 then Some backslash
else if Nat.eqb n 47 then Some "/"%char
else if Nat.eqb n 110 then Some (ascii_of_nat 10)
else if Nat.eqb n 114 then Some (ascii_of_nat 13)
else if Nat.eqb n 116 then Some (ascii_of_nat 9)
else if Nat.eqb n 98 then Some (ascii_of_nat 8)
else if Nat.eqb n 102 then Some (ascii_of_nat 12)
else None.

Definition cons_char (c : ascii) (r : option (string * string))
: option (string * string) :=
match r with
| Some (s, rest) => Some (String c s, rest)
| None => None
end.

(** The characters of a string up to its closing quote, and what follows. *)
Fixpoint parse_string_body (s : string) : option (string * string) :=
match s with
| EmptyString => None
| String c r =>
if Ascii.eqb c dquote then Some (EmptyString, r)
else if Ascii.eqb c backslash then
match r with
| EmptyString => None
| String e r' =>
if Ascii.eqb e "u"%char then
match r' with
| String h1 (String h2 (String h3 (String h4 r''))) =>
match hex_value h1, hex_value h2, hex_value h3, hex_value h4 with
| Some a, Some b, Some c', Some d =>
let n := ((a * 16 + b) * 16 + c') * 16 + d in
if Nat.ltb n 256
then cons_char (ascii_of_nat n) (parse_string_body r'')
else None
| _, _, _, _ => None
end
| _ => None
end
else
match unescape e with
| Some ch => cons_char ch (parse_string_body r')
| None => None
end
end
else if Nat.ltb (nat_of_ascii c) 32 then None
else cons_char c (parse_string_body r)
end.

Definition is_digit (c : ascii) : bool :=
let n := nat_of_ascii c in Nat.leb 48 n && Nat.leb n 57.

(** The digits at the head of [s], as a number, and what follows. *)
Fixpoint parse_digits (acc : Z) (s : string) : Z * string :=
match s with
| EmptyString => (acc, s)
| String c r =>
if is_digit c
then parse_digits (acc * 10 + Z.of_nat (nat_of_ascii c - 48)) r
else (acc, s)
end.

(** An integer: [0] or a digit other than [0] followed by digits; a
fraction or an exponent would make a float. *)
Definition parse_unsigned (s : string) : option (Z * string) :=
match s with
| EmptyString => None
| String c r =>
if negb (is_digit c) then None
else
let '(z, rest) :=
if Ascii.eqb c "0"%char then (0%Z, r) else parse_digits 0 s in
match rest with
| String d _ =>
if Ascii.eqb d "."%char || Ascii.eqb d "e"%char || Ascii.eqb d "E"%char
then None else Some (z, rest)
| EmptyString => Some (z, rest)
end
end.

Definition drop (n : nat) (s : string) : string :=
String.substring n (String.length s - n) s.

(** [item (, item)* close] *)
Fixpoint parse_items {A : Type} (item : string -> option (A * string))
(close : ascii) (n : nat) (s : string) : option (list A * string) :=
match n with
| O => None
| S n' =>
match item s with
| None => None
| Some (x, rest) =>
match skip_ws rest with
| EmptyString => None
| String c r =>
if Ascii.eqb c ","%char then
match parse_items item close n' r with
| Some (xs, rest') => Some (x :: xs, rest')
| None => None
end
else if Ascii.eqb c close then Some ([x], r)
else None
end
end
end.

(** ["key" : value] *)
Definition parse_member (parse : string -> option (value * string))
(s : string) : option (string * value * string) :=
match skip_ws s with
| EmptyString => None
| String c r =>
if Ascii.eqb c dquote then
match parse_string_body r with
| None => None
| Some (key, rest) =>
match skip_ws rest with
| EmptyString => None
| String c' r' =>
if Ascii.eqb c' ":"%char then
match parse r' with
| Some (v, rest') => Some (key, v, rest')
| None => None
end
else None
end
end
else None
end.

Fixpoint parse_value (fuel : nat) (s : string) : option (value * string) :=
match fuel with
| O => None
| S fuel' =>
let s := skip_ws s in
match s with
| EmptyString => None
| String c r =>
if Ascii.eqb c dquote then
match parse_string_body r with
| Some (str, rest) => Some (PStr str, rest)
| None => None
end
else if Ascii.eqb c "["%char then
match skip_ws r with
| EmptyString => None
| String c' r' =>
if Ascii.eqb c' "]"%char then Some (PList [], r')
else
match parse_items (parse_value fuel') "]"%char fuel' r with
| Some (xs, rest) => Some (PList xs, rest)
| None => None
end
end
else if Ascii.eqb c "{"%char then
match skip_ws r with
| EmptyString => None
| String c' r' =>
if Ascii.eqb c' "}"%char then Some (PDict [], r')
else
match parse_items
(fun s' => match parse_member (parse_value fuel') s' with
 | Some (k, v, rest) => Some ((k, v), rest)
 | None => None
 end)
"}"%char fuel' r with
| Some (members, rest) =>
Some (PDict (fold_left (fun d kv => PyDict.set d (fst kv) (snd kv))
 members []), rest)
| None => None
end
end
else if String.prefix "null" s then Some (PNone, drop 4 s)
else if String.prefix "true" s then Some (PBool true, drop 4 s)
else if String.prefix "false" s then Some (PBool false, drop 5 s)
else if Ascii.eqb c "-"%char then
match parse_unsigned r with
| Some (z, rest) => Some (PInt (- z), rest)
| None => None
end
else
match parse_unsigned s with
| Some (z, rest) => Some (PInt z, rest)
| None => None
end
end
end.

Definition loads_value (s : string) : result value :=
match parse_value (S (String.length s)) s with
| Some (v, rest) =>
match skip_ws rest with
| EmptyString => Ok v
| String _ _ => Raise JSONDecodeError
end
| None => Raise JSONDecodeError
end.

Definition module : json_module :=
{| dumps := dumps_value; loads := loads_value |}.

End RefJson.

(** ** Configuration: [credentials.yaml]

    The document read with [yaml.safe_load]: named environments, each with a
    display name, a postfix and its credential declarations, and named
    replacement groups giving one literal per environment.  A key that is
    absent reads as the empty dictionary, as [get(..., {})] does. *)

Record credential_declaration : Type := {
  decl_name : string;
  decl_type : string;
  decl_data : value
}.

Record environment : Type := {
  env_name : option string;
  env_postfix : string;
  env_credentials : PyDict.dict credential_declaration
}.

Record creds_config : Type := {
  environments : PyDict.dict environment;
  replacements : PyDict.dict (PyDict.dict string)
}.

(** ** The rewrite of [create_workflow] *)

(** [get_environment_replacements]: for every group that has a value for
    [env_type], the value of every other environment maps to it. *)
Definition get_environment_replacements (cfg : creds_config) (env_type : string)
  : PyDict.dict string :=
  fold_left
    (fun acc group =>
       let values := snd group in
       match PyDict.get values env_type with
       | Some target_value =>
           fold_left
             (fun acc' other =>
                if String.eqb (fst other) env_type then acc'
                else PyDict.set acc' (snd other) target_value)
             values acc
       | None => acc
       end)
    (replacements cfg) [].

(** [for old_value, new_value in replacements.items():
       workflow_str = workflow_str.replace(old_value, new_value)] *)
Definition replace_all (table : PyDict.dict string) (workflow_str : string)
  : string :=
  fold_left (fun s kv => PyStr.replace (fst kv) (snd kv) s) table workflow_str.

(** The [try] block of the literal replacement.  [creds_file] is what reading
    [credentials.yaml] gives, [None] when it raises; any exception of the
    block falls back to [workflow_data]. *)
Definition apply_replacements (json : json_module)
    (creds_file : option creds_config) (env_type : string)
    (workflow_data workflow_payload : value) : value :=
  match creds_file with
  | None => workflow_data
  | Some cfg =>
      let table := get_environment_replacements cfg env_type in
      match loads json (replace_all table (dumps json workflow_payload)) with
      | Ok replaced => replaced
      | Raise _ => workflow_data
      end
  end.

Definition settings_keys : list string :=
  ["saveExecutionProgress"; "saveManualExecutions"; "saveDataErrorExecution";
   "executionTimeout"; "errorWorkflow"].

(** The default [workflow_payload.get('settings', {}).get(key, default)]
    falls back to. *)
Definition settings_default (key : string) : value :=
  if String.eqb key "saveExecutionProgress" then PBool true
  else if String.eqb key "saveManualExecutions" then PBool true
  else if String.eqb key "saveDataErrorExecution" then PStr "all"
  else if String.eqb key "executionTimeout" then PInt 3600
  else PStr "".

(** [workflow_payload.update({"settings": {...}})] *)
Definition normalize_settings (workflow_payload : value) : result value :=
  match workflow_payload with
  | PDict p =>
      settings <- Py.get_default workflow_payload "settings" (PDict []) ;;
      filled <- for_each
                  (fun key =>
                     v <- Py.get_default settings key (settings_default key) ;;
                     Ok (key, v))
                  settings_keys ;;
      Ok (PDict (PyDict.set p "settings" (PDict filled)))
  | _ => Raise AttributeError
  end.

(** [old_name.split(' ')[0] if ' ' in old_name else old_name] *)
Definition base_name_of (old_name : string) : string :=
  if PyStr.contains " " old_name then PyStr.split_first old_name else old_name.

(** The test of the matching loop. *)
Definition credential_matches (cred_key base_name : string) : bool :=
  let cred_base_name := base_name_of cred_key in
  String.eqb (PyStr.lower cred_base_name) (PyStr.lower base_name)
  || String.eqb (PyStr.lower (PyStr.replace "_" " " cred_base_name))
                (PyStr.lower base_name).

(** The matching loop: the id of the first key that matches. *)
Definition find_credential (credential_mapping : PyDict.dict value)
    (base_name : string) : option value :=
  match find (fun kv => credential_matches (fst kv) base_name)
             credential_mapping with
  | Some kv => Some (snd kv)
  | None => None
  end.

(** [d[k] = v] on a value. *)
Definition set_item (d : value) (k : string) (v : value) : result value :=
  match d with
  | PDict entries => Ok (PDict (PyDict.set entries k v))
  | _ => Raise TypeError
  end.

(** The body of the loop over [node['credentials'].items()]. *)
Definition resolve_credential (credential_mapping : PyDict.dict value)
    (cred_data : value) : result value :=
  old_name <- Py.get_default cred_data "name" (PStr "") ;;
  has_space <- Py.str_in " " old_name ;;
  match old_name with
  | PStr name =>
      let base_name := if has_space then PyStr.split_first name else name in
      match find_credential credential_mapping base_name with
      | Some matching_cred =>
          if Py.truthy matching_cred
          then set_item cred_data "id" matching_cred
          else Ok cred_data
      | None => Ok cred_data
      end
  | _ =>
      (* a list or a dict has neither [split] nor [lower] *)
      if has_space then Raise AttributeError
      else match credential_mapping with
           | [] => Ok cred_data
           | _ :: _ => Raise AttributeError
           end
  end.

(** [if 'credentials' in node: for ... in node['credentials'].items(): ...] *)
Definition resolve_credentials (credential_mapping : PyDict.dict value)
    (node : PyDict.dict value) : result (PyDict.dict value) :=
  match PyDict.get node "credentials" with
  | None => Ok node
  | Some (PDict credentials) =>
      resolved <- for_each
                    (fun kv =>
                       cred_data <- resolve_credential credential_mapping (snd kv) ;;
                       Ok (fst kv, cred_data))
                    credentials ;;
      Ok (PyDict.set node "credentials" (PDict resolved))
  | Some _ => Raise AttributeError
  end.

Definition execute_workflow_type : string := "n8n-nodes-base.executeWorkflow".

Definition tool_workflow_type : string := "@n8n/n8n-nodes-langchain.toolWorkflow".

(** [sf_id_mapping[old_id]] *)
Definition mapping_item (sf_id_mapping : PyDict.dict value) (old_id : value)
  : result value :=
  match old_id with
  | PStr s =>
      match PyDict.get sf_id_mapping s with
      | Some new_id => Ok new_id
      | None => Raise KeyError
      end
  | PList _ | PDict _ => Raise TypeError
  | _ => Raise KeyError
  end.

(** The object shape: [old_workflow_id] is a dict [{value, cachedResultName}]. *)
Definition remap_reference (sf_id_mapping : PyDict.dict value)
    (old_workflow_id : PyDict.dict value) : result (PyDict.dict value) :=
  let old_id := match PyDict.get old_workflow_id "value" with
                | Some v => v
                | None => PNone
                end in
  if Py.truthy old_id then
    found <- Py.in_mapping old_id sf_id_mapping ;;
    if (found : bool) then
      new_id <- mapping_item sf_id_mapping old_id ;;
      let updated := PyDict.set old_workflow_id "value" new_id in
      match PyDict.get updated "cachedResultName" with
      | None => Ok updated
      | Some (PStr cached) =>
          Ok (PyDict.set updated "cachedResultName"
                (PStr (PyStr.split_first cached)))
      | Some _ => Raise AttributeError
      end
    else Ok old_workflow_id
  else Ok old_workflow_id.

(** The branch of [n8n-nodes-base.executeWorkflow] nodes: both shapes. *)
Definition remap_execute (sf_id_mapping : PyDict.dict value)
    (node : PyDict.dict value) : result (PyDict.dict value) :=
  params <- Py.get_default (PDict node) "parameters" (PDict []) ;;
  old_workflow_id <- Py.get params "workflowId" ;;
  match old_workflow_id with
  | Some (PStr old) =>
      if PyDict.mem old sf_id_mapping then
        new_id <- mapping_item sf_id_mapping (PStr old) ;;
        params' <- set_item params "workflowId" new_id ;;
        Ok (PyDict.set node "parameters" params')
      else Ok node
  | Some (PDict old) =>
      old' <- remap_reference sf_id_mapping old ;;
      params' <- set_item params "workflowId" (PDict old') ;;
      Ok (PyDict.set node "parameters" params')
  | _ => Ok node
  end.

(** The branch of [@n8n/n8n-nodes-langchain.toolWorkflow] nodes: the object
    shape only. *)
Definition remap_tool (sf_id_mapping : PyDict.dict value)
    (node : PyDict.dict value) : result (PyDict.dict value) :=
  params <- Py.get_default (PDict node) "parameters" (PDict []) ;;
  old_workflow_id <- Py.get params "workflowId" ;;
  match old_workflow_id with
  | Some (PDict old) =>
      old' <- remap_reference sf_id_mapping old ;;
      params' <- set_item params "workflowId" (PDict old') ;;
      Ok (PyDict.set node "parameters" params')
  | _ => Ok node
  end.

(** [node.get('type') == literal] *)
Definition has_type (node : PyDict.dict value) (literal : string) : bool :=
  match PyDict.get node "type" with
  | Some v => Py.eq_str v literal
  | None => false
  end.

(** [if ... and sf_id_mapping: ... elif ... and sf_id_mapping: ...] *)
Definition remap_node (sf_id_mapping : PyDict.dict value)
    (node : PyDict.dict value) : result (PyDict.dict value) :=
  let mapped := match sf_id_mapping with [] => false | _ :: _ => true end in
  if has_type node execute_workflow_type && mapped
  then remap_execute sf_id_mapping node
  else if has_type node tool_workflow_type && mapped
  then remap_tool sf_id_mapping node
  else Ok node.

(** The body of [for node in workflow_payload['nodes']]. *)
Definition rewrite_node (credential_mapping sf_id_mapping : PyDict.dict value)
    (node : value) : result value :=
  has_credentials <- Py.str_in "credentials" node ;;
  match node with
  | PDict n =>
      resolved <- (if (has_credentials : bool)
                   then resolve_credentials credential_mapping n
                   else Ok n) ;;
      remapped <- remap_node sf_id_mapping resolved ;;
      Ok (PDict remapped)
  | _ =>
      (* [node['credentials']] or [node.get('type')] on a list or a string *)
      if (has_credentials : bool) then Raise TypeError else Raise AttributeError
  end.

(** [if 'nodes' in workflow_payload: for node in workflow_payload['nodes']] *)
Definition rewrite_nodes (credential_mapping sf_id_mapping : PyDict.dict value)
    (workflow_payload : PyDict.dict value) : result (PyDict.dict value) :=
  match PyDict.get workflow_payload "nodes" with
  | None => Ok workflow_payload
  | Some nodes =>
      elements <- Py.iter nodes ;;
      rewritten <- for_each (rewrite_node credential_mapping sf_id_mapping)
                            elements ;;
      Ok (match nodes with
          | PList _ => PyDict.set workflow_payload "nodes" (PList rewritten)
          | _ => workflow_payload
          end)
  end.

(** [create_payload = {"name": ..., "nodes": ..., "connections": ...,
                       "settings": ...}] *)
Definition create_payload (workflow_payload : value) : result value :=
  name <- Py.item workflow_payload "name" ;;
  nodes <- Py.item workflow_payload "nodes" ;;
  connections <- Py.item workflow_payload "connections" ;;
  settings <- Py.get_default workflow_payload "settings" (PDict []) ;;
  Ok (PDict [("name", name); ("nodes", nodes); ("connections", connections);
             ("settings", settings)]).

(** What follows the literal replacement, up to the payload. *)
Definition finish_rewrite (credential_mapping sf_id_mapping : PyDict.dict value)
    (workflow_payload : value) : result value :=
  normalized <- normalize_settings workflow_payload ;;
  match normalized with
  | PDict p =>
      rewritten <- rewrite_nodes credential_mapping sf_id_mapping p ;;
      create_payload (PDict rewritten)
  | _ => Raise AttributeError
  end.

(** [create_workflow] up to its request: from the stored definition to the
    payload that is submitted. *)
Definition rewrite (json : json_module) (creds_file : option creds_config)
    (env_type : string) (credential_mapping sf_id_mapping : PyDict.dict value)
    (workflow_data : value) : result value :=
  workflow_payload <- loads json (dumps json workflow_data) ;;
  finish_rewrite credential_mapping sf_id_mapping
    (apply_replacements json creds_file env_type workflow_data workflow_payload).

(** The value a definition gives to [key] inside its [settings], if any. *)
Definition setting_of (definition : value) (key : string) : option value :=
  match definition with
  | PDict p =>
      match PyDict.get p "settings" with
      | Some (PDict settings) => PyDict.get settings key
      | _ => None
      end
  | _ => None
  end.


(** The [settings] of a definition as the normalization reads them: none
    declared reads as the empty dictionary, anything but a dictionary has no
    [get]. *)
Definition declared_settings (p : PyDict.dict value)
  : option (PyDict.dict value) :=
  match PyDict.get p "settings" with
  | None => Some []
  | Some (PDict s) => Some s
  | Some _ => None
  end.

(** The explicit value of [key], or its default. *)
Definition setting_or_default (s : PyDict.dict value) (key : string) : value :=
  match PyDict.get s key with
  | Some v => v
  | None => settings_default key
  end.

(** ** The dependency graph builder *)

(** The reference found in an invoking node: the string, or the [value] of
    the object when it is truthy.  The graph is a [Dict[str, List[str]]]: a
    truthy [value] that is not a string is outside that type and is reported
    here as a [TypeError]. *)
Definition reference_of_object (workflow_id : PyDict.dict value)
  : result (list string) :=
  match PyDict.get workflow_id "value" with
  | None => Ok []
  | Some old_id =>
      if Py.truthy old_id then
        match old_id with
        | PStr s => Ok [s]
        | _ => Raise TypeError
        end
      else Ok []
  end.

(** The body of [for node in workflow['nodes']]. *)
Definition node_dependencies (node : value) : result (list string) :=
  type <- Py.get node "type" ;;
  let is_type literal :=
    match type with Some v => Py.eq_str v literal | None => false end in
  if is_type execute_workflow_type then
    params <- Py.get_default node "parameters" (PDict []) ;;
    workflow_id <- Py.get params "workflowId" ;;
    match workflow_id with
    | Some (PStr s) => Ok [s]
    | Some (PDict d) => reference_of_object d
    | _ => Ok []
    end
  else if is_type tool_workflow_type then
    params <- Py.get_default node "parameters" (PDict []) ;;
    workflow_id <- Py.get params "workflowId" ;;
    match workflow_id with
    | Some (PDict d) => reference_of_object d
    | _ => Ok []
    end
  else Ok [].

Definition analyze_workflow_dependencies (workflow : value)
  : result (list string) :=
  has_nodes <- Py.str_in "nodes" workflow ;;
  if (has_nodes : bool) then
    nodes <- Py.item workflow "nodes" ;;
    elements <- Py.iter nodes ;;
    found <- for_each node_dependencies elements ;;
    Ok (concat found)
  else Ok [].

(** [graph[workflow['id']] = analyze_workflow_dependencies(workflow)], the
    identifier being a string. *)
Fixpoint build_from (workflows : list value) (g : graph) : result graph :=
  match workflows with
  | [] => Ok g
  | workflow :: rest =>
      workflow_id <- Py.item workflow "id" ;;
      match workflow_id with
      | PStr id =>
          deps <- analyze_workflow_dependencies workflow ;;
          build_from rest (PyDict.set g id deps)
      | _ => Raise TypeError
      end
  end.

Definition build_dependency_graph (workflows : list value) : result graph :=
  build_from workflows [].

(** ** The resource ledger: [resource_mapping.json]

    One document, keyed by instance URL, then by resource type, then by
    remote id, giving the display name. *)

Definition ledger : Type := PyDict.dict (PyDict.dict (PyDict.dict value)).

(** The file: missing, not a JSON document, or a document. *)
Inductive storage : Type :=
| Absent
| Unreadable
| Stored (mappings : ledger).

Definition empty_instance : PyDict.dict (PyDict.dict value) :=
  [("workflows", []); ("credentials", []); ("projects", [])].

(** [d[k]] on a dictionary. *)
Definition dict_item {V : Type} (d : PyDict.dict V) (k : string) : result V :=
  match PyDict.get d k with
  | Some v => Ok v
  | None => Raise KeyError
  end.

(** The key a resource id becomes in the document: a list or a dict cannot
    be a key, [json.dump] writes the other ids as strings. *)
Definition ledger_key (resource_id : value) : result string :=
  match resource_id with
  | PStr s => Ok s
  | PInt z => Ok (PyStr.of_int z)
  | PBool true => Ok "true"
  | PBool false => Ok "false"
  | PNone => Ok "null"
  | PList _ | PDict _ => Raise TypeError
  end.

(** The [try] block of [save_resource_mapping], up to the document that is
    written. *)
Definition record_in (instance_url resource_type : string)
    (resource_id resource_name : value) (f : storage) : result ledger :=
  mappings <- match f with
              | Absent => Ok []
              | Unreadable => Raise JSONDecodeError
              | Stored m => Ok m
              end ;;
  let mappings :=
    if PyDict.mem instance_url mappings then mappings
    else PyDict.set mappings instance_url empty_instance in
  instance <- dict_item mappings instance_url ;;
  resources <- dict_item instance resource_type ;;
  key <- ledger_key resource_id ;;
  Ok (PyDict.set mappings instance_url
        (PyDict.set instance resource_type
           (PyDict.set resources key resource_name))).

(** The [try] block of [remove_resource_mapping]: the document that is
    written, when one is. *)
Definition forget_in (instance_url resource_type resource_id : string)
    (f : storage) : option ledger :=
  match f with
  | Stored mappings =>
      match PyDict.get mappings instance_url with
      | Some instance =>
          match PyDict.get instance resource_type with
          | Some resources =>
              if PyDict.mem resource_id resources
              then Some (PyDict.set mappings instance_url
                           (PyDict.set instance resource_type
                              (PyDict.del resources resource_id)))
              else None
          | None => None
          end
      | None => None
      end
  | Absent | Unreadable => None
  end.

(** [get_instance_resources] *)
Definition get_instance_resources (instance_url : string) (f : storage)
  : PyDict.dict (PyDict.dict value) :=
  match f with
  | Stored mappings =>
      match PyDict.get mappings instance_url with
      | Some instance => instance
      | None => empty_instance
      end
  | Absent | Unreadable => empty_instance
  end.

(** ** The world: the ledger file and the remote platform *)

Inductive http_method : Type := GET | POST | PUT | DELETE.

(** The paths below [{base_url}/api/v1]. *)
Inductive endpoint : Type :=
| Workflows
| WorkflowAt (id : value)
| TransferOf (id : value)
| Credentials
| CredentialAt (id : value)
| ProjectAt (id : value).

Record request : Type := {
  method : http_method;
  base_url : string;
  target : endpoint;
  body : option value
}.

(** What [requests] hands back: the status, whether [response.text] is
    non-empty, and what [response.json()] returns or raises. *)
Record response : Type := {
  status_code : Z;
  has_text : bool;
  body_json : result value
}.

(** The remote platform: its reply to a request, given the requests it has
    received before; [Raise] when [requests] raises. *)
Definition transport : Type := list request -> request -> result response.

(** What happens, in order: remote calls with their replies, and the writes
    of the ledger file. *)
Inductive event : Type :=
| Sent (r : request) (reply : result response)
| Saved (instance_url resource_type : string) (resource_id resource_name : value)
| Removed (instance_url resource_type resource_id : string).

Record world : Type := {
  file : storage;
  log : list event
}.

Definition requests_of (l : list event) : list request :=
  flat_map (fun e => match e with Sent r _ => [r] | _ => [] end) l.

Definition send (remote : transport) (r : request) (w : world)
  : result response * world :=
  let reply := remote (requests_of (log w)) r in
  (reply, {| file := file w; log := log w ++ [Sent r reply] |}).

(** [save_resource_mapping]: an exception is reported and nothing is
    written. *)
Definition save_resource_mapping (instance_url resource_type : string)
    (resource_id resource_name : value) (w : world) : world :=
  match record_in instance_url resource_type resource_id resource_name (file w) with
  | Ok mappings =>
      {| file := Stored mappings;
         log := log w ++ [Saved instance_url resource_type resource_id resource_name] |}
  | Raise _ => w
  end.

(** [remove_resource_mapping] *)
Definition remove_resource_mapping (instance_url resource_type resource_id : string)
    (w : world) : world :=
  match forget_in instance_url resource_type resource_id (file w) with
  | Some mappings =>
      {| file := Stored mappings;
         log := log w ++ [Removed instance_url resource_type resource_id] |}
  | None => w
  end.

(** ** Deletions *)

(** The common shape of [delete_workflow], [delete_credential] and
    [delete_project]: the request, [raise Exception] unless the status is
    200, then the ledger entry. *)
Definition delete_then_forget (remote : transport) (url : string)
    (target : endpoint) (resource_type resource_id : string) (w : world)
  : result unit * world :=
  let '(reply, w1) :=
    send remote {| method := DELETE; base_url := url; target := target;
                   body := None |} w in
  match reply with
  | Raise e => (Raise e, w1)
  | Ok r =>
      if Z.eqb (status_code r) 200
      then (Ok tt, remove_resource_mapping url resource_type resource_id w1)
      else (Raise PlainException, w1)
  end.

Definition delete_workflow (remote : transport) (url workflow_id : string)
  : world -> result unit * world :=
  delete_then_forget remote url (WorkflowAt (PStr workflow_id))
    "workflows" workflow_id.

Definition delete_credential (remote : transport) (url credential_id : string)
  : world -> result unit * world :=
  delete_then_forget remote url (CredentialAt (PStr credential_id))
    "credentials" credential_id.

Definition delete_project (remote : transport) (url project_id : string)
  : world -> result unit * world :=
  delete_then_forget remote url (ProjectAt (PStr project_id))
    "projects" project_id.

(** ** Cleanup *)

Record cleanup_stats : Type := {
  workflows_deleted : nat;
  workflows_failed : nat;
  credentials_deleted : nat;
  credentials_failed : nat
}.

Inductive cleanup_outcome : Type :=
| Cancelled
| NothingTracked
| Cleaned (stats : cleanup_stats)
| CleanupRaised (e : exn).

(** [for id, name in resources[...].items(): try: delete(id) except: ...],
    counting successes and failures. *)
Fixpoint delete_each (delete : string -> world -> result unit * world)
    (ids : list string) (w : world) : nat * nat * world :=
  match ids with
  | [] => (0, 0, w)
  | id :: rest =>
      let '(r, w1) := delete id w in
      let '(deleted, failed, w2) := delete_each delete rest w1 in
      match r with
      | Ok _ => (S deleted, failed, w2)
      | Raise _ => (deleted, S failed, w2)
      end
  end.

(** The project of the selected server: its [id] and [name]. *)
Record project : Type := {
  project_id : value;
  project_name : value
}.

(** The deletions of [perform_cleanup], once it has found something to
    delete: the loop over the credentials, the loop over the workflows, and
    the project. *)
Definition cleanup_deletions (remote : transport) (url : string) (p : project)
  (resources : PyDict.dict (PyDict.dict value))
  (workflows credentials : PyDict.dict value) (w : world)
: cleanup_outcome * world :=
let '(cd, cf, w1) :=
  delete_each (delete_credential remote url) (PyDict.keys credentials) w in
let '(wd, wf, w2) :=
  delete_each (delete_workflow remote url) (PyDict.keys workflows) w1 in
let stats := {| workflows_deleted := wd; workflows_failed := wf;
                credentials_deleted := cd; credentials_failed := cf |} in
if Py.truthy (project_id p) then
  match dict_item resources "projects" with
  | Raise e => (CleanupRaised e, w2)
  | Ok projects =>
      match Py.in_mapping (project_id p) projects with
      | Raise e => (CleanupRaised e, w2)
      | Ok false => (Cleaned stats, w2)
      | Ok true =>
          match project_id p with
          | PStr id =>
              let '(_, w3) := delete_project remote url id w2 in
              (Cleaned stats, w3)
          | _ => (Cleaned stats, w2)
          end
      end
  end
else (Cleaned stats, w2).

(** [perform_cleanup]; [confirm] is what the user typed. *)
Definition perform_cleanup (remote : transport) (url : string) (p : project)
    (confirm : string) (w : world) : cleanup_outcome * world :=
  if negb (String.eqb (PyStr.lower confirm) "yes") then (Cancelled, w)
  else
    let resources := get_instance_resources url (file w) in
    match dict_item resources "workflows", dict_item resources "credentials" with
    | Raise e, _ => (CleanupRaised e, w)
    | Ok _, Raise e => (CleanupRaised e, w)
    | Ok workflows, Ok credentials =>
        match workflows, credentials with
        | [], [] => (NothingTracked, w)
        | _, _ => cleanup_deletions remote url p resources workflows credentials w
        end
    end.

(** ** The ledger as a store: sequences of operations *)

Inductive store_op : Type :=
| RecordOp (instance_url resource_type : string) (resource_id resource_name : value)
| ForgetOp (instance_url resource_type resource_id : string).

Definition apply_op (op : store_op) (w : world) : world :=
  match op with
  | RecordOp u t i n => save_resource_mapping u t i n w
  | ForgetOp u t i => remove_resource_mapping u t i w
  end.

Definition run_ops (ops : list store_op) (w : world) : world :=
  fold_left (fun w' op => apply_op op w') ops w.

(** [listFor]: what the ledger holds for an instance. *)
Definition list_for (instance_url : string) (w : world)
  : PyDict.dict (PyDict.dict value) :=
  get_instance_resources instance_url (file w).

(** The name the ledger reports for a resource of an instance, if any. *)
Definition tracked (instance_url resource_type resource_id : string) (w : world)
  : option value :=
  match PyDict.get (list_for instance_url w) resource_type with
  | Some resources => PyDict.get resources resource_id
  | None => None
  end.

Definition resource_types : list string :=
  ["workflows"; "credentials"; "projects"].

(** ** What a cleanup is expected to send *)

(** The deletion request of a resource. *)
Definition deletion (url : string) (target : endpoint) : request :=
  {| method := DELETE; base_url := url; target := target; body := None |}.

(** One resource to delete: its endpoint, and its place in the ledger. *)
Record tracked_resource : Type := {
  resource_endpoint : endpoint;
  resource_type : string;
  resource_id : string
}.

(** The ids the ledger holds for an instance under a type, in the order of
    the document. *)
Definition tracked_ids (url type : string) (f : storage) : list string :=
  match PyDict.get (get_instance_resources url f) type with
  | Some resources => PyDict.keys resources
  | None => []
  end.

Definition tracked_credential (id : string) : tracked_resource :=
  {| resource_endpoint := CredentialAt (PStr id);
     resource_type := "credentials"; resource_id := id |}.

Definition tracked_workflow (id : string) : tracked_resource :=
  {| resource_endpoint := WorkflowAt (PStr id);
     resource_type := "workflows"; resource_id := id |}.

Definition tracked_project (id : string) : tracked_resource :=
  {| resource_endpoint := ProjectAt (PStr id);
     resource_type := "projects"; resource_id := id |}.

(** The resources a cleanup goes through: the tracked credentials, then the
    tracked workflows, then the project if it is tracked. *)
Definition cleanup_plan (url : string) (p : project) (f : storage)
  : list tracked_resource :=
  map tracked_credential (tracked_ids url "credentials" f)
  ++ map tracked_workflow (tracked_ids url "workflows" f)
  ++ match project_id p with
     | PStr id =>
         if Py.truthy (project_id p)
            && existsb (String.eqb id) (tracked_ids url "projects" f)
         then [tracked_project id]
         else []
     | _ => []
     end.

(** What the deletion of one resource leaves in the log: the request, and
    the removal from the ledger only behind an answer of status 200. *)
Inductive delete_trace (url : string) (d : tracked_resource)
  : list event -> Prop :=
| trace_kept (reply : result response) :
    delete_trace url d [Sent (deletion url (resource_endpoint d)) reply]
| trace_removed (r : response) :
    status_code r = 200%Z ->
    delete_trace url d
      [Sent (deletion url (resource_endpoint d)) (Ok r);
       Removed url (resource_type d) (resource_id d)].

(** ** Creating credentials *)

(** The postfixes of all environments, as [create_credential] reads them
    from [credentials.yaml]; none when reading raises. *)
Definition all_postfixes (creds_file : option creds_config) : list string :=
  match creds_file with
  | None => []
  | Some cfg =>
      filter (fun s => negb (String.eqb s ""))
             (map (fun e => PyStr.strip (env_postfix (snd e))) (environments cfg))
  end.

(** [for postfix in all_postfixes: if name.endswith(f" {postfix}"): ...; break] *)
Fixpoint strip_postfix (name : string) (postfixes : list string) : string :=
  match postfixes with
  | [] => name
  | postfix :: rest =>
      let suffix := (" " ++ postfix)%string in
      if PyStr.endswith name suffix
      then PyStr.strip (PyStr.drop_last (String.length suffix) name)
      else strip_postfix name rest
  end.

(** The name a credential is created under. *)
Definition credential_name (creds_file : option creds_config)
    (declared env_postfix : string) : string :=
  let name := strip_postfix (PyStr.strip declared) (all_postfixes creds_file) in
  if String.eqb env_postfix "" then name
  else (name ++ " " ++ env_postfix)%string.

(** [create_credential] on a declaration as [credentials.yaml] is meant to
    give it, with a string for a name, a type and data: the new id, or
    [None].  What the function does on any dictionary, a name that is not a
    string included, is [Untyped.create_credential] below. *)
Definition create_credential (remote : transport) (url : string)
    (creds_file : option creds_config) (decl : credential_declaration)
    (env_postfix : string) (w : world) : value * world :=
  let payload :=
    PDict [("name", PStr (credential_name creds_file (decl_name decl) env_postfix));
           ("type", PStr (decl_type decl));
           ("data", decl_data decl)] in
  let '(reply, w1) :=
    send remote {| method := POST; base_url := url; target := Credentials;
                   body := Some payload |} w in
  match reply with
  | Raise _ => (PNone, w1)
  | Ok r =>
      if Z.eqb (status_code r) 200 then
        match (credential <- body_json r ;;
               id <- Py.item credential "id" ;;
               name <- Py.item credential "name" ;;
               Ok (id, name)) with
        | Raise _ => (PNone, w1)
        | Ok (id, name) =>
            (id, save_resource_mapping url "credentials" id name w1)
        end
      else (PNone, w1)
  end.

(** ** Creating a workflow *)

(** [create_workflow]: [Ok id] when it returns the new id, [Ok PNone] when it
    returns [None], [Raise] when the rewrite raises (nothing catches it). *)
Definition create_workflow (remote : transport) (json : json_module)
    (url : string) (creds_file : option creds_config) (workflow_data : value)
    (project_id : value) (credential_mapping sf_id_mapping : PyDict.dict value)
    (env_type : string) (supports_projects : bool) (w : world)
  : result value * world :=
  match rewrite json creds_file env_type credential_mapping sf_id_mapping
                workflow_data with
  | Raise e => (Raise e, w)
  | Ok payload =>
      let name := match Py.item payload "name" with
                  | Ok n => n
                  | Raise _ => PNone
                  end in
      let '(reply, w1) :=
        send remote {| method := POST; base_url := url; target := Workflows;
                       body := Some payload |} w in
      match reply with
      | Raise _ => (Ok PNone, w1)
      | Ok r =>
          if negb (Z.eqb (status_code r) 200) then (Ok PNone, w1)
          else
            match (created <- body_json r ;; Py.get created "id") with
            | Raise _ => (Ok PNone, w1)
            | Ok found =>
                let workflow_id :=
                  match found with Some v => v | None => PNone end in
                if supports_projects then
                  let '(transfer_reply, w2) :=
                    send remote
                      {| method := PUT; base_url := url;
                         target := TransferOf workflow_id;
                         body := Some (PDict [("destinationProjectId", project_id)]) |}
                      w1 in
                  match transfer_reply with
                  | Raise _ => (Ok PNone, w2)
                  | Ok tr =>
                      if Z.eqb (status_code tr) 200 || Z.eqb (status_code tr) 204
                      then (Ok workflow_id,
                            save_resource_mapping url "workflows" workflow_id name w2)
                      else
                        (* error_detail = transfer_response.json()
                                          if transfer_response.text else "..." *)
                        match (if has_text tr then body_json tr
                               else Ok (PStr "No error details available")) with
                        | Raise _ => (Ok PNone, w2)
                        | Ok _ =>
                            let '(_, w3) :=
                              send remote
                                {| method := DELETE; base_url := url;
                                   target := WorkflowAt workflow_id;
                                   body := None |} w2 in
                            (Ok PNone, w3)
                        end
                  end
                else (Ok workflow_id,
                      save_resource_mapping url "workflows" workflow_id name w1)
            end
      end
  end.

(** ** Restore *)

Record restore_stats : Type := {
  restored_workflows : nat;
  failed_workflows : nat;
  restored_credentials : nat;
  failed_credentials : nat
}.

Inductive restore_outcome : Type :=
| NoCredentials
| CycleReported
| Restored (stats : restore_stats)
| RestoreRaised (e : exn).

(** [for cred_key, cred_data in env_credentials.items(): ...] *)
Fixpoint create_credentials (remote : transport) (url : string)
    (creds_file : option creds_config) (env_postfix : string)
    (declarations : PyDict.dict credential_declaration)
    (credential_mapping : PyDict.dict value) (w : world)
  : PyDict.dict value * nat * nat * world :=
  match declarations with
  | [] => (credential_mapping, 0, 0, w)
  | (cred_key, cred_data) :: rest =>
      let '(new_cred_id, w1) :=
        create_credential remote url creds_file cred_data env_postfix w in
      if Py.truthy new_cred_id then
        let mapping1 := PyDict.set credential_mapping cred_key new_cred_id in
        let mapping2 := PyDict.set mapping1 (decl_name cred_data) new_cred_id in
        let '(m, created, failed, w2) :=
          create_credentials remote url creds_file env_postfix rest mapping2 w1 in
        (m, S created, failed, w2)
      else
        let '(m, created, failed, w2) :=
          create_credentials remote url creds_file env_postfix rest
                             credential_mapping w1 in
        (m, created, S failed, w2)
  end.

(** [get_workflow_order] as [perform_restore] sees it: an order, or the
    [ValueError] of a circular dependency. *)
Definition workflow_order_of (g : graph) : result (list string) :=
  match get_workflow_order g with
  | Order order => Ok order
  | CircularDependency | OutOfFuel => Raise ValueError
  end.

(** [next(w for w in workflows if w['id'] == workflow_id)] *)
Definition workflow_with_id (workflows : list value) (workflow_id : string)
  : result value :=
  match find (fun w => match Py.item w "id" with
                       | Ok v => Py.eq_str v workflow_id
                       | Raise _ => false
                       end) workflows with
  | Some w => Ok w
  | None => Raise StopIteration
  end.

(** [for workflow_id in workflow_order: ...] *)
Fixpoint create_workflows (remote : transport) (json : json_module)
    (url : string) (creds_file : option creds_config) (workflows : list value)
    (project_id : value) (credential_mapping : PyDict.dict value)
    (env_type : string) (supports_projects : bool)
    (workflow_order : list string) (workflow_mapping : PyDict.dict value)
    (w : world) : result (nat * nat) * world :=
  match workflow_order with
  | [] => (Ok (0, 0), w)
  | workflow_id :: rest =>
      match workflow_with_id workflows workflow_id with
      | Raise e => (Raise e, w)
      | Ok workflow_data =>
          let '(r, w1) :=
            create_workflow remote json url creds_file workflow_data project_id
              credential_mapping workflow_mapping env_type supports_projects w in
          match r with
          | Raise e => (Raise e, w1)
          | Ok new_id =>
              let mapping' :=
                if Py.truthy new_id
                then PyDict.set workflow_mapping workflow_id new_id
                else workflow_mapping in
              let '(r', w2) :=
                create_workflows remote json url creds_file workflows project_id
                  credential_mapping env_type supports_projects rest mapping' w1 in
              match r' with
              | Raise e => (Raise e, w2)
              | Ok (created, failed) =>
                  if Py.truthy new_id then (Ok (S created, failed), w2)
                  else (Ok (created, S failed), w2)
              end
          end
      end
  end.

(** [perform_restore], from the creation of the credentials on: [cfg] is the
    configuration it loaded, [workflows] the definitions read from the
    backup, [creds_file] what the later readings of [credentials.yaml]
    give. *)
Definition perform_restore (remote : transport) (json : json_module)
    (url : string) (p : project) (supports_projects : bool)
    (target_env : string) (cfg : creds_config)
    (creds_file : option creds_config) (workflows : list value) (w : world)
  : restore_outcome * world :=
  match PyDict.get (environments cfg) target_env with
  | None => (NoCredentials, w)
  | Some env_data =>
      let postfix := PyStr.strip (env_postfix env_data) in
      let '(credential_mapping, cc, cf, w1) :=
        create_credentials remote url creds_file postfix
                           (env_credentials env_data) [] w in
      match build_dependency_graph workflows with
      | Raise e => (RestoreRaised e, w1)
      | Ok dependency_graph =>
          match workflow_order_of dependency_graph with
          | Raise _ => (CycleReported, w1)
          | Ok workflow_order =>
              let '(r, w2) :=
                create_workflows remote json url creds_file workflows
                  (project_id p) credential_mapping target_env
                  supports_projects workflow_order [] w1 in
              match r with
              | Raise e => (RestoreRaised e, w2)
              | Ok (wc, wf) =>
                  (Restored {| restored_workflows := wc; failed_workflows := wf;
                               restored_credentials := cc;
                               failed_credentials := cf |}, w2)
              end
          end
      end
  end.

(** ** What a restore that stops at the dependency analysis has done *)

(** An event of the creation of a credential. *)
Definition credential_event (e : event) : Prop :=
  match e with
  | Sent r _ => method r = POST /\ target r = Credentials
  | Saved _ resource_type _ _ => resource_type = "credentials"
  | Removed _ _ _ => False
  end.

(** An event that submits a workflow, or writes a workflow to the ledger. *)
Definition workflow_event (e : event) : Prop :=
  match e with
  | Sent r _ =>
      match target r with
      | Workflows | WorkflowAt _ | TransferOf _ => True
      | _ => False
      end
  | Saved _ resource_type _ _ | Removed _ resource_type _ =>
      resource_type = "workflows"
  end.

(** From [w] to [w'] only credentials were created: every new event belongs
    to the creation of a credential, and the ledger tracks the same
    workflows as before, for every instance. *)
Definition only_credentials (w w' : world) : Prop :=
  (exists new, log w' = log w ++ new /\ Forall credential_event new)
  /\ forall u, PyDict.get (get_instance_resources u (file w')) "workflows"
               = PyDict.get (get_instance_resources u (file w)) "workflows".

(** ** Sample data *)

Module Sample.

(** A configuration with one replacement group and two environments. *)
Definition config : creds_config :=
{| environments :=
 [("production",
 {| env_name := Some "Production"; env_postfix := "Prod";
env_credentials :=
[("slack_token",
{| decl_name := "Slack Token"; decl_type := "slackApi";
 decl_data := PDict [("accessToken", PStr "xoxb-prod")] |})] |});
("development",
 {| env_name := Some "Development"; env_postfix := "Dev";
env_credentials :=
[("slack_token",
{| decl_name := "Slack Token"; decl_type := "slackApi";
 decl_data := PDict [("accessToken", PStr "xoxb-dev")] |})] |})];
 replacements :=
 [("api_host",
 [("production", "api.prod.example.com");
("development", "api.dev.example.com")])] |}.

(** [W1]: one node, no sub-workflow, settings with a key of its own. *)
Definition w1 : value :=
PDict [("id", PStr "W1"); ("name", PStr "Notify");
 ("nodes",
PList [PDict [("name", PStr "Send");
("type", PStr "n8n-nodes-base.slack");
("credentials",
 PDict [("slackApi",
 PDict [("id", PStr "17");
("name", PStr "Slack Token Prod")])]);
("parameters",
 PDict [("url", PStr "https://api.staging.example.com/hook")])]]);
 ("connections", PDict []);
 ("settings", PDict [("executionTimeout", PInt 120);
 ("timezone", PStr "Europe/Vienna")])].

(** [W2]: one node invoking [W1] by string id. *)
Definition w2 : value :=
PDict [("id", PStr "W2"); ("name", PStr "Daily report");
 ("nodes",
PList [PDict [("name", PStr "Call notify");
("type", PStr execute_workflow_type);
("parameters", PDict [("workflowId", PStr "W1")])]]);
 ("connections", PDict [])].

(** A node whose credential is declared under a name of several words,
and a mapping that knows the credential under its key. *)
Definition postgres_entry : value :=
PDict [("id", PStr "4"); ("name", PStr "My Postgres DB Prod")].

Definition postgres_node : value :=
PDict [("name", PStr "Query"); ("type", PStr "n8n-nodes-base.postgres");
 ("credentials", PDict [("postgres", postgres_entry)])].

Definition postgres_mapping : PyDict.dict value :=
[("my_postgres_db", PStr "cred-1")].


(** A tool node in the object shape. *)
Definition tool_object_node : value :=
PDict [("name", PStr "Lookup tool"); ("type", PStr tool_workflow_type);
 ("parameters",
PDict [("workflowId",
PDict [("__rl", PBool true); ("value", PStr "W1");
 ("mode", PStr "list");
 ("cachedResultName", PStr "Notify Prod")])])].

Definition workflow_mapping : PyDict.dict value := [("W1", PStr "N1")].


Definition tool_object : PyDict.dict value :=
[("name", PStr "Lookup tool"); ("type", PStr tool_workflow_type);
 ("parameters",
PDict [("workflowId",
PDict [("__rl", PBool true); ("value", PStr "W1");
 ("mode", PStr "list");
 ("cachedResultName", PStr "Notify Prod")])])].

Definition rewritten (node : PyDict.dict value) : value :=
match rewrite_node [] workflow_mapping (PDict node) with
| Ok node' => node'
| Raise _ => PNone
end.

(** The payload [W1] is submitted as in the development environment. *)
Definition w1_payload : value :=
Eval vm_compute in
match rewrite RefJson.module (Some config) "development" [] [] w1 with
| Ok payload => payload
| Raise _ => PNone
end.

(** A remote platform where everything succeeds: created workflows are
numbered [N1], [N2], ... in the order of their creation, a created
credential keeps the name it was submitted under. *)
Definition workflows_created (history : list request) : nat :=
length (filter (fun r => match method r, target r with
 | POST, Workflows => true
 | _, _ => false
 end) history).

Definition reply (status : Z) (content : value) : result response :=
Ok {| status_code := status; has_text := true; body_json := Ok content |}.

Definition remote : transport :=
fun history r =>
match method r, target r with
| POST, Workflows =>
reply 200
(PDict [("id",
 PStr ("N" ++ PyStr.of_int
(Z.of_nat (S (workflows_created history)))))])
| POST, Credentials =>
reply 200
(PDict [("id", PStr "C1");
("name", match body r with
 | Some b => match Py.item b "name" with
 | Ok n => n
 | Raise _ => PNone
 end
 | None => PNone
 end)])
| PUT, TransferOf _ => reply 200 (PDict [])
| DELETE, _ => reply 200 (PDict [])
| _, _ => reply 404 (PDict [("message", PStr "not found")])
end.

(** The same platform behind a gateway that answers the project transfer
with [502 Bad Gateway] and a body that is not JSON. *)
Definition bad_gateway : result response :=
Ok {| status_code := 502; has_text := true; body_json := Raise JSONDecodeError |}.

Definition gateway_remote : transport :=
fun history r =>
match method r, target r with
| PUT, TransferOf _ => bad_gateway
| _, _ => remote history r
end.

Definition instance_url : string := "https://n8n.dev.example.com".

Definition the_project : project :=
{| project_id := PStr "P1"; project_name := PStr "Migration" |}.

Definition fresh : world := {| file := Absent; log := [] |}.

(** A ledger that tracks one workflow, one credential and the project. *)
Definition tracked_ledger : storage :=
Eval vm_compute in
file (run_ops
[RecordOp instance_url "workflows" (PStr "N1") (PStr "Notify");
 RecordOp instance_url "credentials" (PStr "C1") (PStr "Slack Token Dev");
 RecordOp instance_url "projects" (PStr "P1") (PStr "Migration")]
fresh).

Definition tracked_world : world := {| file := tracked_ledger; log := [] |}.

(** Three workflows that invoke each other in a circle: [A] invokes [B],
[B] invokes [C], [C] invokes [A]. *)
Definition invoking (id name callee : string) : value :=
PDict [("id", PStr id); ("name", PStr name);
 ("nodes",
PList [PDict [("name", PStr "Call");
("type", PStr execute_workflow_type);
("parameters", PDict [("workflowId", PStr callee)])]]);
 ("connections", PDict [])].

Definition circle : list value :=
[invoking "A" "First" "B"; invoking "B" "Second" "C"; invoking "C" "Third" "A"].

Definition circle_graph : graph := [("A", ["B"]); ("B", ["C"]); ("C", ["A"])].





End Sample.

(** ** Menus

    The three numbered menus ([print_menu], [select_project], the choice of
    the backup in [perform_restore]) are one loop: read a line, turn it into
    a number, return it when it names an entry, ask again otherwise.  What
    the user types is given as the list of what [int(input(...))] makes of
    each line: the number, or [None] for the [ValueError] of a line that is
    not a number. *)

Inductive interaction (A : Type) : Type :=
| Answered (a : A) (unread : list (option Z))
| StillAsking
| IndexOutOfRange.

Arguments Answered {A} a unread.
Arguments StillAsking {A}.
Arguments IndexOutOfRange {A}.

(** [while True: try: choice = int(input(...)) - 1
                      if 0 <= choice < count: return choice
                 except ValueError: ...] *)
Fixpoint choose (count : nat) (typed : list (option Z)) : interaction nat :=
  match typed with
  | [] => StillAsking
  | None :: rest => choose count rest
  | Some n :: rest =>
      let choice := (n - 1)%Z in
      if Z.leb 0 choice && Z.ltb choice (Z.of_nat count)
      then Answered (Z.to_nat choice) rest
      else choose count rest
  end.

(** [print_menu]: the title and the options are printed, the choice is
    returned. *)
Definition print_menu (title : string) (options : list string)
    (typed : list (option Z)) : interaction nat :=
  choose (length options) typed.

(** [select_project] *)
Definition select_project (projects : list value) (typed : list (option Z))
  : interaction value :=
  match choose (length projects) typed with
  | Answered choice unread =>
      match nth_error projects choice with
      | Some p => Answered p unread
      | None => IndexOutOfRange
      end
  | StillAsking => StillAsking
  | IndexOutOfRange => IndexOutOfRange
  end.

(** An entry of [servers.yaml]. *)
Record server : Type := {
  server_name : string;
  server_url : string;
  server_api_key : string;
  server_supports_projects : bool
}.

(** [select_server]: [servers] is [servers['servers']]. *)
Definition select_server (servers : PyDict.dict server)
    (typed : list (option Z)) : interaction (string * server) :=
  let server_names := PyDict.keys servers in
  let server_options :=
    map (fun name =>
           match PyDict.get servers name with
           | Some s => (server_name s ++ " (" ++ name ++ ")")%string
           | None => EmptyString
           end) server_names in
  match print_menu "Select Server" server_options typed with
  | Answered choice unread =>
      match nth_error server_names choice with
      | Some selected_name =>
          match PyDict.get servers selected_name with
          | Some s => Answered (selected_name, s) unread
          | None => IndexOutOfRange
          end
      | None => IndexOutOfRange
      end
  | StillAsking => StillAsking
  | IndexOutOfRange => IndexOutOfRange
  end.

(** ** The name of a backup directory *)

(** [c.isalnum()] on a code point below 256. *)
Definition isalnum (c : ascii) : bool :=
  let n := nat_of_ascii c in
  let between lo hi := Nat.leb lo n && Nat.leb n hi in
  between 48 57 || between 65 90 || between 97 122
  || Nat.eqb n 170 || between 178 179 || Nat.eqb n 181
  || between 185 186 || between 188 190
  || between 192 214 || between 216 246 || between 248 255.

(** [c.isalnum() or c in (' ', '-', '_')] *)
Definition kept_in_name (c : ascii) : bool :=
  isalnum c || Ascii.eqb c " " || Ascii.eqb c "-" || Ascii.eqb c "_".

(** [.join(c for c in server_name if ...).strip().replace(' ', '_')] of
    [perform_backup]. *)
Definition sanitized_server_name (server_name : string) : string :=
  PyStr.replace " " "_"
    (PyStr.strip
       (string_of_list_ascii
          (filter kept_in_name (list_ascii_of_string server_name)))).

(** What a sanitized name is made of. *)
Definition name_char (c : ascii) : bool :=
  isalnum c || Ascii.eqb c "-" || Ascii.eqb c "_".

(** ** [create_credential] on the dictionary it is handed

    [create_credential] above takes a declaration as [credentials.yaml] is
    meant to give it: a name that is a string, a type, and data.  The
    function itself is handed a dictionary, and reads
    [credential_data["name"].strip()] and [credential_data["data"]] before
    its [try]: what it does on any value is followed here, the exception
    that leaves it included.  [perform_restore] calls it inside a [try] of
    its own, and counts such a credential as failed. *)

Module Untyped.

(** [credential_data["name"].strip()], before the stripping: only a string
has [strip]. *)
Definition declared_name (credential_data : value) : result string :=
name <- Py.item credential_data "name" ;;
match name with
| PStr s => Ok s
| _ => Raise AttributeError
end.

(** [create_credential]: [Ok id] when it returns the new id, [Ok PNone] when
it returns [None], [Raise] when reading the name or the data raises. *)
Definition create_credential (remote : transport) (url : string)
(creds_file : option creds_config) (credential_data credential_type : value)
(env_postfix : string) (w : world) : result value * world :=
match (declared <- declared_name credential_data ;;
 data <- Py.item credential_data "data" ;;
 Ok (declared, data)) with
| Raise e => (Raise e, w)
| Ok (declared, data) =>
let payload :=
PDict [("name", PStr (credential_name creds_file declared env_postfix));
 ("type", credential_type);
 ("data", data)] in
let '(reply, w1) :=
send remote {| method := POST; base_url := url; target := Credentials;
 body := Some payload |} w in
match reply with
| Raise _ => (Ok PNone, w1)
| Ok r =>
if Z.eqb (status_code r) 200 then
match (credential <- body_json r ;;
 id <- Py.item credential "id" ;;
 name <- Py.item credential "name" ;;
 Ok (id, name)) with
| Raise _ => (Ok PNone, w1)
| Ok (id, name) =>
(Ok id, save_resource_mapping url "credentials" id name w1)
end
else (Ok PNone, w1)
end
end.

End Untyped.

(** ** What an operation on one instance may touch *)

(** An event that concerns the instance at [url]. *)
Definition event_at (url : string) (e : event) : Prop :=
  match e with
  | Sent r _ => base_url r = url
  | Saved u _ _ _ => u = url
  | Removed u _ _ => u = url
  end.

(** Every event added from [w] to [w'] satisfies [P]. *)
Definition grows (P : event -> Prop) (w w' : world) : Prop :=
  exists new, log w' = log w ++ new /\ Forall P new.

(** The ledger holds for every instance but [url] what it held. *)
Definition others_kept (url : string) (w w' : world) : Prop :=
  forall u, u <> url -> list_for u w' = list_for u w.

(** From [w] to [w'] only the instance at [url] was touched: every new
    request went to it, every new ledger write is filed under it, and the
    ledger holds for every other instance what it held. *)
Definition confined (url : string) (w w' : world) : Prop :=
  grows (event_at url) w w' /\ others_kept url w w'.

(** The requests that create a workflow, among the requests sent. *)
Definition creations (l : list request) : list request :=
  filter (fun r => match method r, target r with
                   | POST, Workflows => true
                   | _, _ => false
                   end) l.

(** An event of a deletion: the request, or the removal from the ledger. *)
Definition deletion_event (e : event) : Prop :=
  match e with
  | Sent r _ => method r = DELETE
  | Saved _ _ _ _ => False
  | Removed _ _ _ => True
  end.

(** * Theorems *)

(** ** Dictionaries *)

Section DictFacts.
Context {V : Type}.
Implicit Types (d : PyDict.dict V) (k : string) (v : V).

Lemma mem_In k d : PyDict.mem k d = true <-> In k (PyDict.keys d).
Proof.
unfold PyDict.mem. rewrite existsb_exists. split.
- intros (x & Hx & He). apply String.eqb_eq in He. now subst.
- intros H. exists k. split; [assumption | apply String.eqb_refl].
Qed.

Lemma mem_false k d : PyDict.mem k d = false <-> ~ In k (PyDict.keys d).
Proof.
rewrite <- mem_In. destruct (PyDict.mem k d); split; congruence.
Qed.

Lemma get_In d k v : PyDict.get d k = Some v -> In (k, v) d.
Proof.
induction d as [|[k' v'] d IH]; simpl; [discriminate|].
destruct (String.eqb k' k) eqn:E.
- apply String.eqb_eq in E. intros [= ->]. subst. now left.
- intros H. right. now apply IH.
Qed.

Lemma In_get d k v : PyDict.wf d -> In (k, v) d -> PyDict.get d k = Some v.
Proof.
unfold PyDict.wf.
induction d as [|[k' v'] d IH]; simpl; [contradiction|].
intros Hnd [H|H]; inversion Hnd as [|? ? Hnotin Hnd']; subst.
- injection H as -> ->. now rewrite String.eqb_refl.
- destruct (String.eqb k' k) eqn:E.
+ apply String.eqb_eq in E. subst. exfalso. apply Hnotin.
change k with (fst (k, v)). now apply in_map.
+ now apply IH.
Qed.

Lemma get_None d k : PyDict.get d k = None <-> ~ In k (PyDict.keys d).
Proof.
induction d as [|[k' v'] d IH]; simpl; [tauto|].
destruct (String.eqb k' k) eqn:E.
- apply String.eqb_eq in E. subst. split; [discriminate | tauto].
- apply String.eqb_neq in E. rewrite IH. tauto.
Qed.

Lemma keys_del d k :
PyDict.keys (PyDict.del d k) =
filter (fun k' => negb (String.eqb k' k)) (PyDict.keys d).
Proof.
unfold PyDict.del, PyDict.keys.
induction d as [|[k' v'] d IH]; simpl; [reflexivity|].
destruct (String.eqb k' k); simpl; now rewrite IH.
Qed.

Lemma keys_set d k v :
PyDict.keys (PyDict.set d k v) =
if PyDict.mem k d then PyDict.keys d else PyDict.keys d ++ [k].
Proof.
unfold PyDict.mem.
induction d as [|[k' v'] d IH]; simpl; [reflexivity|].
rewrite (String.eqb_sym k k').
destruct (String.eqb k' k) eqn:E; simpl; [reflexivity|].
rewrite IH. now destruct (existsb (String.eqb k) (PyDict.keys d)).
Qed.

Lemma get_set_same d k v : PyDict.get (PyDict.set d k v) k = Some v.
Proof.
induction d as [|[k' v'] d IH]; simpl.
- now rewrite String.eqb_refl.
- destruct (String.eqb k' k) eqn:E; simpl; now rewrite E.
Qed.

Lemma get_set_other d k k' v :
k' <> k -> PyDict.get (PyDict.set d k v) k' = PyDict.get d k'.
Proof.
intros Hne. induction d as [|[k0 v0] d IH]; simpl.
- apply String.eqb_neq in Hne. now rewrite String.eqb_sym, Hne.
- destruct (String.eqb k0 k) eqn:E; simpl.
+ apply String.eqb_eq in E. subst.
apply String.eqb_neq in Hne. now rewrite String.eqb_sym, Hne.
+ now rewrite IH.
Qed.

Lemma get_del_same d k : PyDict.get (PyDict.del d k) k = None.
Proof.
apply get_None. rewrite keys_del, filter_In, String.eqb_refl.
intros [_ H]. discriminate.
Qed.

Lemma get_del_other d k k' :
k' <> k -> PyDict.get (PyDict.del d k) k' = PyDict.get d k'.
Proof.
intros Hne. unfold PyDict.del.
induction d as [|[k0 v0] d IH]; simpl; [reflexivity|].
destruct (String.eqb k0 k) eqn:E; simpl.
- apply String.eqb_eq in E. subst.
apply not_eq_sym in Hne. apply String.eqb_neq in Hne. now rewrite Hne.
- now rewrite IH.
Qed.

Lemma wf_set d k v : PyDict.wf d -> PyDict.wf (PyDict.set d k v).
Proof.
unfold PyDict.wf. intros H. rewrite keys_set.
destruct (PyDict.mem k d) eqn:E; [assumption|].
apply mem_false in E.
apply NoDup_app; [assumption | repeat constructor; simpl; tauto |].
intros x Hx [<-|[]]. contradiction.
Qed.

Lemma wf_del d k : PyDict.wf d -> PyDict.wf (PyDict.del d k).
Proof.
unfold PyDict.wf. intros H. rewrite keys_del. now apply NoDup_filter.
Qed.
End DictFacts.

(** ** Lists *)

Section ListFacts.
Context {A : Type}.
Implicit Types (l : list A) (f g : A -> bool).

Lemma filter_twice f g l :
filter f (filter g l) = filter (fun x => g x && f x) l.
Proof.
induction l as [|x l IH]; simpl; [reflexivity|].
destruct (g x); simpl; [destruct (f x)|]; now rewrite IH.
Qed.

Lemma filter_all f l : (forall x, In x l -> f x = true) -> filter f l = l.
Proof.
induction l as [|x l IH]; simpl; intros H; [reflexivity|].
rewrite (H x (or_introl eq_refl)), IH; auto.
Qed.

Lemma filter_none f l : (forall x, In x l -> f x = false) -> filter f l = [].
Proof.
induction l as [|x l IH]; simpl; intros H; [reflexivity|].
rewrite (H x (or_introl eq_refl)). auto.
Qed.

Lemma filter_length_lt f l x :
In x l -> f x = false -> length (filter f l) < length l.
Proof.
induction l as [|y l IH]; simpl; [contradiction|].
intros [->|Hin] Hf.
- rewrite Hf. pose proof (filter_length_le f l). lia.
- specialize (IH Hin Hf). destruct (f y); simpl; lia.
Qed.

Lemma filter_split f g l :
(forall x, In x l -> f x && g x = false) ->
Permutation (filter (fun x => f x || g x) l) (filter f l ++ filter g l).
Proof.
induction l as [|x l IH]; simpl; intros H; [constructor|].
assert (Hx := H x (or_introl eq_refl)).
assert (IH' := IH (fun y Hy => H y (or_intror Hy))).
destruct (f x), (g x); simpl in *; try discriminate.
- now constructor.
- now apply Permutation_cons_app.
- assumption.
Qed.
End ListFacts.

Lemma map_fst_filter {A B : Type} (f : A -> bool) (l : list (A * B)) :
  map fst (filter (fun kv => f (fst kv)) l) = filter f (map fst l).
Proof.
  induction l as [|[a b] l IH]; simpl; [reflexivity|].
  destruct (f a); simpl; now rewrite IH.
Qed.

Lemma list_max_attained (l : list nat) (m : nat) :
  list_max l = S m -> In (S m) l.
Proof.
  induction l as [|x l IH]; simpl; [discriminate|].
  intros H. destruct (Nat.max_spec x (list_max l)) as [[_ E]|[_ E]];
    rewrite E in H; auto.
Qed.

Lemma existsb_eqb_In (k : string) (l : list string) :
  existsb (String.eqb k) l = true <-> In k l.
Proof.
  rewrite existsb_exists. split.
  - intros (x & Hx & He). apply String.eqb_eq in He. now subst.
  - intros H. exists k. split; [assumption | apply String.eqb_refl].
Qed.

(** ** The resolver: how the loop runs *)

Lemma delete_all_filter (ready : list string) (remaining : graph) :
  delete_all remaining ready =
  filter (fun kv => negb (existsb (String.eqb (fst kv)) ready)) remaining.
Proof.
  unfold delete_all. revert remaining.
  induction ready as [|k ready IH]; intros remaining; simpl.
  - symmetry. now apply filter_all.
  - rewrite IH. unfold PyDict.del. rewrite filter_twice.
    apply filter_ext. intros [k' v]. simpl. now rewrite negb_orb.
Qed.

Lemma ready_of_keys (remaining : graph) (k : string) :
  In k (ready_of remaining) -> In k (PyDict.keys remaining).
Proof.
  unfold ready_of, PyDict.keys. rewrite !in_map_iff.
  intros (kv & <- & H). apply filter_In in H. exists kv. tauto.
Qed.

Lemma delete_all_shrinks (remaining : graph) :
  ready_of remaining <> [] ->
  length (delete_all remaining (ready_of remaining)) < length remaining.
Proof.
  intros Hne. rewrite delete_all_filter.
  destruct (ready_of remaining) as [|k ready] eqn:E; [congruence|].
  assert (Hk : In k (PyDict.keys remaining))
    by (apply ready_of_keys; rewrite E; now left).
  apply in_map_iff in Hk. destruct Hk as ([k' v] & <- & Hin).
  apply filter_length_lt with (x := (k', v)); [assumption|].
  simpl. now rewrite String.eqb_refl.
Qed.

Lemma order_loop_step (fuel : nat) (remaining : graph) (order : list string) :
  remaining <> [] ->
  order_loop (S fuel) remaining order =
  match ready_of remaining with
  | [] => CircularDependency
  | _ :: _ => order_loop fuel (delete_all remaining (ready_of remaining))
                (order ++ ready_of remaining)
  end.
Proof.
  intros Hne. destruct remaining as [|kv remaining']; [congruence|].
  cbn [order_loop]. now destruct (ready_of (kv :: remaining')).
Qed.

(** The [while] loop terminates: a round takes at least one workflow away,
    so as many rounds as there are workflows are enough. *)
Lemma order_loop_total (fuel : nat) (remaining : graph) (order : list string) :
  length remaining <= fuel -> order_loop fuel remaining order <> OutOfFuel.
Proof.
  revert remaining order.
  induction fuel as [|fuel IH]; intros remaining order Hlen.
  - destruct remaining; simpl in *; [discriminate | lia].
  - destruct remaining as [|kv remaining'] eqn:Erem; [discriminate|].
    rewrite <- Erem in *. rewrite order_loop_step by congruence.
    destruct (ready_of remaining) eqn:E; [discriminate|].
    rewrite <- E. apply IH.
    assert (H : ready_of remaining <> []) by congruence.
    pose proof (delete_all_shrinks remaining H). lia.
Qed.

Lemma get_workflow_order_total (g : graph) : get_workflow_order g <> OutOfFuel.
Proof. apply order_loop_total. constructor. Qed.

(** ** The resolver on a levelled graph

    With a level function at hand the rounds of the loop can be named: round
    [r] starts with the workflows of level [r] and above, and takes away
    exactly those of level [r]. *)

Section Levelled.
Variable g : graph.
Variable lvl : string -> nat.
Hypothesis Hlvl : is_level g lvl.

Let remaining_at (r : nat) : graph :=
filter (fun kv => Nat.leb r (lvl (fst kv))) g.

Lemma remaining_at_keys r k :
In k (PyDict.keys (remaining_at r)) <-> In k (PyDict.keys g) /\ r <= lvl k.
Proof.
unfold remaining_at, PyDict.keys. rewrite !in_map_iff. split.
- intros ([k' v] & <- & H). apply filter_In in H. destruct H as [H1 H2].
apply Nat.leb_le in H2. split; [exists (k', v)|]; auto.
- intros [([k' v] & <- & H1) H2]. exists (k', v). split; [reflexivity|].
apply filter_In. split; [assumption | now apply Nat.leb_le].
Qed.

Lemma is_ready_at r k deps :
In (k, deps) g -> is_ready (remaining_at r) deps = Nat.leb (lvl k) r.
Proof.
intros Hin. rewrite (Hlvl k deps Hin). unfold is_ready.
apply eq_true_iff_eq. rewrite negb_true_iff, Nat.leb_le, list_max_le.
rewrite Forall_forall. split.
- intros Hex x Hx. apply in_map_iff in Hx. destruct Hx as (d & <- & Hd).
unfold inset_deps in Hd. apply filter_In in Hd. destruct Hd as [Hd Hmem].
apply mem_In in Hmem.
destruct (le_lt_dec (S (lvl d)) r) as [|Hlt]; [assumption|].
exfalso. assert (E : existsb (fun dep => PyDict.mem dep (remaining_at r)) deps = true).
{ apply existsb_exists. exists d. split; [assumption|].
apply mem_In, remaining_at_keys. split; [assumption | lia]. }
congruence.
- intros Hall.
destruct (existsb (fun dep => PyDict.mem dep (remaining_at r)) deps) eqn:E;
[|reflexivity].
apply existsb_exists in E. destruct E as (d & Hd & Hmem).
apply mem_In, remaining_at_keys in Hmem. destruct Hmem as [Hkey Hle].
assert (S (lvl d) <= r); [|lia].
apply Hall. apply in_map_iff. exists d. split; [reflexivity|].
unfold inset_deps. apply filter_In. split; [assumption | now apply mem_In].
Qed.

Lemma ready_of_at r : ready_of (remaining_at r) = layer g lvl r.
Proof.
unfold ready_of, layer, PyDict.keys.
rewrite <- (map_fst_filter (fun k => Nat.eqb (lvl k) r) g).
f_equal. unfold remaining_at at 2. rewrite filter_twice.
apply filter_ext_in. intros [k deps] Hin. simpl.
rewrite (is_ready_at r k deps Hin).
destruct (Nat.leb_spec r (lvl k)), (Nat.leb_spec (lvl k) r),
(Nat.eqb_spec (lvl k) r); simpl; try reflexivity; lia.
Qed.

Lemma delete_all_at r :
delete_all (remaining_at r) (layer g lvl r) = remaining_at (S r).
Proof.
rewrite delete_all_filter. unfold remaining_at. rewrite filter_twice.
apply filter_ext_in. intros [k deps] Hin. cbn [fst].
destruct (existsb (String.eqb k) (layer g lvl r)) eqn:E.
- apply existsb_eqb_In in E. unfold layer in E. apply filter_In in E.
destruct E as [_ E]. apply Nat.eqb_eq in E.
destruct (Nat.leb_spec r (lvl k)), (Nat.leb_spec (S r) (lvl k));
cbn [negb andb]; try reflexivity; lia.
- assert (Hne : lvl k <> r).
{ intros Heq. assert (In k (layer g lvl r)).
{ unfold layer. apply filter_In. split.
- change k with (fst (k, deps)). now apply in_map.
- now apply Nat.eqb_eq. }
apply existsb_eqb_In in H. congruence. }
destruct (Nat.leb_spec r (lvl k)), (Nat.leb_spec (S r) (lvl k));
cbn [negb andb]; try reflexivity; lia.
Qed.

(** Levels have no gaps: below a key of level [r + n] there is one of
level [r]. *)
Lemma level_dense n : forall r k,
In k (PyDict.keys g) -> lvl k = r + n ->
exists k', In k' (PyDict.keys g) /\ lvl k' = r.
Proof.
induction n as [|n IH]; intros r k Hk Hl.
- exists k. split; [assumption | lia].
- unfold PyDict.keys in Hk. apply in_map_iff in Hk.
destruct Hk as ([k0 deps] & Hfst & Hin). simpl in Hfst. subst k0.
pose proof (Hlvl k deps Hin) as E. rewrite Hl in E.
replace (r + S n) with (S (r + n)) in E by lia. symmetry in E.
apply list_max_attained in E. apply in_map_iff in E.
destruct E as (d & Hd & Hdin). injection Hd as Hd.
unfold inset_deps in Hdin. apply filter_In in Hdin.
destruct Hdin as [_ Hmem]. apply mem_In in Hmem.
now apply (IH r d).
Qed.

Lemma layer_nonempty r : r < rounds g lvl -> layer g lvl r <> [].
Proof.
unfold rounds. intros Hr.
assert (Hex : exists k, In k (PyDict.keys g) /\ r <= lvl k).
{ destruct (Exists_dec (fun k => r <= lvl k) (PyDict.keys g)) as [E|E].
- intros k. apply le_dec.
- apply Exists_exists in E. exact E.
- exfalso. apply (Nat.lt_irrefl r). eapply Nat.lt_le_trans; [exact Hr|].
apply list_max_le, Forall_forall. intros x Hx.
apply in_map_iff in Hx. destruct Hx as (k & <- & Hk).
destruct (le_lt_dec (S (lvl k)) r); [assumption|].
exfalso. apply E, Exists_exists. exists k. split; [assumption | lia]. }
destruct Hex as (k & Hk & Hle).
destruct (level_dense (lvl k - r) r k Hk) as (k' & Hk' & Hl'); [lia|].
intros Hnil. assert (Hin : In k' (layer g lvl r)).
{ unfold layer. apply filter_In. split; [assumption | now apply Nat.eqb_eq]. }
rewrite Hnil in Hin. contradiction.
Qed.

Lemma remaining_at_rounds : remaining_at (rounds g lvl) = [].
Proof.
unfold remaining_at. apply filter_none. intros [k deps] Hin. simpl.
apply Nat.leb_gt. unfold rounds.
assert (H : list_max (map (fun k => S (lvl k)) (PyDict.keys g))
<= list_max (map (fun k => S (lvl k)) (PyDict.keys g))) by lia.
apply list_max_le in H. rewrite Forall_forall in H.
apply (H (S (lvl k))). apply in_map_iff. exists k. split; [reflexivity|].
change k with (fst (k, deps)). now apply in_map.
Qed.

Lemma order_loop_at n : forall r fuel order,
r + n = rounds g lvl -> length (remaining_at r) <= fuel ->
order_loop fuel (remaining_at r) order =
Order (order ++ flat_map (layer g lvl) (seq r n)).
Proof.
induction n as [|n IH]; intros r fuel order Hr Hfuel.
- replace r with (rounds g lvl) by lia. rewrite remaining_at_rounds.
simpl. rewrite app_nil_r. now destruct fuel.
- assert (Hlayer : layer g lvl r <> []) by (apply layer_nonempty; lia).
assert (Hrem : remaining_at r <> []).
{ intros E. apply Hlayer. rewrite <- ready_of_at, E. reflexivity. }
destruct fuel as [|fuel].
{ destruct (remaining_at r); [congruence | simpl in Hfuel; lia]. }
rewrite order_loop_step by assumption.
pose proof (delete_all_shrinks (remaining_at r)) as Hshrink.
rewrite ready_of_at in *. specialize (Hshrink Hlayer).
rewrite delete_all_at in *.
destruct (layer g lvl r) eqn:E; [congruence|]. rewrite <- E.
rewrite IH by lia. simpl. now rewrite app_assoc.
Qed.

(** The order is the list of workflows sorted by level, a level keeping the
discovery order of its workflows. *)
Lemma get_workflow_order_layered :
get_workflow_order g = Order (layered g lvl (rounds g lvl)).
Proof.
unfold get_workflow_order, layered.
assert (E : remaining_at 0 = g) by (apply filter_all; auto).
pose proof (order_loop_at (rounds g lvl) 0 (length g) []) as H.
rewrite E in H. apply H; lia.
Qed.
End Levelled.

(** ** Acyclic graphs have levels *)

Lemma depth_S (g : graph) (n : nat) (k : string) :
  depth g (S n) k =
  match PyDict.get g k with
  | None => 0
  | Some deps => list_max (map (fun d => S (depth g n d)) (inset_deps g deps))
  end.
Proof. reflexivity. Qed.

Lemma inset_deps_In (g : graph) (deps : list string) (d : string) :
  In d (inset_deps g deps) <-> In d deps /\ In d (PyDict.keys g).
Proof. unfold inset_deps. now rewrite filter_In, mem_In. Qed.

Lemma reach_snoc (g : graph) (a b c : string) :
  reach g a b -> edge g b c -> reach g a c.
Proof.
  induction 1 as [a b Hab | a b b' Hab Hbb' IH]; intros Hc.
  - eapply reach_step; [exact Hab | now apply reach_edge].
  - eapply reach_step; [exact Hab | now apply IH].
Qed.

Lemma reach_source_key (g : graph) (a b : string) :
  reach g a b -> In a (PyDict.keys g).
Proof.
  intros H. assert (He : exists c, edge g a c) by (destruct H; eauto).
  destruct He as (c & deps & Hin & _).
  change a with (fst (a, deps)). now apply in_map.
Qed.

(** A key of depth [S m] starts a chain of [S m] distinct keys. *)
Lemma depth_chain (g : graph) :
  acyclic g ->
  forall n k m, depth g n k = S m ->
  exists l, length l = S m /\ NoDup l /\ incl l (PyDict.keys g) /\
            forall y, In y l -> reach g k y.
Proof.
  intros Hacyc. induction n as [|n IH]; intros k m Hd; [discriminate|].
  rewrite depth_S in Hd. destruct (PyDict.get g k) as [deps|] eqn:Hget;
    [|discriminate].
  apply list_max_attained, in_map_iff in Hd. destruct Hd as (d & Hd & Hin).
  injection Hd as Hd. apply inset_deps_In in Hin. destruct Hin as [Hdeps Hkey].
  assert (Hedge : edge g k d).
  { exists deps. split; [now apply get_In | now split]. }
  destruct m as [|m].
  - exists [d]. repeat split.
    + repeat constructor. simpl. tauto.
    + intros x [<-|[]]. assumption.
    + intros y [<-|[]]. now apply reach_edge.
  - destruct (IH d m Hd) as (l & Hlen & Hnd & Hincl & Hreach).
    exists (d :: l). repeat split.
    + simpl. now rewrite Hlen.
    + constructor; [|assumption]. intros Hin. now apply (Hacyc d), Hreach.
    + intros x [<-|Hx]; [assumption | now apply Hincl].
    + intros y [<-|Hy]; [now apply reach_edge|].
      eapply reach_step; [exact Hedge | now apply Hreach].
Qed.

Lemma depth_bound (g : graph) (n : nat) (k : string) :
  acyclic g -> depth g n k <= length g.
Proof.
  intros Hacyc. destruct (depth g n k) as [|m] eqn:E; [lia|].
  destruct (depth_chain g Hacyc n k m E) as (l & Hlen & Hnd & Hincl & _).
  rewrite <- Hlen. unfold PyDict.keys in Hincl.
  rewrite <- (length_map fst g). now apply NoDup_incl_length.
Qed.

Lemma depth_stable (g : graph) : forall n k,
  depth g (S n) k <= n -> depth g (S n) k = depth g n k.
Proof.
  induction n as [|n IH]; intros k Hle.
  - simpl depth at 2. lia.
  - rewrite (depth_S g (S n)) in *. rewrite (depth_S g n).
    destruct (PyDict.get g k) as [deps|]; [|reflexivity].
    f_equal. apply map_ext_in. intros d Hd. f_equal. apply IH.
    apply list_max_le in Hle. rewrite Forall_forall in Hle.
    assert (S (depth g (S n) d) <= S n); [|lia].
    apply Hle. apply in_map_iff. now exists d.
Qed.

(** On an acyclic graph [level] satisfies the level equation. *)
Lemma level_is_level (g : graph) :
  PyDict.wf g -> acyclic g -> is_level g (level g).
Proof.
  intros Hwf Hacyc k deps Hin. unfold level.
  assert (Hst : forall x, depth g (S (length g)) x = depth g (length g) x).
  { intros x. apply depth_stable. now apply depth_bound. }
  rewrite <- (Hst k), depth_S, (In_get g k deps Hwf Hin). reflexivity.
Qed.

(** ** What the sorted-by-level order satisfies *)

Lemma before_app_intro (x y : string) (l1 l2 : list string) :
  In x l1 -> In y l2 -> before x y (l1 ++ l2).
Proof.
  intros Hx Hy. apply in_split in Hx, Hy.
  destruct Hx as (a & b & ->), Hy as (c & d & ->).
  exists a, (b ++ c), d. now rewrite <- !app_assoc.
Qed.

Lemma before_app_r (x y : string) (p l : list string) :
  before x y l -> before x y (p ++ l).
Proof.
  intros (l1 & l2 & l3 & ->). exists (p ++ l1), l2, l3. now rewrite <- app_assoc.
Qed.

Lemma before_app_l (x y : string) (l s : list string) :
  before x y l -> before x y (l ++ s).
Proof.
  intros (l1 & l2 & l3 & ->). exists l1, l2, (l3 ++ s).
  rewrite <- !app_assoc. simpl. now rewrite <- !app_assoc.
Qed.

Lemma before_filter (f : string -> bool) (x y : string) (l : list string) :
  before x y l -> f x = true -> f y = true -> before x y (filter f l).
Proof.
  intros (l1 & l2 & l3 & ->) Hx Hy.
  exists (filter f l1), (filter f l2), (filter f l3).
  rewrite filter_app. simpl. rewrite Hx, filter_app. simpl. now rewrite Hy.
Qed.

Section LayeredFacts.
Variable g : graph.
Variable lvl : string -> nat.

Lemma layered_split (i R : nat) :
i < R ->
layered g lvl R =
layered g lvl i ++ layer g lvl i ++
flat_map (layer g lvl) (seq (S i) (R - S i)).
Proof.
intros Hi. unfold layered.
replace R with (i + S (R - S i)) at 1 by lia.
rewrite seq_app, flat_map_app. reflexivity.
Qed.

Lemma lvl_lt_rounds (k : string) :
In k (PyDict.keys g) -> lvl k < rounds g lvl.
Proof.
intros Hk. unfold rounds.
assert (H : list_max (map (fun k => S (lvl k)) (PyDict.keys g))
<= list_max (map (fun k => S (lvl k)) (PyDict.keys g))) by lia.
apply list_max_le in H. rewrite Forall_forall in H.
apply (H (S (lvl k))). apply in_map_iff. now exists k.
Qed.

Lemma In_layer (k : string) :
In k (PyDict.keys g) -> In k (layer g lvl (lvl k)).
Proof.
intros Hk. unfold layer. apply filter_In. split; [assumption|].
apply Nat.eqb_refl.
Qed.

Lemma before_layered_lt (a b : string) (R : nat) :
In a (PyDict.keys g) -> In b (PyDict.keys g) ->
lvl a < lvl b -> lvl b < R -> before a b (layered g lvl R).
Proof.
intros Ha Hb Hlt HR. rewrite (layered_split (lvl a) R) by lia.
apply before_app_r, before_app_intro; [now apply In_layer|].
apply in_flat_map. exists (lvl b). split; [|now apply In_layer].
apply in_seq. lia.
Qed.

Lemma before_layered_eq (a b : string) (R : nat) :
lvl a = lvl b -> lvl b < R ->
before a b (PyDict.keys g) -> before a b (layered g lvl R).
Proof.
intros Heq HR Hab. rewrite (layered_split (lvl b) R) by lia.
apply before_app_r, before_app_l. unfold layer.
apply before_filter; [assumption | now apply Nat.eqb_eq | apply Nat.eqb_refl].
Qed.

Lemma layered_below (R : nat) :
Permutation (layered g lvl R)
(filter (fun k => Nat.ltb (lvl k) R) (PyDict.keys g)).
Proof.
unfold layered. induction R as [|R IH].
- simpl. rewrite filter_none; [constructor | reflexivity].
- rewrite seq_S, flat_map_app. simpl. rewrite app_nil_r.
rewrite (filter_ext (fun k => Nat.ltb (lvl k) (S R))
 (fun k => Nat.ltb (lvl k) R || Nat.eqb (lvl k) R)).
+ etransitivity; [|symmetry; apply filter_split].
* apply Permutation_app; [exact IH | reflexivity].
* intros k _. destruct (Nat.ltb_spec (lvl k) R),
(Nat.eqb_spec (lvl k) R); simpl; try reflexivity; lia.
+ intros k. destruct (Nat.ltb_spec (lvl k) (S R)),
(Nat.ltb_spec (lvl k) R), (Nat.eqb_spec (lvl k) R);
simpl; try reflexivity; lia.
Qed.

Lemma layered_Permutation :
Permutation (layered g lvl (rounds g lvl)) (PyDict.keys g).
Proof.
etransitivity; [apply layered_below|].
rewrite filter_all; [reflexivity|].
intros k Hk. apply Nat.ltb_lt. now apply lvl_lt_rounds.
Qed.

Lemma dependency_below (k d : string) (deps : list string) :
is_level g lvl ->
In (k, deps) g -> In d deps -> In d (PyDict.keys g) -> lvl d < lvl k.
Proof.
intros Hlvl Hin Hd Hkey. rewrite (Hlvl k deps Hin).
assert (H : list_max (map (fun d => S (lvl d)) (inset_deps g deps))
<= list_max (map (fun d => S (lvl d)) (inset_deps g deps))) by lia.
apply list_max_le in H. rewrite Forall_forall in H.
apply (H (S (lvl d))). apply in_map_iff. exists d. split; [reflexivity|].
now apply inset_deps_In.
Qed.
End LayeredFacts.

(** ** Dependencies outside the key set *)

Section Restrict.
Variable g : graph.

Let drop (kv : string * list string) : string * list string :=
(fst kv, inset_deps g (snd kv)).

Lemma keys_map_drop (remaining : graph) :
PyDict.keys (map drop remaining) = PyDict.keys remaining.
Proof. unfold PyDict.keys. rewrite map_map. reflexivity. Qed.

Lemma mem_map_drop (remaining : graph) (d : string) :
PyDict.mem d (map drop remaining) = PyDict.mem d remaining.
Proof. unfold PyDict.mem. now rewrite keys_map_drop. Qed.

Lemma is_ready_drop (remaining : graph) (deps : list string) :
incl (PyDict.keys remaining) (PyDict.keys g) ->
is_ready (map drop remaining) (inset_deps g deps) = is_ready remaining deps.
Proof.
intros Hincl. unfold is_ready, inset_deps. f_equal.
induction deps as [|d deps IH]; simpl; [reflexivity|].
destruct (PyDict.mem d g) eqn:Eg; simpl; rewrite IH.
- now rewrite mem_map_drop.
- destruct (PyDict.mem d remaining) eqn:Er; [|reflexivity].
apply mem_In in Er. apply Hincl in Er. apply mem_In in Er. congruence.
Qed.

Lemma ready_of_drop (remaining : graph) :
incl (PyDict.keys remaining) (PyDict.keys g) ->
ready_of (map drop remaining) = ready_of remaining.
Proof.
intros Hincl. unfold ready_of.
assert (E : forall l : graph,
map fst (filter (fun kv => is_ready (map drop remaining) (snd kv)) (map drop l)) =
map fst (filter (fun kv => is_ready remaining (snd kv)) l)).
{ induction l as [|[k deps] l IH]; simpl; [reflexivity|].
rewrite (is_ready_drop remaining deps Hincl).
destruct (is_ready remaining deps); simpl; now rewrite IH. }
apply E.
Qed.

Lemma delete_all_drop (remaining : graph) (ready : list string) :
delete_all (map drop remaining) ready = map drop (delete_all remaining ready).
Proof.
rewrite !delete_all_filter.
induction remaining as [|[k deps] remaining IH]; simpl; [reflexivity|].
destruct (existsb (String.eqb k) ready); simpl; now rewrite IH.
Qed.

Lemma delete_all_keys (remaining : graph) (ready : list string) :
incl (PyDict.keys (delete_all remaining ready)) (PyDict.keys remaining).
Proof.
rewrite delete_all_filter. intros k Hk. unfold PyDict.keys in *.
apply in_map_iff in Hk. destruct Hk as (kv & <- & Hin).
apply filter_In in Hin. apply in_map. tauto.
Qed.

Lemma order_loop_drop (fuel : nat) : forall remaining order,
incl (PyDict.keys remaining) (PyDict.keys g) ->
order_loop fuel (map drop remaining) order = order_loop fuel remaining order.
Proof.
induction fuel as [|fuel IH]; intros remaining order Hincl.
- now destruct remaining.
- destruct remaining as [|kv remaining'] eqn:E; [reflexivity|].
rewrite <- E in *.
assert (Hne : remaining <> []) by (rewrite E; discriminate).
assert (Hne' : map drop remaining <> []) by (rewrite E; discriminate).
rewrite !order_loop_step by assumption.
rewrite (ready_of_drop remaining Hincl).
destruct (ready_of remaining); [reflexivity|].
rewrite delete_all_drop. apply IH.
intros k Hk. apply Hincl. eapply delete_all_keys. exact Hk.
Qed.

(** Dependencies that are not keys of the graph play no part. *)
Lemma get_workflow_order_restrict :
get_workflow_order (restrict g) = get_workflow_order g.
Proof.
unfold get_workflow_order, restrict. fold drop. rewrite length_map.
apply order_loop_drop. apply incl_refl.
Qed.
End Restrict.

(** ** Cycles *)

Section Cycles.
Variable g : graph.
Hypothesis Hwf : PyDict.wf g.

Let on_cycle (x : string) : Prop := reach g x x.

(** The workflows on a cycle are all still to be placed, each with one of
its dependencies among them. *)
Let stuck (remaining : graph) : Prop :=
(exists x, on_cycle x) /\
(forall x, on_cycle x -> In x (PyDict.keys remaining)) /\
(forall x deps, In (x, deps) remaining -> on_cycle x ->
exists d, In d deps /\ on_cycle d).

Lemma stuck_initially : cyclic g -> stuck g.
Proof.
intros Hcyc. split; [exact Hcyc|]. split.
- intros x Hx. now apply (reach_source_key g x x).
- intros x deps Hin Hx. unfold on_cycle in *.
assert (Hnext : exists b, edge g x b /\ reach g b b).
{ inversion Hx as [a b He | a b c He Hr]; subst.
- exists x. now split.
- exists b. split; [assumption|]. eapply reach_snoc; eassumption. }
destruct Hnext as (b & (deps' & Hin' & Hb & _) & Hbb).
exists b. split; [|assumption].
pose proof (In_get g x deps Hwf Hin) as E1.
pose proof (In_get g x deps' Hwf Hin') as E2.
congruence.
Qed.

Lemma stuck_not_ready (remaining : graph) (x : string) :
stuck remaining -> on_cycle x -> ~ In x (ready_of remaining).
Proof.
intros (_ & Hkeys & Hdeps) Hx Hin. unfold ready_of in Hin.
apply in_map_iff in Hin. destruct Hin as ([k deps] & Hk & Hf).
simpl in Hk. subst k. apply filter_In in Hf. destruct Hf as [Hin Hready].
simpl in Hready. destruct (Hdeps x deps Hin Hx) as (d & Hd & Hdc).
unfold is_ready in Hready. apply negb_true_iff in Hready.
assert (E : existsb (fun dep => PyDict.mem dep remaining) deps = true).
{ apply existsb_exists. exists d. split; [assumption|].
apply mem_In. now apply Hkeys. }
congruence.
Qed.

Lemma stuck_step (remaining : graph) :
stuck remaining -> stuck (delete_all remaining (ready_of remaining)).
Proof.
intros Hst. pose proof Hst as (Hex & Hkeys & Hdeps).
rewrite delete_all_filter. split; [exact Hex|]. split.
- intros x Hx. pose proof (Hkeys x Hx) as Hin. unfold PyDict.keys in *.
apply in_map_iff in Hin. destruct Hin as ([k deps] & Hk & Hin).
simpl in Hk. subst k. apply in_map_iff. exists (x, deps).
split; [reflexivity|]. apply filter_In. split; [assumption|]. simpl.
apply negb_true_iff.
destruct (existsb (String.eqb x) (ready_of remaining)) eqn:E; [|reflexivity].
apply existsb_eqb_In in E. exfalso. now apply (stuck_not_ready remaining x).
- intros x deps Hin Hx. apply filter_In in Hin. now apply (Hdeps x deps).
Qed.

Lemma stuck_never_ordered (fuel : nat) : forall remaining order result,
stuck remaining -> order_loop fuel remaining order <> Order result.
Proof.
induction fuel as [|fuel IH]; intros remaining order result Hst.
- pose proof Hst as ((x & Hx) & Hkeys & _). specialize (Hkeys x Hx).
destruct remaining; [contradiction | discriminate].
- assert (Hne : remaining <> []).
{ pose proof Hst as ((x & Hx) & Hkeys & _). specialize (Hkeys x Hx).
intros ->. contradiction. }
rewrite order_loop_step by assumption.
destruct (ready_of remaining) eqn:E; [discriminate|]. rewrite <- E.
apply IH. now apply stuck_step.
Qed.

Lemma get_workflow_order_cyclic :
cyclic g -> get_workflow_order g = CircularDependency.
Proof.
intros Hcyc. pose proof (get_workflow_order_total g) as Htot.
pose proof (stuck_never_ordered (length g) g [] ) as Hno.
unfold get_workflow_order in *.
destruct (order_loop (length g) g []) as [order| |];
[|reflexivity|congruence].
exfalso. apply (Hno order); [now apply stuck_initially | reflexivity].
Qed.
End Cycles.

(** ** The resolver on acyclic graphs *)

Lemma is_level_b_correct (g : graph) (lvl : string -> nat) :
  is_level_b g lvl = true -> is_level g lvl.
Proof.
  unfold is_level_b. rewrite forallb_forall. intros H k deps Hin.
  apply Nat.eqb_eq. exact (H (k, deps) Hin).
Qed.

Lemma edge_below (g : graph) (lvl : string -> nat) (a b : string) :
  is_level g lvl -> edge g a b -> lvl b < lvl a.
Proof.
  intros Hlvl (deps & Hin & Hb & Hkey). now apply (dependency_below g lvl a b deps).
Qed.

Lemma reach_below (g : graph) (lvl : string -> nat) (a b : string) :
  is_level g lvl -> reach g a b -> lvl b < lvl a.
Proof.
  intros Hlvl. induction 1 as [a b He | a b c He Hr IH].
  - now apply (edge_below g).
  - pose proof (edge_below g lvl a b Hlvl He). lia.
Qed.

(** A graph that can be levelled has no cycle. *)
Lemma level_acyclic (g : graph) (lvl : string -> nat) :
  is_level g lvl -> acyclic g.
Proof.
  intros Hlvl a Ha. pose proof (reach_below g lvl a a Hlvl Ha). lia.
Qed.

Example sample_order :
  get_workflow_order sample_graph = Order ["W0"; "W1"; "W2"; "W4"; "W3"].
Proof. reflexivity. Qed.

(** C1.  On an acyclic dependency graph [get_workflow_order] returns an
    order (it does not raise): the order lists every workflow of the graph
    once; a dependency that is a key of the graph stands before each of its
    dependents; dependencies that are not keys play no part, the graph with
    them dropped gives the same order; and the order is fixed by the input
    alone, being the workflows sorted by the round in which they become ready
    ([level]), workflows of a same round staying in the discovery order of
    the graph. *)
Theorem get_workflow_order_acyclic (g : graph) :
  PyDict.wf g -> acyclic g ->
  exists order,
    get_workflow_order g = Order order /\
    Permutation order (PyDict.keys g) /\
    (forall k deps d, In (k, deps) g -> In d deps -> In d (PyDict.keys g) ->
                      before d k order) /\
    get_workflow_order (restrict g) = Order order /\
    order = layered g (level g) (rounds g (level g)) /\
    (forall a b, In a (PyDict.keys g) -> In b (PyDict.keys g) ->
                 level g a < level g b -> before a b order) /\
    (forall a b, level g a = level g b -> before a b (PyDict.keys g) ->
                 before a b order).
Proof.
  intros Hwf Hacyc.
  pose proof (level_is_level g Hwf Hacyc) as Hlvl.
  pose proof (get_workflow_order_layered g (level g) Hlvl) as Hrun.
  exists (layered g (level g) (rounds g (level g))).
  split; [exact Hrun|]. split; [apply layered_Permutation|].
  split; [|split; [|split; [reflexivity|split]]].
  - intros k deps d Hin Hd Hkey.
    apply before_layered_lt.
    + assumption.
    + change k with (fst (k, deps)). now apply in_map.
    + now apply (dependency_below g (level g) k d deps).
    + apply lvl_lt_rounds. change k with (fst (k, deps)). now apply in_map.
  - now rewrite get_workflow_order_restrict.
  - intros a b Ha Hb Hlt. apply before_layered_lt; try assumption.
    now apply lvl_lt_rounds.
  - intros a b Heq Hab. apply before_layered_eq; try assumption.
    apply lvl_lt_rounds. destruct Hab as (l1 & l2 & l3 & E). rewrite E.
    apply in_or_app. right. right. apply in_or_app. right. now left.
Qed.

Lemma get_workflow_order_acyclic_witness :
  exists order,
    get_workflow_order sample_graph = Order order /\
    Permutation order (PyDict.keys sample_graph) /\
    (forall k deps d, In (k, deps) sample_graph -> In d deps ->
                      In d (PyDict.keys sample_graph) -> before d k order) /\
    get_workflow_order (restrict sample_graph) = Order order /\
    order = layered sample_graph (level sample_graph)
              (rounds sample_graph (level sample_graph)) /\
    (forall a b, In a (PyDict.keys sample_graph) ->
                 In b (PyDict.keys sample_graph) ->
                 level sample_graph a < level sample_graph b ->
                 before a b order) /\
    (forall a b, level sample_graph a = level sample_graph b ->
                 before a b (PyDict.keys sample_graph) -> before a b order).
Proof.
  apply (get_workflow_order_acyclic sample_graph).
  - unfold PyDict.wf. simpl.
    repeat (constructor; [simpl; intuition discriminate|]). constructor.
  - apply (level_acyclic sample_graph sample_level).
    apply is_level_b_correct. reflexivity.
Defined.

(** ** Strings *)

Lemma prefix_empty (s : string) : String.prefix "" s = true.
Proof. now destruct s. Qed.

Lemma contains_empty (s : string) : PyStr.contains "" s = true.
Proof. destruct s; reflexivity. Qed.

Lemma contains_cons (old : string) (c : ascii) (s : string) :
  PyStr.contains old (String c s) =
  String.prefix old (String c s) || PyStr.contains old s.
Proof. reflexivity. Qed.

(** A literal that does not occur is not replaced. *)
Lemma replace_absent (old new s : string) :
  PyStr.contains old s = false -> PyStr.replace old new s = s.
Proof.
  destruct old as [|a old]; [now rewrite contains_empty|].
  unfold PyStr.replace. induction s as [|c s IH]; intros H; [reflexivity|].
  rewrite contains_cons in H. apply orb_false_iff in H. destruct H as [Hp Hc].
  cbn [PyStr.replace_from]. rewrite Hp. f_equal. now apply IH.
Qed.

Lemma replace_all_absent (table : PyDict.dict string) (s : string) :
  (forall old, In old (PyDict.keys table) -> PyStr.contains old s = false) ->
  replace_all table s = s.
Proof.
  unfold replace_all. induction table as [|[old new] table IH]; intros H;
    [reflexivity|].
  simpl. rewrite replace_absent by (apply H; now left).
  apply IH. intros k Hk. apply H. now right.
Qed.

(** ** The literal replacement *)

(** C8.  The literal replacement leaves alone a definition whose serialized
    form contains no key of the replacement table: the text comes out of the
    replacements as it went in, the step returns the definition it was
    given, and the rewrite goes on with that definition.  (The definition is
    one that [json] writes and reads back, as those read from a backup
    are.) *)
Theorem literal_replacement_identity (json : json_module) (cfg : creds_config)
    (env_type : string) (credential_mapping sf_id_mapping : PyDict.dict value)
    (workflow : value) :
  loads json (dumps json workflow) = Ok workflow ->
  (forall old, In old (PyDict.keys (get_environment_replacements cfg env_type)) ->
               PyStr.contains old (dumps json workflow) = false) ->
  replace_all (get_environment_replacements cfg env_type) (dumps json workflow)
    = dumps json workflow
  /\ apply_replacements json (Some cfg) env_type workflow workflow = workflow
  /\ rewrite json (Some cfg) env_type credential_mapping sf_id_mapping workflow
     = finish_rewrite credential_mapping sf_id_mapping workflow.
Proof.
  intros Hround Habsent.
  pose proof (replace_all_absent _ _ Habsent) as Htext.
  assert (Hstep : apply_replacements json (Some cfg) env_type workflow workflow
                  = workflow).
  { unfold apply_replacements. now rewrite Htext, Hround. }
  split; [exact Htext|]. split; [exact Hstep|].
  unfold rewrite. rewrite Hround. cbn [bind]. now rewrite Hstep.
Qed.

Lemma literal_replacement_identity_witness :
  replace_all (get_environment_replacements Sample.config "development")
              (dumps RefJson.module Sample.w1)
    = dumps RefJson.module Sample.w1
  /\ apply_replacements RefJson.module (Some Sample.config) "development"
       Sample.w1 Sample.w1 = Sample.w1
  /\ rewrite RefJson.module (Some Sample.config) "development" [] [] Sample.w1
     = finish_rewrite [] [] Sample.w1.
Proof.
  apply (literal_replacement_identity RefJson.module Sample.config
           "development" [] [] Sample.w1).
  - vm_compute. reflexivity.
  - intros old Hold. vm_compute in Hold.
    destruct Hold as [<-|[]]. vm_compute. reflexivity.
Defined.

(** ** Settings *)

Lemma fill_settings (s : PyDict.dict value) (keys : list string) :
  for_each (fun key =>
              v <- Py.get_default (PDict s) key (settings_default key) ;;
              Ok (key, v)) keys
  = Ok (map (fun key => (key, setting_or_default s key)) keys).
Proof.
  induction keys as [|key keys IH]; [reflexivity|].
  cbn [for_each]. rewrite IH. reflexivity.
Qed.

Lemma normalize_settings_dict (p : PyDict.dict value) :
  normalize_settings (PDict p) =
  match declared_settings p with
  | Some s =>
      Ok (PDict (PyDict.set p "settings"
                   (PDict (map (fun key => (key, setting_or_default s key))
                               settings_keys))))
  | None => Raise AttributeError
  end.
Proof.
  unfold normalize_settings, declared_settings, Py.get_default, Py.get.
  cbn [bind].
  destruct (PyDict.get p "settings") as [[| | | | |s]|]; reflexivity.
Qed.

Lemma rewrite_nodes_frame (cm sm : PyDict.dict value)
    (p p' : PyDict.dict value) (k : string) :
  rewrite_nodes cm sm p = Ok p' -> k <> "nodes" ->
  PyDict.get p' k = PyDict.get p k.
Proof.
  unfold rewrite_nodes. intros H Hk.
  destruct (PyDict.get p "nodes") as [nodes|]; [|now injection H as <-].
  destruct (Py.iter nodes) as [elements|]; [|discriminate].
  cbn [bind] in H.
  destruct (for_each (rewrite_node cm sm) elements) as [rewritten|];
    [|discriminate].
  cbn [bind] in H. injection H as <-.
  destruct nodes; try reflexivity. now apply get_set_other.
Qed.








Example settings_of_sample :
  exists payload,
    rewrite RefJson.module (Some Sample.config) "development" [] [] Sample.w1
    = Ok payload
    /\ setting_of payload "executionTimeout" = Some (PInt 120)
    /\ setting_of payload "saveDataErrorExecution" = Some (PStr "all")
    /\ setting_of payload "timezone" = None.
Proof. eexists. vm_compute. repeat split. Qed.

(** ** The payload *)




Example timezone_dropped :
  setting_of Sample.w1 "timezone" = Some (PStr "Europe/Vienna")
  /\ setting_of Sample.w1_payload "timezone" = None.
Proof. split; reflexivity. Qed.

(** ** Credential matching *)

Lemma lower_char_space (c : ascii) :
  Ascii.eqb (PyStr.lower_char c) PyStr.space = Ascii.eqb c PyStr.space.
Proof.
  destruct c as [[] [] [] [] [] [] [] []]; vm_compute; reflexivity.
Qed.

Lemma prefix_char (a c : ascii) (s : string) :
  String.prefix (String a EmptyString) (String c s) = Ascii.eqb a c.
Proof.
  simpl. destruct (ascii_dec a c) as [->|Hne].
  - rewrite Ascii.eqb_refl. now destruct s.
  - symmetry. now apply Ascii.eqb_neq.
Qed.

Lemma contains_char_cons (a c : ascii) (s : string) :
  PyStr.contains (String a EmptyString) (String c s) =
  Ascii.eqb a c || PyStr.contains (String a EmptyString) s.
Proof. rewrite contains_cons, prefix_char. reflexivity. Qed.

Lemma contains_char_nil (a : ascii) :
  PyStr.contains (String a EmptyString) EmptyString = false.
Proof. reflexivity. Qed.

Lemma contains_space_lower (s : string) :
  PyStr.contains " " (PyStr.lower s) = PyStr.contains " " s.
Proof.
  induction s as [|c s IH]; [reflexivity|].
  cbn [PyStr.lower]. rewrite !contains_char_cons, IH. f_equal.
  rewrite (Ascii.eqb_sym _ (PyStr.lower_char c)), (Ascii.eqb_sym _ c).
  apply lower_char_space.
Qed.

Lemma split_first_no_space (s : string) :
  PyStr.contains " " (PyStr.split_first s) = false.
Proof.
  induction s as [|c s IH]; [reflexivity|].
  cbn [PyStr.split_first]. destruct (Ascii.eqb c PyStr.space) eqn:E;
    [reflexivity|].
  rewrite contains_char_cons, IH, Ascii.eqb_sym.
  change " "%char with PyStr.space. now rewrite E.
Qed.

(** What the matching compares has no space in it. *)
Lemma base_name_no_space (s : string) :
  PyStr.contains " " (base_name_of s) = false.
Proof.
  unfold base_name_of. destruct (PyStr.contains " " s) eqn:E;
    [apply split_first_no_space | exact E].
Qed.

Lemma replace_underscore_space (s : string) :
  PyStr.contains "_" s = true ->
  PyStr.contains " " (PyStr.replace "_" " " s) = true.
Proof.
  unfold PyStr.replace. induction s as [|c s IH]; [discriminate|].
  rewrite contains_char_cons. cbn [PyStr.replace_from]. rewrite prefix_char.
  destruct (Ascii.eqb "_" c) eqn:E; intros H.
  - change (" " ++ ?x)%string with (String " "%char x).
    cbn [append]. now rewrite contains_char_cons.
  - cbn [orb] in H. rewrite contains_char_cons. rewrite (IH H).
    apply orb_true_r.
Qed.

(** The second test of the matching loop, with underscores read as spaces,
    finds nothing the first test does not find: the name it is compared
    with was cut at its first space. *)
Lemma credential_matches_first_token (cred_key old_name : string) :
  credential_matches cred_key (base_name_of old_name) =
  String.eqb (PyStr.lower (base_name_of cred_key))
             (PyStr.lower (base_name_of old_name)).
Proof.
  unfold credential_matches.
  set (key := base_name_of cred_key). set (name := base_name_of old_name).
  destruct (String.eqb (PyStr.lower key) (PyStr.lower name)) eqn:E1;
    [reflexivity|].
  cbn [orb].
  destruct (PyStr.contains "_" key) eqn:Eu.
  - destruct (String.eqb (PyStr.lower (PyStr.replace "_" " " key))
                         (PyStr.lower name)) eqn:E2; [|reflexivity].
    apply String.eqb_eq in E2.
    pose proof (replace_underscore_space key Eu) as Hsp.
    rewrite <- contains_space_lower, E2, contains_space_lower in Hsp.
    unfold name in Hsp. now rewrite base_name_no_space in Hsp.
  - now rewrite (replace_absent "_" " " key Eu).
Qed.

(** C3, evaluated at its example.  A node credential declared as
    "My Postgres DB Prod" and a mapping key "my_postgres_db": the declared
    name is cut to "My", the key stays "my_postgres_db", none of the two
    tests holds, and the entry keeps the id it had. *)
Theorem credential_example_not_matched :
  base_name_of "My Postgres DB Prod" = "My"
  /\ base_name_of "my_postgres_db" = "my_postgres_db"
  /\ credential_matches "my_postgres_db" (base_name_of "My Postgres DB Prod")
     = false
  /\ find_credential Sample.postgres_mapping (base_name_of "My Postgres DB Prod")
     = None
  /\ resolve_credential Sample.postgres_mapping Sample.postgres_entry
     = Ok Sample.postgres_entry
  /\ rewrite_node Sample.postgres_mapping [] Sample.postgres_node
     = Ok Sample.postgres_node.
Proof. vm_compute. repeat split; reflexivity. Qed.

(** ** Sub-workflow references *)

Lemma set_same {V : Type} (d : PyDict.dict V) (k : string) (v : V) :
  PyDict.get d k = Some v -> PyDict.set d k v = d.
Proof.
  induction d as [|[k' v'] d IH]; simpl; [discriminate|].
  destruct (String.eqb k' k) eqn:E.
  - now intros [= ->].
  - intros H. now rewrite IH.
Qed.

Lemma get_Some_mem {V : Type} (d : PyDict.dict V) (k : string) (v : V) :
  PyDict.get d k = Some v -> PyDict.mem k d = true.
Proof.
  intros H. apply mem_In. apply get_In in H.
  change k with (fst (k, v)). now apply in_map.
Qed.

Lemma mem_false_get {V : Type} (d : PyDict.dict V) (k : string) :
  PyDict.mem k d = false -> PyDict.get d k = None.
Proof. intros H. now apply get_None, mem_false. Qed.

Lemma resolve_credentials_frame (cm : PyDict.dict value)
    (n n1 : PyDict.dict value) (k : string) :
  resolve_credentials cm n = Ok n1 -> k <> "credentials" ->
  PyDict.get n1 k = PyDict.get n k.
Proof.
  unfold resolve_credentials. intros H Hk.
  destruct (PyDict.get n "credentials") as [[| | | | |credentials]|];
    try discriminate; [|now injection H as <-].
  destruct (for_each _ credentials) as [resolved|]; [|discriminate].
  cbn [bind] in H. injection H as <-. now apply get_set_other.
Qed.

(** The loop body on a dictionary node: credentials first, which leaves the
    other keys alone, then the reference. *)
Lemma rewrite_node_dict (cm sm : PyDict.dict value) (n : PyDict.dict value)
    (node' : value) :
  rewrite_node cm sm (PDict n) = Ok node' ->
  exists n1 n',
    (forall k, k <> "credentials" -> PyDict.get n1 k = PyDict.get n k) /\
    remap_node sm n1 = Ok n' /\ node' = PDict n'.
Proof.
  unfold rewrite_node. cbn [Py.str_in bind]. intros H.
  destruct (PyDict.mem "credentials" n).
  - destruct (resolve_credentials cm n) as [n1|] eqn:E; [|discriminate].
    cbn [bind] in H. destruct (remap_node sm n1) as [n'|] eqn:E'; [|discriminate].
    cbn [bind] in H. injection H as <-. exists n1, n'. split; [|now split].
    intros k Hk. now apply (resolve_credentials_frame cm n n1).
  - cbn [bind] in H. destruct (remap_node sm n) as [n'|] eqn:E'; [|discriminate].
    cbn [bind] in H. injection H as <-. exists n, n'. now split.
Qed.



















(** ** The resource ledger *)

Lemma mem_get_Some {V : Type} (d : PyDict.dict V) (k : string) :
  PyDict.mem k d = true -> exists v, PyDict.get d k = Some v.
Proof.
  intros H. destruct (PyDict.get d k) as [v|] eqn:E; [now exists v|].
  apply get_None, mem_false in E. congruence.
Qed.

(** What [save_resource_mapping] writes, seen through
    [get_instance_resources]. *)
Lemma record_in_spec (u t : string) (id name : value) (f : storage) (m : ledger) :
  record_in u t id name f = Ok m ->
  exists resources key,
    PyDict.get (get_instance_resources u f) t = Some resources
    /\ ledger_key id = Ok key
    /\ get_instance_resources u (Stored m)
       = PyDict.set (get_instance_resources u f) t (PyDict.set resources key name)
    /\ forall u', u' <> u ->
         get_instance_resources u' (Stored m) = get_instance_resources u' f.
Proof.
  unfold record_in. intros H.
  assert (Hgen : forall m0 : ledger,
    (forall u', get_instance_resources u' (Stored m0) = get_instance_resources u' f) ->
    (let mappings := if PyDict.mem u m0 then m0
                     else PyDict.set m0 u empty_instance in
     instance <- dict_item mappings u ;;
     resources <- dict_item instance t ;;
     key <- ledger_key id ;;
     Ok (PyDict.set mappings u
           (PyDict.set instance t (PyDict.set resources key name)))) = Ok m ->
    exists resources key,
      PyDict.get (get_instance_resources u f) t = Some resources
      /\ ledger_key id = Ok key
      /\ get_instance_resources u (Stored m)
         = PyDict.set (get_instance_resources u f) t (PyDict.set resources key name)
      /\ forall u', u' <> u ->
           get_instance_resources u' (Stored m) = get_instance_resources u' f).
  { intros m0 Hm0 Hrun. cbv zeta in Hrun.
    set (mappings := if PyDict.mem u m0 then m0
                     else PyDict.set m0 u empty_instance) in *.
    assert (Hinst : PyDict.get mappings u = Some (get_instance_resources u f)).
    { rewrite <- Hm0. unfold mappings, get_instance_resources.
      destruct (PyDict.mem u m0) eqn:Em.
      - destruct (mem_get_Some m0 u Em) as (inst & ->). reflexivity.
      - rewrite get_set_same, (mem_false_get m0 u Em). reflexivity. }
    assert (Hother : forall u', u' <> u ->
                       PyDict.get mappings u' = PyDict.get m0 u').
    { intros u' Hne. unfold mappings. destruct (PyDict.mem u m0);
        [reflexivity | now apply get_set_other]. }
    unfold dict_item in Hrun. rewrite Hinst in Hrun. cbn [bind] in Hrun.
    destruct (PyDict.get (get_instance_resources u f) t) as [resources|] eqn:Er;
      [|discriminate].
    cbn [bind] in Hrun. destruct (ledger_key id) as [key|]; [|discriminate].
    cbn [bind] in Hrun. injection Hrun as <-.
    exists resources, key. split; [reflexivity|]. split; [reflexivity|]. split.
    - unfold get_instance_resources at 1. now rewrite get_set_same.
    - intros u' Hne. rewrite <- (Hm0 u'). unfold get_instance_resources at 1 3.
      rewrite get_set_other by assumption. now rewrite Hother. }
  destruct f as [| |m0]; [|discriminate|]; cbn [bind] in H.
  - apply (Hgen []); [reflexivity | exact H].
  - apply (Hgen m0); [reflexivity | exact H].
Qed.

(** What [remove_resource_mapping] writes. *)
Lemma forget_in_spec (u t i : string) (f : storage) (m : ledger) :
  forget_in u t i f = Some m ->
  exists resources,
    PyDict.get (get_instance_resources u f) t = Some resources
    /\ PyDict.mem i resources = true
    /\ get_instance_resources u (Stored m)
       = PyDict.set (get_instance_resources u f) t (PyDict.del resources i)
    /\ forall u', u' <> u ->
         get_instance_resources u' (Stored m) = get_instance_resources u' f.
Proof.
  unfold forget_in. intros H. destruct f as [| |m0]; try discriminate.
  destruct (PyDict.get m0 u) as [instance|] eqn:Ei; [|discriminate].
  destruct (PyDict.get instance t) as [resources|] eqn:Er; [|discriminate].
  destruct (PyDict.mem i resources) eqn:Em; [|discriminate].
  injection H as <-. exists resources. unfold get_instance_resources.
  rewrite Ei, get_set_same. repeat split; try assumption.
  intros u' Hne. now rewrite get_set_other.
Qed.

Lemma empty_instance_get (t : string) (resources : PyDict.dict value) :
  PyDict.get empty_instance t = Some resources -> resources = [].
Proof.
  unfold empty_instance. simpl. intros H.
  repeat match type of H with
         | (if ?c then _ else _) = _ => destruct c; [now injection H as <-|]
         end.
  discriminate.
Qed.

(** [forget] when there is nothing to forget writes nothing. *)
Lemma forget_in_None (u t i : string) (f : storage) :
  forget_in u t i f = None ->
  match PyDict.get (get_instance_resources u f) t with
  | Some resources => PyDict.get resources i = None
  | None => True
  end.
Proof.
  assert (Hempty : match PyDict.get empty_instance t with
                   | Some resources => PyDict.get resources i = None
                   | None => True
                   end).
  { destruct (PyDict.get empty_instance t) as [r|] eqn:E; [|exact I].
    now rewrite (empty_instance_get t r E). }
  unfold forget_in, get_instance_resources. intros H.
  destruct f as [| |mappings]; try exact Hempty.
  destruct (PyDict.get mappings u) as [instance|]; [|exact Hempty].
  destruct (PyDict.get instance t) as [resources|]; [|exact I].
  destruct (PyDict.mem i resources) eqn:Em; [discriminate|].
  now apply mem_false_get.
Qed.

Section Store.
Implicit Types (w : world) (u t i : string).

Lemma file_save u t (id name : value) w :
file (save_resource_mapping u t id name w) =
match record_in u t id name (file w) with
| Ok m => Stored m
| Raise _ => file w
end.
Proof.
unfold save_resource_mapping.
now destruct (record_in u t id name (file w)).
Qed.

Lemma file_remove u t i w :
file (remove_resource_mapping u t i w) =
match forget_in u t i (file w) with
| Some m => Stored m
| None => file w
end.
Proof.
unfold remove_resource_mapping. now destruct (forget_in u t i (file w)).
Qed.

(** After [forget], the id is not reported. *)
Lemma tracked_after_forget u t i w :
tracked u t i (remove_resource_mapping u t i w) = None.
Proof.
unfold tracked, list_for. rewrite file_remove.
destruct (forget_in u t i (file w)) as [m|] eqn:E.
- destruct (forget_in_spec u t i (file w) m E) as (resources & _ & _ & -> & _).
rewrite get_set_same. apply get_del_same.
- pose proof (forget_in_None u t i (file w) E) as H.
now destruct (PyDict.get (get_instance_resources u (file w)) t).
Qed.

(** One operation reports nothing that was not reported before, except what
it records. *)
Lemma tracked_step (op : store_op) u t i (n : value) w :
tracked u t i (apply_op op w) = Some n ->
tracked u t i w = Some n
\/ exists id, op = RecordOp u t id n /\ ledger_key id = Ok i.
Proof.
unfold tracked, list_for. destruct op as [u' t' id name | u' t' i']; cbn [apply_op].
- rewrite file_save.
destruct (record_in u' t' id name (file w)) as [m|] eqn:E; [|now left].
destruct (record_in_spec u' t' id name (file w) m E)
as (resources & key & Hres & Hkey & Hsame & Hother).
destruct (String.eqb_spec u u') as [->|Hu]; [|rewrite Hother by assumption; now left].
rewrite Hsame.
destruct (String.eqb_spec t t') as [->|Ht];
[|rewrite get_set_other by assumption; now left].
rewrite get_set_same, Hres.
destruct (String.eqb_spec i key) as [->|Hi];
[|rewrite get_set_other by assumption; now left].
rewrite get_set_same. intros [= <-]. right. now exists id.
- rewrite file_remove.
destruct (forget_in u' t' i' (file w)) as [m|] eqn:E; [|now left].
destruct (forget_in_spec u' t' i' (file w) m E)
as (resources & Hres & _ & Hsame & Hother).
destruct (String.eqb_spec u u') as [->|Hu]; [|rewrite Hother by assumption; now left].
rewrite Hsame.
destruct (String.eqb_spec t t') as [->|Ht];
[|rewrite get_set_other by assumption; now left].
rewrite get_set_same, Hres.
destruct (String.eqb_spec i i') as [->|Hi];
[now rewrite get_del_same | rewrite get_del_other by assumption; now left].
Qed.

Lemma tracked_run (ops : list store_op) : forall w u t i (n : value),
tracked u t i (run_ops ops w) = Some n ->
tracked u t i w = Some n
\/ exists id, In (RecordOp u t id n) ops /\ ledger_key id = Ok i.
Proof.
induction ops as [|op ops IH]; intros w u t i n H; [now left|].
cbn [run_ops fold_left] in H. apply IH in H. destruct H as [H|(id & Hin & Hk)].
- apply tracked_step in H. destruct H as [H|(id & -> & Hk)]; [now left|].
right. exists id. split; [now left | assumption].
- right. exists id. split; [now right | assumption].
Qed.

(** An operation against another instance changes nothing for this one;
neither does a [forget] on an instance that has nothing. *)
Lemma list_for_step (op : store_op) u w :
(forall t id n, op <> RecordOp u t id n) ->
list_for u w = empty_instance ->
list_for u (apply_op op w) = empty_instance.
Proof.
unfold list_for. intros Hop Hempty.
destruct op as [u' t' id name | u' t' i']; cbn [apply_op].
- rewrite file_save.
destruct (record_in u' t' id name (file w)) as [m|] eqn:E; [|assumption].
destruct (record_in_spec u' t' id name (file w) m E) as (_ & _ & _ & _ & _ & Hother).
rewrite Hother; [assumption|]. intros ->. now apply (Hop t' id name).
- rewrite file_remove.
destruct (forget_in u' t' i' (file w)) as [m|] eqn:E; [|assumption].
destruct (forget_in_spec u' t' i' (file w) m E)
as (resources & Hres & Hmem & _ & Hother).
destruct (String.eqb_spec u u') as [->|Hu]; [|now rewrite Hother].
exfalso. rewrite Hempty in Hres.
apply empty_instance_get in Hres. subst resources. discriminate.
Qed.

Lemma list_for_run (ops : list store_op) : forall u w,
(forall t id n, ~ In (RecordOp u t id n) ops) ->
list_for u w = empty_instance ->
list_for u (run_ops ops w) = empty_instance.
Proof.
induction ops as [|op ops IH]; intros u w Hops Hw; [assumption|].
cbn [run_ops fold_left]. apply IH.
- intros t id n Hin. apply (Hops t id n). now right.
- apply list_for_step; [|assumption].
intros t id n ->. apply (Hops t id n). now left.
Qed.

(** Every instance has its three sub-maps, whatever was done. *)
Lemma keys_step (op : store_op) u w :
PyDict.keys (list_for u w) = resource_types ->
PyDict.keys (list_for u (apply_op op w)) = resource_types.
Proof.
unfold list_for. intros Hkeys.
destruct op as [u' t' id name | u' t' i']; cbn [apply_op].
- rewrite file_save.
destruct (record_in u' t' id name (file w)) as [m|] eqn:E; [|assumption].
destruct (record_in_spec u' t' id name (file w) m E)
as (resources & key & Hres & _ & Hsame & Hother).
destruct (String.eqb_spec u u') as [->|Hu]; [|now rewrite Hother].
rewrite Hsame, keys_set, (get_Some_mem _ _ _ Hres). assumption.
- rewrite file_remove.
destruct (forget_in u' t' i' (file w)) as [m|] eqn:E; [|assumption].
destruct (forget_in_spec u' t' i' (file w) m E)
as (resources & Hres & _ & Hsame & Hother).
destruct (String.eqb_spec u u') as [->|Hu]; [|now rewrite Hother].
rewrite Hsame, keys_set, (get_Some_mem _ _ _ Hres). assumption.
Qed.

Lemma keys_run (ops : list store_op) : forall u w,
PyDict.keys (list_for u w) = resource_types ->
PyDict.keys (list_for u (run_ops ops w)) = resource_types.
Proof.
induction ops as [|op ops IH]; intros u w H; [assumption|].
cbn [run_ops fold_left]. apply IH. now apply keys_step.
Qed.

Lemma run_ops_app (ops1 ops2 : list store_op) w :
run_ops (ops1 ++ ops2) w = run_ops ops2 (run_ops ops1 w).
Proof. unfold run_ops. apply fold_left_app. Qed.
End Store.

(** [save_resource_mapping] succeeds on a readable document whenever the
    resource type is one of the instance's sub-maps and the id can be a key. *)
Lemma record_in_ok (u t : string) (id name : value) (f : storage)
    (resources : PyDict.dict value) (key : string) :
  f <> Unreadable ->
  PyDict.get (get_instance_resources u f) t = Some resources ->
  ledger_key id = Ok key ->
  exists m, record_in u t id name f = Ok m.
Proof.
  intros Hf Hres Hkey. unfold record_in.
  assert (Hgen : forall m0 : ledger,
    get_instance_resources u (Stored m0) = get_instance_resources u f ->
    exists m,
      (let mappings := if PyDict.mem u m0 then m0
                       else PyDict.set m0 u empty_instance in
       instance <- dict_item mappings u ;;
       resources <- dict_item instance t ;;
       key <- ledger_key id ;;
       Ok (PyDict.set mappings u
             (PyDict.set instance t (PyDict.set resources key name)))) = Ok m).
  { intros m0 Hm0. cbv zeta.
    set (mappings := if PyDict.mem u m0 then m0
                     else PyDict.set m0 u empty_instance).
    assert (Hinst : PyDict.get mappings u = Some (get_instance_resources u f)).
    { rewrite <- Hm0. unfold mappings, get_instance_resources.
      destruct (PyDict.mem u m0) eqn:Em.
      - destruct (mem_get_Some m0 u Em) as (inst & ->). reflexivity.
      - rewrite get_set_same, (mem_false_get m0 u Em). reflexivity. }
    unfold dict_item. rewrite Hinst. cbn [bind]. rewrite Hres. cbn [bind].
    rewrite Hkey. cbn [bind]. eexists. reflexivity. }
  destruct f as [| |m0]; [|congruence|]; cbn [bind].
  - apply (Hgen []). reflexivity.
  - apply (Hgen m0). reflexivity.
Qed.

Lemma readable_step (op : store_op) (w : world) :
  file w <> Unreadable -> file (apply_op op w) <> Unreadable.
Proof.
  intros H. destruct op as [u t id name | u t i]; cbn [apply_op].
  - rewrite file_save. now destruct (record_in u t id name (file w)).
  - rewrite file_remove. now destruct (forget_in u t i (file w)).
Qed.

Lemma readable_run (ops : list store_op) : forall w,
  file w <> Unreadable -> file (run_ops ops w) <> Unreadable.
Proof.
  induction ops as [|op ops IH]; intros w H; [assumption|].
  cbn [run_ops fold_left]. apply IH. now apply readable_step.
Qed.

Lemma resource_type_get (d : PyDict.dict (PyDict.dict value)) (t : string) :
  PyDict.keys d = resource_types -> In t resource_types ->
  exists resources, PyDict.get d t = Some resources.
Proof.
  intros Hkeys Hin. apply mem_get_Some, mem_In. now rewrite Hkeys.
Qed.

(** After [record], the id is reported with the recorded name. *)
Lemma tracked_after_record (u t : string) (id name : value) (i : string) (w : world) :
  file w <> Unreadable ->
  PyDict.keys (list_for u w) = resource_types ->
  In t resource_types ->
  ledger_key id = Ok i ->
  tracked u t i (save_resource_mapping u t id name w) = Some name.
Proof.
  intros Hf Hkeys Ht Hid.
  destruct (resource_type_get _ t Hkeys Ht) as (resources & Hres).
  destruct (record_in_ok u t id name (file w) resources i Hf Hres Hid) as (m & Hm).
  unfold tracked, list_for. rewrite file_save, Hm.
  destruct (record_in_spec u t id name (file w) m Hm)
    as (resources' & key & Hres' & Hkey & -> & _).
  rewrite get_set_same. rewrite Hid in Hkey. injection Hkey as <-.
  apply get_set_same.
Qed.

(** C9 — Resource Mapping Store.  Start from an absent or an empty document
    and run any sequence of [record] ([save_resource_mapping]) and [forget]
    ([remove_resource_mapping]) operations.  Then
    - whatever [listFor u] ([get_instance_resources]) reports under a type was
      recorded, by one of the operations, against that same instance [u],
      under that type, with that id and name;
    - a further [record] of [(u, t, id)] makes [listFor u] report the id, and
      a [forget] of the same [(u, t, id)] after it makes [listFor u] no longer
      include it;
    - [listFor] on an instance nothing was recorded against yields the empty
      workflows/credentials/projects sub-maps;
    - [listFor] always has exactly these three sub-maps. *)
Theorem resource_mapping_store (ops : list store_op) (start : world) :
  file start = Absent \/ file start = Stored [] ->
  let w := run_ops ops start in
  (forall u t i n,
      tracked u t i w = Some n ->
      exists id, In (RecordOp u t id n) ops /\ ledger_key id = Ok i)
  /\ (forall u t id n i,
        In t resource_types -> ledger_key id = Ok i ->
        tracked u t i (run_ops [RecordOp u t id n] w) = Some n
        /\ tracked u t i (run_ops [RecordOp u t id n; ForgetOp u t i] w) = None)
  /\ (forall u,
        (forall t id n, ~ In (RecordOp u t id n) ops) ->
        list_for u w = empty_instance)
  /\ (forall u, PyDict.keys (list_for u w) = resource_types).
Proof.
  intros Hstart w.
  assert (Hempty : forall u, list_for u start = empty_instance).
  { intros u. unfold list_for. now destruct Hstart as [-> | ->]. }
  assert (Hreadable : file start <> Unreadable).
  { now destruct Hstart as [-> | ->]. }
  assert (Hkeys : forall u, PyDict.keys (list_for u w) = resource_types).
  { intros u. apply keys_run. now rewrite Hempty. }
  split; [|split; [|split]].
  - intros u t i n H. apply tracked_run in H. destruct H as [H|H]; [|exact H].
    unfold tracked in H. rewrite Hempty in H.
    destruct (PyDict.get empty_instance t) as [r|] eqn:E; [|discriminate].
    apply empty_instance_get in E. subst r. discriminate.
  - intros u t id n i Ht Hid. split.
    + apply tracked_after_record; auto. now apply readable_run.
    + apply tracked_after_forget.
  - intros u Hops. apply list_for_run; auto.
  - exact Hkeys.
Qed.

(** The theorem at a concrete run: two instances, an integer id, and a
    forget. *)
Lemma resource_mapping_store_witness :
  let ops := [RecordOp "https://a" "workflows" (PStr "N1") (PStr "Main");
              RecordOp "https://b" "credentials" (PInt 7) (PStr "Postgres Dev");
              ForgetOp "https://a" "workflows" "N1";
              RecordOp "https://a" "workflows" (PStr "N2") (PStr "Helper")] in
  let w := run_ops ops {| file := Absent; log := [] |} in
  tracked "https://a" "workflows" "N2" w = Some (PStr "Helper")
  /\ tracked "https://a" "workflows" "N1" w = None
  /\ tracked "https://a" "credentials" "7" w = None
  /\ (forall n, tracked "https://b" "credentials" "7" w = Some n ->
        exists id, In (RecordOp "https://b" "credentials" id n) ops
                   /\ ledger_key id = Ok "7")
  /\ list_for "https://c" w = empty_instance.
Proof.
  intros ops w.
  pose proof (resource_mapping_store ops {| file := Absent; log := [] |}
                (or_introl eq_refl)) as (Honly & _ & Hnone & _).
  split; [reflexivity|]. split; [reflexivity|]. split; [reflexivity|]. split.
  - intros n. apply (Honly "https://b" "credentials" "7" n).
  - apply (Hnone "https://c"). intros t id n Hin. simpl in Hin.
    repeat (destruct Hin as [Hin|Hin]; [discriminate|]). exact Hin.
Defined.

(** ** Creating a workflow: transfer and rollback *)

Lemma requests_of_app (l1 l2 : list event) :
  requests_of (l1 ++ l2) = requests_of l1 ++ requests_of l2.
Proof. unfold requests_of. apply flat_map_app. Qed.

Section CreateWorkflow.
Variables (remote : transport) (json : json_module) (url : string).
Variables (creds_file : option creds_config) (workflow_data project_id : value).
Variables (credential_mapping sf_id_mapping : PyDict.dict value).
Variables (env_type : string) (w : world).
Variables (payload workflow_id : value) (created : response).

Let name : value :=
match Py.item payload "name" with Ok n => n | Raise _ => PNone end.

Let create_request : request :=
{| method := POST; base_url := url; target := Workflows;
 body := Some payload |}.

Let transfer_request : request :=
{| method := PUT; base_url := url; target := TransferOf workflow_id;
 body := Some (PDict [("destinationProjectId", project_id)]) |}.

Let delete_request : request :=
{| method := DELETE; base_url := url; target := WorkflowAt workflow_id;
 body := None |}.

Hypothesis rewritten :
rewrite json creds_file env_type credential_mapping sf_id_mapping
workflow_data = Ok payload.
Hypothesis creation : remote (requests_of (log w)) create_request = Ok created.
Hypothesis creation_status : status_code created = 200%Z.
Hypothesis creation_id :
(reply <- body_json created ;; Py.get reply "id") = Ok (Some workflow_id).

Let after_creation : list request := requests_of (log w) ++ [create_request].

(** Up to the transfer, [create_workflow] on a project-supporting target. *)
Lemma create_workflow_to_transfer :
create_workflow remote json url creds_file workflow_data project_id
credential_mapping sf_id_mapping env_type true w
= let w1 := {| file := file w;
 log := log w ++ [Sent create_request (Ok created)] |} in
let transfer_reply := remote after_creation transfer_request in
let w2 := {| file := file w;
 log := log w1 ++ [Sent transfer_request transfer_reply] |} in
match transfer_reply with
| Raise _ => (Ok PNone, w2)
| Ok tr =>
if Z.eqb (status_code tr) 200 || Z.eqb (status_code tr) 204
then (Ok workflow_id,
save_resource_mapping url "workflows" workflow_id name w2)
else
match (if has_text tr then body_json tr
 else Ok (PStr "No error details available")) with
| Raise _ => (Ok PNone, w2)
| Ok _ =>
(Ok PNone,
 {| file := file w;
log := log w2 ++
 [Sent delete_request
(remote (after_creation ++ [transfer_request])
delete_request)] |})
end
end.
Proof.
unfold create_workflow. rewrite rewritten. unfold send.
fold create_request. rewrite creation, creation_status.
cbn [negb Z.eqb Pos.eqb]. rewrite creation_id.
cbn [log file]. rewrite requests_of_app. cbn [requests_of flat_map app].
fold after_creation. fold transfer_request.
destruct (remote after_creation transfer_request) as [tr|e]; [|reflexivity].
destruct (Z.eqb (status_code tr) 200 || Z.eqb (status_code tr) 204);
[reflexivity|].
destruct (if has_text tr then body_json tr
else Ok (PStr "No error details available")); [|reflexivity].
cbn [log file]. rewrite !requests_of_app. cbn [requests_of flat_map app].
reflexivity.
Qed.

(** A failed transfer whose body can be read: the workflow is deleted again
and nothing is written to the ledger. *)
Lemma transfer_failure_rollback (tr : response) :
remote after_creation transfer_request = Ok tr ->
status_code tr <> 200%Z -> status_code tr <> 204%Z ->
(has_text tr = false \/ exists detail, body_json tr = Ok detail) ->
exists reply,
create_workflow remote json url creds_file workflow_data project_id
credential_mapping sf_id_mapping env_type true w
= (Ok PNone,
 {| file := file w;
log := log w ++ [Sent create_request (Ok created);
 Sent transfer_request (Ok tr);
 Sent delete_request reply] |}).
Proof.
intros Htr H200 H204 Hbody. rewrite create_workflow_to_transfer.
cbv zeta. rewrite Htr.
apply Z.eqb_neq in H200, H204. rewrite H200, H204. cbn [orb].
exists (remote (after_creation ++ [transfer_request]) delete_request).
cbn [log]. rewrite <- !app_assoc. cbn [app].
destruct Hbody as [-> | (detail & Hdetail)]; [reflexivity|].
rewrite Hdetail. now destruct (has_text tr).
Qed.

(** A transfer request that raises: nothing is deleted. *)
Lemma transfer_raises_without_rollback (e : exn) :
remote after_creation transfer_request = Raise e ->
create_workflow remote json url creds_file workflow_data project_id
credential_mapping sf_id_mapping env_type true w
= (Ok PNone,
 {| file := file w;
log := log w ++ [Sent create_request (Ok created);
 Sent transfer_request (Raise e)] |}).
Proof.
intros Htr. rewrite create_workflow_to_transfer. cbv zeta. rewrite Htr.
cbn [log]. now rewrite <- !app_assoc.
Qed.

(** The ledger record of a created workflow: written exactly when the
creation answered 200 and the transfer answered 200 or 204. *)
Lemma transfer_success_recorded (tr : response) :
remote after_creation transfer_request = Ok tr ->
(status_code tr = 200%Z \/ status_code tr = 204%Z) ->
create_workflow remote json url creds_file workflow_data project_id
credential_mapping sf_id_mapping env_type true w
= (Ok workflow_id,
 save_resource_mapping url "workflows" workflow_id name
 {| file := file w;
log := log w ++ [Sent create_request (Ok created);
 Sent transfer_request (Ok tr)] |}).
Proof.
intros Htr Hstatus. rewrite create_workflow_to_transfer. cbv zeta. rewrite Htr.
assert (Z.eqb (status_code tr) 200 || Z.eqb (status_code tr) 204 = true) as ->.
{ destruct Hstatus as [-> | ->]; reflexivity. }
cbn [log]. now rewrite <- !app_assoc.
Qed.

(** C5 — transfer failure.  On a project-supporting target, when the
creation has succeeded and the transfer answers with a failure status
(neither 200 nor 204) and a non-empty body that is not JSON,
[create_workflow] reports the failure (returns [None]) and writes no
ledger record, but it does NOT delete the just-created workflow: the
requests it sends are the creation and the transfer, and no DELETE. *)
Theorem transfer_failure_not_rolled_back (tr : response) (e : exn) :
remote after_creation transfer_request = Ok tr ->
status_code tr <> 200%Z -> status_code tr <> 204%Z ->
has_text tr = true -> body_json tr = Raise e ->
let outcome :=
create_workflow remote json url creds_file workflow_data project_id
credential_mapping sf_id_mapping env_type true w in
fst outcome = Ok PNone
/\ file (snd outcome) = file w
/\ log (snd outcome) = log w ++ [Sent create_request (Ok created);
 Sent transfer_request (Ok tr)]
/\ requests_of (log (snd outcome))
 = requests_of (log w) ++ [create_request; transfer_request].
Proof.
intros Htr H200 H204 Htext Hbody outcome. subst outcome.
rewrite create_workflow_to_transfer. cbv zeta. rewrite Htr.
apply Z.eqb_neq in H200, H204. rewrite H200, H204. cbn [orb].
rewrite Htext, Hbody. cbn [fst snd file log].
rewrite <- !app_assoc. cbn [app].
repeat split. now rewrite requests_of_app.
Qed.
End CreateWorkflow.

(** The theorem on the sample platform behind the gateway: [W1] is created
as [N1], the transfer answers 502 with a body that is not JSON, and [N1]
stays on the platform. *)
Lemma transfer_failure_not_rolled_back_witness :
let outcome :=
  create_workflow Sample.gateway_remote RefJson.module Sample.instance_url
    (Some Sample.config) Sample.w1 (PStr "P1") [] [] "development" true
    Sample.fresh in
fst outcome = Ok PNone
/\ file (snd outcome) = Absent
/\ map (fun r => (method r, target r)) (requests_of (log (snd outcome)))
   = [(POST, Workflows); (PUT, TransferOf (PStr "N1"))].
Proof.
destruct (transfer_failure_not_rolled_back
            Sample.gateway_remote RefJson.module Sample.instance_url
            (Some Sample.config) Sample.w1 (PStr "P1") [] [] "development"
            Sample.fresh Sample.w1_payload (PStr "N1")
            {| status_code := 200; has_text := true;
               body_json := Ok (PDict [("id", PStr "N1")]) |}
            eq_refl eq_refl eq_refl eq_refl
            {| status_code := 502; has_text := true;
               body_json := Raise JSONDecodeError |}
            JSONDecodeError eq_refl
            ltac:(discriminate) ltac:(discriminate) eq_refl eq_refl)
  as (Hreturned & Hfile & _ & Hrequests).
intros outcome. split; [exact Hreturned|]. split; [exact Hfile|].
subst outcome. rewrite Hrequests. reflexivity.
Defined.

(** ** Cleanup *)

Section Cleanup.
Variables (remote : transport) (url : string).

(** One deletion: what it adds to the log. *)
Lemma delete_then_forget_trace (d : tracked_resource) (w : world) :
exists trace,
log (snd (delete_then_forget remote url (resource_endpoint d)
(resource_type d) (resource_id d) w)) = log w ++ trace
/\ delete_trace url d trace.
Proof.
unfold delete_then_forget, send. fold (deletion url (resource_endpoint d)).
destruct (remote (requests_of (log w)) (deletion url (resource_endpoint d)))
as [r|e] eqn:E.
- destruct (Z.eqb_spec (status_code r) 200) as [H200|H200].
+ cbn [snd]. unfold remove_resource_mapping. cbn [file log].
destruct (forget_in url (resource_type d) (resource_id d) (file w)).
* cbn [log]. rewrite <- app_assoc. eexists. split; [reflexivity|].
now apply trace_removed.
* cbn [log]. eexists. split; [reflexivity|]. apply trace_kept.
+ cbn [snd log]. eexists. split; [reflexivity|]. apply trace_kept.
- cbn [snd log]. eexists. split; [reflexivity|]. apply trace_kept.
Qed.

(** A loop of deletions: one trace for each id, in the order of the ids. *)
Lemma delete_each_traces (delete : string -> world -> result unit * world)
(resource : string -> tracked_resource) :
(forall id w, exists trace,
log (snd (delete id w)) = log w ++ trace
/\ delete_trace url (resource id) trace) ->
forall ids w, exists traces,
log (snd (delete_each delete ids w)) = log w ++ concat traces
/\ Forall2 (delete_trace url) (map resource ids) traces.
Proof.
intros Hdelete. induction ids as [|id ids IH]; intros w.
- exists []. cbn. now rewrite app_nil_r.
- cbn [delete_each map]. destruct (Hdelete id w) as (trace & Hlog & Htrace).
destruct (delete id w) as [r w1]. cbn [snd] in Hlog.
destruct (IH w1) as (traces & Hlogs & Htraces).
destruct (delete_each delete ids w1) as [[deleted failed] w2].
cbn [snd] in Hlogs. exists (trace :: traces). split.
+ cbn [concat]. rewrite app_assoc, <- Hlog, <- Hlogs. now destruct r.
+ now constructor.
Qed.

(** The counters of a loop of deletions add up to the number of ids. *)
Lemma delete_each_count (delete : string -> world -> result unit * world) :
forall ids w,
fst (fst (delete_each delete ids w)) + snd (fst (delete_each delete ids w))
= length ids.
Proof.
induction ids as [|id ids IH]; intros w; [reflexivity|].
cbn [delete_each length]. destruct (delete id w) as [r w1].
specialize (IH w1). destruct (delete_each delete ids w1) as [[deleted failed] w2].
cbn [fst snd] in IH. destruct r; cbn [fst snd]; lia.
Qed.

Lemma delete_credential_trace (id : string) (w : world) :
exists trace,
log (snd (delete_credential remote url id w)) = log w ++ trace
/\ delete_trace url (tracked_credential id) trace.
Proof. exact (delete_then_forget_trace (tracked_credential id) w). Qed.

Lemma delete_workflow_trace (id : string) (w : world) :
exists trace,
log (snd (delete_workflow remote url id w)) = log w ++ trace
/\ delete_trace url (tracked_workflow id) trace.
Proof. exact (delete_then_forget_trace (tracked_workflow id) w). Qed.

Lemma delete_project_trace (id : string) (w : world) :
exists trace,
log (snd (delete_project remote url id w)) = log w ++ trace
/\ delete_trace url (tracked_project id) trace.
Proof. exact (delete_then_forget_trace (tracked_project id) w). Qed.

(** The deletions, whatever their outcome: the counters add up to the
numbers of tracked ids, and the log has grown by one trace for each
resource of the plan, in the order of the plan. *)
Lemma cleanup_deletions_spec (p : project) (w : world)
(workflows credentials : PyDict.dict value) :
PyDict.get (get_instance_resources url (file w)) "workflows" = Some workflows ->
PyDict.get (get_instance_resources url (file w)) "credentials" = Some credentials ->
let result :=
cleanup_deletions remote url p (get_instance_resources url (file w))
workflows credentials w in
match fst result with
| Cancelled | NothingTracked => False
| Cleaned stats =>
credentials_deleted stats + credentials_failed stats
= length (PyDict.keys credentials)
/\ workflows_deleted stats + workflows_failed stats
 = length (PyDict.keys workflows)
| CleanupRaised _ => True
end
/\ exists traces,
 log (snd result) = log w ++ concat traces
 /\ Forall2 (delete_trace url) (cleanup_plan url p (file w)) traces.
Proof.
intros Hw Hc. unfold cleanup_deletions, cleanup_plan, tracked_ids.
rewrite Hw, Hc.
destruct (delete_each_traces (delete_credential remote url) tracked_credential
delete_credential_trace (PyDict.keys credentials) w)
as (traces1 & Hlog1 & Htraces1).
pose proof (delete_each_count (delete_credential remote url)
(PyDict.keys credentials) w) as Hcount1.
destruct (delete_each (delete_credential remote url) (PyDict.keys credentials) w)
as [[cd cf] w1].
destruct (delete_each_traces (delete_workflow remote url) tracked_workflow
delete_workflow_trace (PyDict.keys workflows) w1)
as (traces2 & Hlog2 & Htraces2).
pose proof (delete_each_count (delete_workflow remote url)
(PyDict.keys workflows) w1) as Hcount2.
destruct (delete_each (delete_workflow remote url) (PyDict.keys workflows) w1)
as [[wd wf] w2].
cbn [fst snd] in *. cbv zeta.
assert (Hloops : log w2 = log w ++ concat (traces1 ++ traces2)).
{ now rewrite concat_app, app_assoc, <- Hlog1. }
assert (Hnone : exists traces,
log w2 = log w ++ concat traces
/\ Forall2 (delete_trace url)
(map tracked_credential (PyDict.keys credentials)
 ++ map tracked_workflow (PyDict.keys workflows) ++ []) traces).
{ exists (traces1 ++ traces2). split; [assumption|].
rewrite app_nil_r. now apply Forall2_app. }
destruct (Py.truthy (project_id p)) eqn:Etruthy; cbn [andb].
- unfold dict_item.
destruct (PyDict.get (get_instance_resources url (file w)) "projects")
as [projects|].
+ destruct (project_id p) as [| | |id| |] eqn:Eid; cbn [Py.in_mapping fst snd];
try (split; [now split | exact Hnone]);
try (split; [exact I | exact Hnone]).
unfold PyDict.mem.
destruct (existsb (String.eqb id) (PyDict.keys projects));
[|split; [now split | exact Hnone]].
destruct (delete_project_trace id w2) as (trace & Hlog3 & Htrace3).
destruct (delete_project remote url id w2) as [r w3]. cbn [fst snd] in *.
split; [now split|].
exists (traces1 ++ traces2 ++ [trace]). split.
* rewrite Hlog3, Hloops, !concat_app. cbn [concat].
now rewrite app_nil_r, <- !app_assoc.
* apply Forall2_app; [assumption|]. apply Forall2_app; [assumption|].
now repeat constructor.
+ cbn [fst snd]. split; [exact I|].
destruct (project_id p); exact Hnone.
- cbn [fst snd]. split; [now split|]. destruct (project_id p); exact Hnone.
Qed.

(** C6, amended.  [perform_cleanup] does nothing unless the user typed [yes]
(in any case): nothing is sent and the ledger is as it was.  Nor does it
do anything when the ledger tracks neither a workflow nor a credential
for the instance, a tracked project included.  Otherwise it goes through
the resources the ledger tracks for the instance, and only these: the
tracked credentials first, then the tracked workflows, then the project
if its id is tracked; for each of them it sends the deletion request, and
the ledger entry is removed only behind an answer of status 200; the
counters it reports add up to the numbers of tracked credentials and
workflows.  When it raises it has either done nothing or gone through
the same deletions in the same order. *)
Theorem cleanup_order (p : project) (confirm : string) (w : world) :
let outcome := fst (perform_cleanup remote url p confirm w) in
let w' := snd (perform_cleanup remote url p confirm w) in
let nothing_tracked :=
tracked_ids url "credentials" (file w) = []
/\ tracked_ids url "workflows" (file w) = [] in
let planned_deletions :=
exists traces,
 log w' = log w ++ concat traces
 /\ Forall2 (delete_trace url) (cleanup_plan url p (file w)) traces in
match outcome with
| Cancelled => PyStr.lower confirm <> "yes" /\ w' = w
| NothingTracked => PyStr.lower confirm = "yes" /\ nothing_tracked /\ w' = w
| Cleaned stats =>
PyStr.lower confirm = "yes"
/\ ~ nothing_tracked
/\ credentials_deleted stats + credentials_failed stats
 = length (tracked_ids url "credentials" (file w))
/\ workflows_deleted stats + workflows_failed stats
 = length (tracked_ids url "workflows" (file w))
/\ planned_deletions
| CleanupRaised _ =>
PyStr.lower confirm = "yes" /\ (w' = w \/ (~ nothing_tracked /\ planned_deletions))
end
/\ (PyStr.lower confirm <> "yes" -> outcome = Cancelled /\ w' = w)
/\ (nothing_tracked -> w' = w /\ forall stats, outcome <> Cleaned stats)
/\ (PyStr.lower confirm = "yes" ->
PyDict.get (list_for url w) "workflows" = Some [] ->
PyDict.get (list_for url w) "credentials" = Some [] ->
outcome = NothingTracked /\ w' = w).
Proof.
unfold perform_cleanup, list_for.
destruct (String.eqb_spec (PyStr.lower confirm) "yes") as [Hyes|Hno];
cbn [negb fst snd].
2: { split; [now split|]. split; [now split|].
split; [intros _; split; [reflexivity|discriminate]|]. now intros Hyes. }
cbv zeta. unfold dict_item, tracked_ids.
destruct (PyDict.get (get_instance_resources url (file w)) "workflows")
as [workflows|] eqn:Hw.
2: { cbn [fst snd]. split; [split; [assumption|now left]|].
split; [now intros Hno|].
split; [intros _; split; [reflexivity|discriminate]|]. discriminate. }
destruct (PyDict.get (get_instance_resources url (file w)) "credentials")
as [credentials|] eqn:Hc.
2: { cbn [fst snd]. split; [split; [assumption|now left]|].
split; [now intros Hno|].
split; [intros _; split; [reflexivity|discriminate]|]. discriminate. }
assert (Hmain : ~ (PyDict.keys credentials = [] /\ PyDict.keys workflows = []) ->
let result :=
cleanup_deletions remote url p (get_instance_resources url (file w))
workflows credentials w in
match fst result with
| Cancelled => PyStr.lower confirm <> "yes" /\ snd result = w
| NothingTracked =>
PyStr.lower confirm = "yes"
/\ (PyDict.keys credentials = [] /\ PyDict.keys workflows = [])
/\ snd result = w
| Cleaned stats =>
PyStr.lower confirm = "yes"
/\ ~ (PyDict.keys credentials = [] /\ PyDict.keys workflows = [])
/\ credentials_deleted stats + credentials_failed stats
 = length (PyDict.keys credentials)
/\ workflows_deleted stats + workflows_failed stats
 = length (PyDict.keys workflows)
/\ exists traces,
 log (snd result) = log w ++ concat traces
 /\ Forall2 (delete_trace url) (cleanup_plan url p (file w)) traces
| CleanupRaised _ =>
PyStr.lower confirm = "yes"
/\ (snd result = w
\/ (~ (PyDict.keys credentials = [] /\ PyDict.keys workflows = [])
 /\ exists traces,
log (snd result) = log w ++ concat traces
/\ Forall2 (delete_trace url) (cleanup_plan url p (file w)) traces))
end
/\ (PyStr.lower confirm <> "yes" -> fst result = Cancelled /\ snd result = w)
/\ (PyDict.keys credentials = [] /\ PyDict.keys workflows = [] ->
snd result = w /\ forall stats, fst result <> Cleaned stats)
/\ (PyStr.lower confirm = "yes" ->
Some workflows = Some [] -> Some credentials = Some [] ->
fst result = NothingTracked /\ snd result = w)).
{ intros Hsome result.
pose proof (cleanup_deletions_spec p w workflows credentials Hw Hc) as Hspec.
fold result in Hspec. destruct Hspec as (Hfst & Htraces).
split; [|split; [now intros Hno|split; [now intros Hnone|]]].
- destruct (fst result) as [| |stats|e]; try contradiction.
+ destruct Hfst as (H1 & H2). now repeat split.
+ split; [assumption|]. right. now split.
- intros _ [= ->] [= ->]. exfalso. apply Hsome. now split. }
destruct workflows as [|kw workflows], credentials as [|kc credentials];
[|apply Hmain; cbn; intros [H1 H2]; discriminate ..].
cbn [fst snd PyDict.keys map]. now repeat split.
Qed.
End Cleanup.

(** A ledger that tracks the project alone: the confirmed cleanup returns
    before it sends anything, and the project stays tracked. *)
Lemma cleanup_order_witness :
  let w := run_ops [RecordOp Sample.instance_url "projects" (PStr "P1")
                             (PStr "Migration")] Sample.fresh in
  let result :=
    perform_cleanup Sample.remote Sample.instance_url Sample.the_project
                    "YES" w in
  tracked Sample.instance_url "projects" "P1" w = Some (PStr "Migration")
  /\ fst result = NothingTracked /\ snd result = w.
Proof.
  intros w result. split; [reflexivity|].
  pose proof (cleanup_order Sample.remote Sample.instance_url
                Sample.the_project "YES" w) as H.
  cbv zeta in H. destruct H as (_ & _ & _ & H).
  apply H; reflexivity.
Defined.

(** On a ledger that tracks the workflow [N1], the credential [C1] and the
    project [P1], a confirmed cleanup deletes the credential before the
    workflow: against the order the claim gives. *)
Lemma cleanup_credentials_before_workflows :
  let outcome :=
    perform_cleanup Sample.remote Sample.instance_url Sample.the_project "Yes"
      Sample.tracked_world in
  map (fun r => (method r, target r)) (requests_of (log (snd outcome)))
  = [(DELETE, CredentialAt (PStr "C1"));
     (DELETE, WorkflowAt (PStr "N1"));
     (DELETE, ProjectAt (PStr "P1"))]
  /\ fst outcome
     = Cleaned {| workflows_deleted := 1; workflows_failed := 0;
                  credentials_deleted := 1; credentials_failed := 0 |}.
Proof. vm_compute. split; reflexivity. Qed.

(** The same cleanup leaves nothing tracked for the instance; without the
    confirmation nothing is sent. *)
Example cleanup_of_sample :
  list_for Sample.instance_url
    (snd (perform_cleanup Sample.remote Sample.instance_url Sample.the_project
            "yes" Sample.tracked_world))
  = empty_instance
  /\ perform_cleanup Sample.remote Sample.instance_url Sample.the_project
       "y" Sample.tracked_world
     = (Cancelled, Sample.tracked_world).
Proof. vm_compute. split; reflexivity. Qed.

(** ** Restore on a circular dependency *)

Lemma build_from_wf (workflows : list value) : forall g g',
  build_from workflows g = Ok g' -> PyDict.wf g -> PyDict.wf g'.
Proof.
  induction workflows as [|workflow rest IH]; intros g g' H Hwf.
  - injection H as <-. assumption.
  - cbn [build_from] in H.
    destruct (Py.item workflow "id") as [id|]; [|discriminate]. cbn [bind] in H.
    destruct id as [| | |id| |]; try discriminate.
    destruct (analyze_workflow_dependencies workflow) as [deps|];
      [|discriminate].
    cbn [bind] in H. apply (IH _ _ H). now apply wf_set.
Qed.

(** The graph the builder returns has distinct keys. *)
Lemma build_dependency_graph_wf (workflows : list value) (g : graph) :
  build_dependency_graph workflows = Ok g -> PyDict.wf g.
Proof.
  intros H. apply (build_from_wf workflows [] g H). constructor.
Qed.

Lemma only_credentials_refl (w : world) : only_credentials w w.
Proof.
  split; [|reflexivity]. exists []. split; [now rewrite app_nil_r | constructor].
Qed.

Lemma only_credentials_trans (w1 w2 w3 : world) :
  only_credentials w1 w2 -> only_credentials w2 w3 -> only_credentials w1 w3.
Proof.
  intros ((new1 & Hlog1 & Hnew1) & Hfile1) ((new2 & Hlog2 & Hnew2) & Hfile2).
  split.
  - exists (new1 ++ new2). split.
    + now rewrite Hlog2, Hlog1, app_assoc.
    + now apply Forall_app.
  - intros u. now rewrite Hfile2.
Qed.

(** Recording a credential leaves the tracked workflows alone. *)
Lemma save_credential_only (url : string) (id name : value) (w : world) :
  only_credentials w (save_resource_mapping url "credentials" id name w).
Proof.
  unfold save_resource_mapping.
  destruct (record_in url "credentials" id name (file w)) as [m|] eqn:E;
    [|apply only_credentials_refl].
  destruct (record_in_spec url "credentials" id name (file w) m E)
    as (resources & key & _ & _ & Hsame & Hother).
  split; cbn [log file].
  - eexists. split; [reflexivity|]. now repeat constructor.
  - intros u. destruct (String.eqb_spec u url) as [->|Hu].
    + rewrite Hsame. now apply get_set_other.
    + now rewrite Hother.
Qed.

Lemma send_credential_only (remote : transport) (url : string) (payload : value)
    (w : world) :
  only_credentials w
    (snd (send remote {| method := POST; base_url := url; target := Credentials;
                         body := Some payload |} w)).
Proof.
  unfold send. cbn [snd]. split; cbn [log file]; [|reflexivity].
  eexists. split; [reflexivity|]. now repeat constructor.
Qed.

Lemma create_credential_only (remote : transport) (url : string)
    (creds_file : option creds_config) (decl : credential_declaration)
    (env_postfix : string) (w : world) :
  only_credentials w
    (snd (create_credential remote url creds_file decl env_postfix w)).
Proof.
  unfold create_credential. cbv zeta.
  match goal with
  | |- context [send remote ?r w] =>
      pose proof (send_credential_only remote url
                    (PDict [("name", PStr (credential_name creds_file
                                             (decl_name decl) env_postfix));
                            ("type", PStr (decl_type decl));
                            ("data", decl_data decl)]) w) as Hsend;
      destruct (send remote r w) as [reply w1]
  end.
  cbn [snd] in Hsend.
  destruct reply as [r|e]; [|exact Hsend].
  destruct (Z.eqb (status_code r) 200); [|exact Hsend].
  match goal with
  | |- context [match ?x with Ok _ => _ | Raise _ => _ end] => destruct x as [[id name]|]
  end; [|exact Hsend].
  cbn [snd]. eapply only_credentials_trans; [exact Hsend|].
  apply save_credential_only.
Qed.

Lemma create_credentials_only (remote : transport) (url : string)
    (creds_file : option creds_config) (env_postfix : string)
    (declarations : PyDict.dict credential_declaration) :
  forall (credential_mapping : PyDict.dict value) (w : world),
    only_credentials w
      (snd (create_credentials remote url creds_file env_postfix declarations
              credential_mapping w)).
Proof.
  induction declarations as [|[cred_key cred_data] rest IH];
    intros credential_mapping w; [apply only_credentials_refl|].
  cbn [create_credentials].
  pose proof (create_credential_only remote url creds_file cred_data
                env_postfix w) as Hone.
  destruct (create_credential remote url creds_file cred_data env_postfix w)
    as [new_cred_id w1]. cbn [snd] in Hone.
  destruct (Py.truthy new_cred_id).
  - specialize (IH (PyDict.set (PyDict.set credential_mapping cred_key new_cred_id)
                      (decl_name cred_data) new_cred_id) w1).
    destruct (create_credentials remote url creds_file env_postfix rest _ w1)
      as [[[m created] failed] w2].
    cbn [snd] in *. eapply only_credentials_trans; eassumption.
  - specialize (IH credential_mapping w1).
    destruct (create_credentials remote url creds_file env_postfix rest _ w1)
      as [[[m created] failed] w2].
    cbn [snd] in *. eapply only_credentials_trans; eassumption.
Qed.

(** An event of the creation of a credential is not a workflow event. *)
Lemma credential_event_not_workflow (e : event) :
  credential_event e -> ~ workflow_event e.
Proof.
  destruct e as [r reply|u t id name|u t id]; cbn.
  - intros (_ & ->). auto.
  - intros ->. discriminate.
  - auto.
Qed.

(** C2 — circular dependencies.  On every dependency graph with a cycle
    among its keys [get_workflow_order] raises the circular-dependency error
    and returns no order, complete or partial.  A restore whose workflows
    give such a graph stops there: it reports the cycle, every request it has
    sent and every ledger record it has written belongs to the creation of a
    credential (none submits a workflow or writes one to the ledger), and the
    ledger tracks the same workflows as before.  The credentials created
    before the analysis stay. *)
Theorem circular_dependency_aborts :
  (forall g : graph,
      PyDict.wf g -> cyclic g -> get_workflow_order g = CircularDependency)
  /\ (forall (remote : transport) (json : json_module) (url : string)
             (p : project) (supports_projects : bool) (target_env : string)
             (cfg : creds_config) (creds_file : option creds_config)
             (workflows : list value) (w : world) (g : graph)
             (env_data : environment),
        PyDict.get (environments cfg) target_env = Some env_data ->
        build_dependency_graph workflows = Ok g ->
        cyclic g ->
        let outcome :=
          perform_restore remote json url p supports_projects target_env cfg
                          creds_file workflows w in
        fst outcome = CycleReported
        /\ only_credentials w (snd outcome)
        /\ (forall new, log (snd outcome) = log w ++ new ->
              Forall (fun e => ~ workflow_event e) new)).
Proof.
  split; [intros g Hwf Hcyc; now apply get_workflow_order_cyclic|].
  intros remote json url p supports_projects target_env cfg creds_file
         workflows w g env_data Henv Hgraph Hcyc outcome.
  assert (Hrun : fst outcome = CycleReported /\ only_credentials w (snd outcome)).
  { subst outcome. unfold perform_restore. rewrite Henv. cbv zeta.
    pose proof (create_credentials_only remote url creds_file
                  (PyStr.strip (env_postfix env_data))
                  (env_credentials env_data) [] w) as Honly.
    destruct (create_credentials remote url creds_file
                (PyStr.strip (env_postfix env_data))
                (env_credentials env_data) [] w)
      as [[[credential_mapping cc] cf] w1].
    cbn [snd] in Honly. rewrite Hgraph. unfold workflow_order_of.
    rewrite (get_workflow_order_cyclic g (build_dependency_graph_wf _ _ Hgraph) Hcyc).
    now split. }
  destruct Hrun as (Hout & Honly). split; [assumption|]. split; [assumption|].
  intros new Hnew. destruct Honly as ((new' & Hlog & Hevents) & _).
  rewrite Hlog in Hnew. apply app_inv_head in Hnew. subst new'.
  eapply Forall_impl; [|exact Hevents].
  apply credential_event_not_workflow.
Qed.

Lemma circle_wf : PyDict.wf Sample.circle_graph.
Proof.
  unfold PyDict.wf. cbn.
  repeat (constructor; [cbn; intuition discriminate|]). constructor.
Qed.

Lemma circle_cyclic : cyclic Sample.circle_graph.
Proof.
  assert (Hedge : forall a b, In (a, [b]) Sample.circle_graph ->
                    In b (PyDict.keys Sample.circle_graph) ->
                    edge Sample.circle_graph a b).
  { intros a b Hin Hkey. exists [b]. repeat split; [assumption|now left|assumption]. }
  exists "A". apply reach_step with (b := "B"); [apply Hedge; cbn; auto|].
  apply reach_step with (b := "C"); [apply Hedge; cbn; auto|].
  apply reach_edge. apply Hedge; cbn; auto.
Qed.

(** The theorem on the circle [A -> B -> C -> A], restored into the sample
    platform: the credential of the environment is created and recorded, no
    workflow is submitted. *)
Lemma circular_dependency_aborts_witness :
  get_workflow_order Sample.circle_graph = CircularDependency
  /\ let outcome :=
       perform_restore Sample.remote RefJson.module Sample.instance_url
         Sample.the_project true "development" Sample.config
         (Some Sample.config) Sample.circle Sample.fresh in
     fst outcome = CycleReported
     /\ only_credentials Sample.fresh (snd outcome)
     /\ Forall (fun e => ~ workflow_event e) (log (snd outcome)).
Proof.
  destruct circular_dependency_aborts as (Hresolver & Hrestore).
  split; [exact (Hresolver Sample.circle_graph circle_wf circle_cyclic)|].
  intros outcome.
  destruct (Hrestore Sample.remote RefJson.module Sample.instance_url
              Sample.the_project true "development" Sample.config
              (Some Sample.config) Sample.circle Sample.fresh
              Sample.circle_graph
              {| env_name := Some "Development"; env_postfix := "Dev";
                 env_credentials :=
                   [("slack_token",
                     {| decl_name := "Slack Token"; decl_type := "slackApi";
                        decl_data := PDict [("accessToken", PStr "xoxb-dev")] |})] |}
              eq_refl eq_refl circle_cyclic)
    as (Hout & Honly & Hnone).
  split; [exact Hout|]. split; [exact Honly|].
  apply Hnone. reflexivity.
Defined.

(** What the restore of the circle leaves behind: one credential, created
    and recorded. *)
Example restore_of_circle :
  let w' := snd (perform_restore Sample.remote RefJson.module Sample.instance_url
                   Sample.the_project true "development" Sample.config
                   (Some Sample.config) Sample.circle Sample.fresh) in
  map (fun r => (method r, target r)) (requests_of (log w'))
  = [(POST, Credentials)]
  /\ tracked_ids Sample.instance_url "credentials" (file w') = ["C1"]
  /\ tracked_ids Sample.instance_url "workflows" (file w') = [].
Proof. vm_compute. repeat split. Qed.

(** * Further properties *)

(** ** The resolver decides acyclicity *)

(** X1.  On a dependency graph with distinct keys [get_workflow_order]
    returns an order exactly when the graph has no cycle among its keys, and
    raises the circular-dependency error exactly when it has one; a workflow
    that lists itself among its dependencies is such a cycle. *)
Theorem get_workflow_order_decides (g : graph) :
  PyDict.wf g ->
  ((exists order, get_workflow_order g = Order order) <-> acyclic g)
  /\ (get_workflow_order g = CircularDependency <-> ~ acyclic g)
  /\ (forall k deps, In (k, deps) g -> In k deps ->
        get_workflow_order g = CircularDependency).
Proof.
  intros Hwf.
  assert (Hsucc : acyclic g -> exists order, get_workflow_order g = Order order).
  { intros Hac. eexists.
    apply (get_workflow_order_layered g (level g)). now apply level_is_level. }
  assert (Hfail : forall order, get_workflow_order g = Order order -> acyclic g).
  { intros order E a Ha.
    rewrite (get_workflow_order_cyclic g Hwf) in E; [discriminate|].
    now exists a. }
  split; [|split].
  - split; [intros (order & E); now apply (Hfail order) | exact Hsucc].
  - split.
    + intros E Hac. destruct (Hsucc Hac) as (order & E'). congruence.
    + intros Hcyc. pose proof (get_workflow_order_total g) as Htot.
      destruct (get_workflow_order g) as [order| |] eqn:E;
        [|reflexivity|congruence].
      exfalso. apply Hcyc. now apply (Hfail order).
  - intros k deps Hin Hk. apply (get_workflow_order_cyclic g Hwf).
    exists k. apply reach_edge. exists deps. repeat split; try assumption.
    change k with (fst (k, deps)). now apply in_map.
Qed.

Lemma get_workflow_order_decides_witness :
  (exists order, get_workflow_order sample_graph = Order order)
  /\ get_workflow_order [("A", ["B"]); ("B", ["B"])] = CircularDependency.
Proof.
  split.
  - apply (get_workflow_order_decides sample_graph).
    + unfold PyDict.wf. simpl.
      repeat (constructor; [simpl; intuition discriminate|]). constructor.
    + apply (level_acyclic sample_graph sample_level).
      apply is_level_b_correct. reflexivity.
  - apply (get_workflow_order_decides [("A", ["B"]); ("B", ["B"])])
      with (k := "B"%string) (deps := ["B"%string]).
    + unfold PyDict.wf. simpl.
      repeat (constructor; [simpl; intuition discriminate|]). constructor.
    + simpl. auto.
    + simpl. auto.
Defined.

(** ** The dependency graph builder *)

Lemma build_from_entries (workflows : list value) : forall g0 g,
  build_from workflows g0 = Ok g ->
  exists entries,
    Forall2 (fun w e => Py.item w "id" = Ok (PStr (fst e))
                        /\ analyze_workflow_dependencies w = Ok (snd e))
            workflows entries
    /\ g = fold_left (fun acc e => PyDict.set acc (fst e) (snd e)) entries g0.
Proof.
  induction workflows as [|workflow rest IH]; intros g0 g H.
  - injection H as <-. exists []. split; [constructor | reflexivity].
  - cbn [build_from] in H.
    destruct (Py.item workflow "id") as [id|] eqn:Eid; [|discriminate].
    cbn [bind] in H. destruct id as [| | |id| |]; try discriminate.
    destruct (analyze_workflow_dependencies workflow) as [deps|] eqn:Edeps;
      [|discriminate].
    cbn [bind] in H. destruct (IH _ _ H) as (entries & Hall & ->).
    exists ((id, deps) :: entries). split; [|reflexivity].
    constructor; [now split | assumption].
Qed.

Section FoldSet.
Context {V : Type}.
Implicit Types (entries : list (string * V)) (d : PyDict.dict V).

Let fill d entries : PyDict.dict V :=
fold_left (fun acc e => PyDict.set acc (fst e) (snd e)) entries d.

Lemma fill_cons d k0 v0 entries :
fill d ((k0, v0) :: entries) = fill (PyDict.set d k0 v0) entries.
Proof. reflexivity. Qed.

Lemma fill_keys entries : forall d k,
In k (PyDict.keys (fill d entries)) <->
In k (PyDict.keys d) \/ In k (map fst entries).
Proof.
induction entries as [|[k0 v0] entries IH]; intros d k.
- cbn. tauto.
- rewrite fill_cons, IH, keys_set. cbn [map fst In].
destruct (PyDict.mem k0 d) eqn:E.
+ apply mem_In in E. split; [tauto|].
intros [H|[<-|H]]; tauto.
+ rewrite in_app_iff. cbn. tauto.
Qed.

Lemma fill_keys_fresh entries : forall d,
NoDup (PyDict.keys d ++ map fst entries) ->
PyDict.keys (fill d entries) = PyDict.keys d ++ map fst entries.
Proof.
induction entries as [|[k0 v0] entries IH]; intros d Hnd.
- cbn. now rewrite app_nil_r.
- cbn [map fst] in *.
assert (Hfresh : PyDict.mem k0 d = false).
{ apply mem_false. intros Hin.
apply NoDup_remove_2 in Hnd. apply Hnd.
apply in_or_app. now left. }
rewrite fill_cons, IH; rewrite keys_set, Hfresh.
+ now rewrite <- app_assoc.
+ rewrite <- app_assoc. exact Hnd.
Qed.

Lemma fill_get entries : forall d k v,
PyDict.get (fill d entries) k = Some v ->
PyDict.get d k = Some v \/ In (k, v) entries.
Proof.
induction entries as [|[k0 v0] entries IH]; intros d k v H.
- now left.
- rewrite fill_cons in H. apply IH in H.
destruct H as [H|H]; [|now right; right].
destruct (String.eqb_spec k k0) as [->|Hne].
+ rewrite get_set_same in H. injection H as <-. right. now left.
+ rewrite get_set_other in H by assumption. now left.
Qed.

Lemma fill_get_keep entries : forall d k v,
~ In k (map fst entries) -> PyDict.get d k = Some v ->
PyDict.get (fill d entries) k = Some v.
Proof.
induction entries as [|[k0 v0] entries IH]; intros d k v Hk H.
- assumption.
- cbn [map fst In] in Hk. rewrite fill_cons.
apply IH; [tauto|]. rewrite get_set_other; [assumption|].
intros ->. tauto.
Qed.

Lemma fill_get_entry entries : forall d k v,
NoDup (map fst entries) -> In (k, v) entries ->
PyDict.get (fill d entries) k = Some v.
Proof.
induction entries as [|[k0 v0] entries IH]; intros d k v Hnd Hin.
- contradiction.
- cbn [map fst] in Hnd. inversion Hnd as [|? ? Hfresh Hnd']; subst.
rewrite fill_cons. destruct Hin as [[= <- <-]|Hin].
+ apply fill_get_keep; [assumption | apply get_set_same].
+ now apply IH.
Qed.

Lemma fill_wf entries : forall d, PyDict.wf d -> PyDict.wf (fill d entries).
Proof.
induction entries as [|[k0 v0] entries IH]; intros d H.
- assumption.
- rewrite fill_cons. apply IH. now apply wf_set.
Qed.
End FoldSet.

(** X2.  When [build_dependency_graph] returns, the keys of the graph are
    exactly the ids of the workflows, each once; every entry is the
    dependency list [analyze_workflow_dependencies] gives for a workflow of
    that id; and when the ids are distinct, the keys stand in the order of
    the workflows and every workflow has its own entry. *)
Theorem build_dependency_graph_spec (workflows : list value) (g : graph) :
  build_dependency_graph workflows = Ok g ->
  PyDict.wf g
  /\ exists ids,
       Forall2 (fun w id => Py.item w "id" = Ok (PStr id)) workflows ids
       /\ (forall k, In k (PyDict.keys g) <-> In k ids)
       /\ (forall k deps,
              PyDict.get g k = Some deps ->
              exists w, In w workflows
                        /\ Py.item w "id" = Ok (PStr k)
                        /\ analyze_workflow_dependencies w = Ok deps)
       /\ (NoDup ids ->
           PyDict.keys g = ids
           /\ forall w id,
                In w workflows -> Py.item w "id" = Ok (PStr id) ->
                exists deps, analyze_workflow_dependencies w = Ok deps
                             /\ PyDict.get g id = Some deps).
Proof.
  intros H. destruct (build_from_entries workflows [] g H) as (entries & Hall & ->).
  split; [apply fill_wf; constructor|].
  exists (map fst entries).
  assert (Hids : Forall2 (fun w id => Py.item w "id" = Ok (PStr id))
                         workflows (map fst entries)).
  { clear H. induction Hall as [|w e ws es (Hid & _) _ IH]; cbn;
      constructor; assumption. }
  assert (Hentry : forall k deps, In (k, deps) entries ->
            exists w, In w workflows /\ Py.item w "id" = Ok (PStr k)
                      /\ analyze_workflow_dependencies w = Ok deps).
  { clear H Hids. induction Hall as [|w e ws es (Hid & Hdeps) _ IH];
      intros k deps Hin; [contradiction|].
    destruct Hin as [->|Hin].
    - exists w. repeat split; [now left | assumption | assumption].
    - destruct (IH k deps Hin) as (w' & Hw' & Hrest).
      exists w'. split; [now right | assumption]. }
  assert (Hback : forall w id, In w workflows ->
            Py.item w "id" = Ok (PStr id) ->
            exists deps, analyze_workflow_dependencies w = Ok deps
                         /\ In (id, deps) entries).
  { clear H Hids Hentry. induction Hall as [|w e ws es (Hid & Hdeps) _ IH];
      intros w' id Hin Hid'; [contradiction|].
    destruct Hin as [<-|Hin].
    - exists (snd e). split; [assumption|]. left.
      rewrite Hid in Hid'. injection Hid' as <-. now destruct e.
    - destruct (IH w' id Hin Hid') as (deps & Hd & Hin').
      exists deps. split; [assumption | now right]. }
  split; [assumption|]. split; [|split].
  - intros k. rewrite fill_keys. cbn. tauto.
  - intros k deps Hget. apply fill_get in Hget.
    destruct Hget as [Hget|Hin]; [discriminate | now apply Hentry].
  - intros Hnd. split; [now apply (fill_keys_fresh entries [])|].
    intros w id Hin Hid. destruct (Hback w id Hin Hid) as (deps & Hd & Hin').
    exists deps. split; [assumption | now apply fill_get_entry].
Qed.

Lemma build_dependency_graph_spec_witness :
  exists g,
    build_dependency_graph [Sample.w2; Sample.w1] = Ok g
    /\ PyDict.wf g
    /\ exists ids,
         Forall2 (fun w id => Py.item w "id" = Ok (PStr id))
                 [Sample.w2; Sample.w1] ids
         /\ (forall k, In k (PyDict.keys g) <-> In k ids)
         /\ (NoDup ids -> PyDict.keys g = ids).
Proof.
  exists [("W2", ["W1"]); ("W1", [])]. split; [reflexivity|].
  destruct (build_dependency_graph_spec [Sample.w2; Sample.w1]
              [("W2", ["W1"]); ("W1", [])] eq_refl)
    as (Hwf & ids & Hids & Hkeys & _ & Hdistinct).
  split; [exact Hwf|]. exists ids. split; [exact Hids|].
  split; [exact Hkeys|]. intros Hnd. exact (proj1 (Hdistinct Hnd)).
Defined.

(** ** The replacement table *)

Section ReplacementTable.
Variable env_type : string.

Let add_group (acc : PyDict.dict string) (values : PyDict.dict string)
(target_value : string) : PyDict.dict string :=
fold_left
(fun acc' other =>
 if String.eqb (fst other) env_type then acc'
 else PyDict.set acc' (snd other) target_value)
values acc.

Lemma add_group_get (values : PyDict.dict string) (target_value : string) :
forall acc old new,
PyDict.get (add_group acc values target_value) old = Some new ->
PyDict.get acc old = Some new
\/ (new = target_value
/\ exists other, In (other, old) values /\ other <> env_type).
Proof.
induction values as [|[other value] values IH]; intros acc old new H;
cbn in *; [now left|].
apply IH in H. destruct H as [H|(-> & other' & Hin & Hne)].
- destruct (String.eqb_spec other env_type) as [->|Hne]; [now left|].
destruct (String.eqb_spec old value) as [->|Hold].
+ rewrite get_set_same in H. injection H as <-. right.
split; [reflexivity|]. exists other. split; [now left | assumption].
+ rewrite get_set_other in H by assumption. now left.
- right. split; [reflexivity|]. exists other'. split; [now right | assumption].
Qed.

Lemma add_group_mem (values : PyDict.dict string) (target_value : string) :
forall acc old,
PyDict.mem old acc = true
\/ (exists other, In (other, old) values /\ other <> env_type) ->
PyDict.mem old (add_group acc values target_value) = true.
Proof.
induction values as [|[other value] values IH]; intros acc old H; cbn in *.
- destruct H as [H|(other & [] & _)]. assumption.
- apply IH. destruct H as [H|(other' & [[= -> ->]|Hin] & Hne)].
+ left. destruct (String.eqb other env_type); [assumption|].
apply mem_In. rewrite keys_set. apply mem_In in H.
destruct (PyDict.mem value acc); [assumption|].
apply in_or_app. now left.
+ left. apply String.eqb_neq in Hne. rewrite Hne.
apply (get_Some_mem _ _ target_value). apply get_set_same.
+ right. now exists other'.
Qed.

Let add_groups (acc : PyDict.dict string)
(groups : PyDict.dict (PyDict.dict string)) : PyDict.dict string :=
fold_left
(fun acc group =>
 let values := snd group in
 match PyDict.get values env_type with
 | Some target_value =>
 fold_left
 (fun acc' other =>
if String.eqb (fst other) env_type then acc'
else PyDict.set acc' (snd other) target_value)
 values acc
 | None => acc
 end)
groups acc.

Lemma add_groups_get (groups : PyDict.dict (PyDict.dict string)) :
forall acc old new,
PyDict.get (add_groups acc groups) old = Some new ->
PyDict.get acc old = Some new
\/ exists name values other,
 In (name, values) groups
 /\ PyDict.get values env_type = Some new
 /\ In (other, old) values /\ other <> env_type.
Proof.
induction groups as [|[name values] groups IH]; intros acc old new H;
cbn in *; [now left|].
apply IH in H. destruct H as [H|(name' & values' & other & Hin & Hrest)].
- destruct (PyDict.get values env_type) as [target_value|] eqn:E;
[|now left].
apply add_group_get in H. destruct H as [H|(-> & other & Hin & Hne)];
[now left|].
right. exists name, values, other. repeat split; auto.
- right. exists name', values', other. split; [now right | assumption].
Qed.

Lemma add_groups_mem_keep (groups : PyDict.dict (PyDict.dict string)) :
forall acc old,
PyDict.mem old acc = true -> PyDict.mem old (add_groups acc groups) = true.
Proof.
induction groups as [|[name values] groups IH]; intros acc old H; cbn in *;
[assumption|].
apply IH. destruct (PyDict.get values env_type); [|assumption].
apply add_group_mem. now left.
Qed.

Lemma add_groups_mem (groups : PyDict.dict (PyDict.dict string)) :
forall acc name values target_value other old,
In (name, values) groups ->
PyDict.get values env_type = Some target_value ->
In (other, old) values -> other <> env_type ->
PyDict.mem old (add_groups acc groups) = true.
Proof.
induction groups as [|[name0 values0] groups IH];
intros acc name values target_value other old Hin Hget Hother Hne;
cbn in *; [contradiction|].
destruct Hin as [[= -> ->]|Hin].
- rewrite Hget. apply add_groups_mem_keep. apply add_group_mem.
right. now exists other.
- now apply (IH _ name values target_value other old).
Qed.

(** X3.  The table [get_environment_replacements] builds for an environment
maps a literal to a value only when some replacement group gives that
value for the environment and the literal for another environment; and
every literal a group gives for another environment is a key of the
table, provided the group has a value for the environment. *)
Theorem replacement_table_spec (cfg : creds_config) :
(forall old new,
PyDict.get (get_environment_replacements cfg env_type) old = Some new ->
exists name values other,
In (name, values) (replacements cfg)
/\ PyDict.get values env_type = Some new
/\ In (other, old) values /\ other <> env_type)
/\ (forall name values target_value other old,
 In (name, values) (replacements cfg) ->
 PyDict.get values env_type = Some target_value ->
 In (other, old) values -> other <> env_type ->
 PyDict.mem old (get_environment_replacements cfg env_type) = true).
Proof.
split.
- intros old new H. apply add_groups_get in H.
destruct H as [H|H]; [discriminate | exact H].
- intros name values target_value other old.
apply (add_groups_mem (replacements cfg) []).
Qed.
End ReplacementTable.

(** The table of the sample configuration for the development
    environment. *)
Example replacement_table_of_sample :
  get_environment_replacements Sample.config "development"
  = [("api.prod.example.com", "api.dev.example.com")]
  /\ get_environment_replacements Sample.config "staging" = [].
Proof. split; reflexivity. Qed.

(** ** The ledger: what is not recorded *)

Lemma record_in_unknown (u t : string) (id name : value) (f : storage) :
  PyDict.get (get_instance_resources u f) t = None ->
  exists e, record_in u t id name f = Raise e.
Proof.
  intros Hnone. destruct (record_in u t id name f) as [m|e] eqn:E;
    [|now exists e].
  destruct (record_in_spec u t id name f m E) as (resources & _ & Hres & _).
  congruence.
Qed.

(** X4.  The ledger has three sub-maps for an instance, [workflows],
    [credentials] and [projects]: recording a resource under any other type
    raises inside [save_resource_mapping], is reported, and leaves the
    document as it was; nothing is ever reported under such a type. *)
Theorem unknown_type_not_recorded (ops : list store_op) (start : world)
    (u t : string) (id name : value) :
  file start = Absent \/ file start = Stored [] ->
  ~ In t resource_types ->
  save_resource_mapping u t id name (run_ops ops start) = run_ops ops start
  /\ forall i, tracked u t i (run_ops ops start) = None.
Proof.
  intros Hstart Ht.
  assert (Hnone : PyDict.get (list_for u (run_ops ops start)) t = None).
  { apply get_None. rewrite keys_run; [assumption|].
    unfold list_for. now destruct Hstart as [-> | ->]. }
  split.
  - unfold save_resource_mapping.
    destruct (record_in_unknown u t id name _ Hnone) as (e & ->). reflexivity.
  - intros i. unfold tracked. now rewrite Hnone.
Qed.

Lemma unknown_type_not_recorded_witness :
  let w := run_ops [RecordOp "https://a" "workflows" (PStr "N1") (PStr "Main")]
                   {| file := Absent; log := [] |} in
  save_resource_mapping "https://a" "workflow" (PStr "N2") (PStr "Helper") w = w
  /\ forall i, tracked "https://a" "workflow" i w = None.
Proof.
  apply (unknown_type_not_recorded
           [RecordOp "https://a" "workflows" (PStr "N1") (PStr "Main")]
           {| file := Absent; log := [] |}
           "https://a" "workflow" (PStr "N2") (PStr "Helper")).
  - now left.
  - cbn. intuition discriminate.
Defined.

(** ** Deletions *)

Lemma del_absent {V : Type} (d : PyDict.dict V) (k : string) :
  PyDict.get d k = None -> PyDict.del d k = d.
Proof.
  intros H. apply get_None in H. unfold PyDict.del. apply filter_all.
  intros [k' v] Hin. cbn. apply negb_true_iff, String.eqb_neq. intros ->.
  apply H. change k with (fst (k, v)). now apply in_map.
Qed.

(** What [remove_resource_mapping] does to the sub-maps of its instance. *)
Lemma forget_effect (u t i : string) (w : world) :
  PyDict.get (list_for u (remove_resource_mapping u t i w)) t
  = option_map (fun resources => PyDict.del resources i)
               (PyDict.get (list_for u w) t)
  /\ (forall t', t' <> t ->
        PyDict.get (list_for u (remove_resource_mapping u t i w)) t'
        = PyDict.get (list_for u w) t')
  /\ others_kept u w (remove_resource_mapping u t i w).
Proof.
  unfold others_kept, list_for. rewrite file_remove.
  destruct (forget_in u t i (file w)) as [m|] eqn:E.
  - destruct (forget_in_spec u t i (file w) m E)
      as (resources & Hres & _ & Hsame & Hother).
    rewrite Hsame, Hres, get_set_same. split; [reflexivity|].
    split; [|exact Hother]. intros t' Ht. now apply get_set_other.
  - pose proof (forget_in_None u t i (file w) E) as H.
    split; [|split; reflexivity].
    destruct (PyDict.get (get_instance_resources u (file w)) t) as [resources|];
      [|reflexivity].
    cbn. now rewrite del_absent.
Qed.

Lemma tracked_forget_other (u t i u' t' i' : string) (w : world) :
  (u', t', i') <> (u, t, i) ->
  tracked u' t' i' (remove_resource_mapping u t i w) = tracked u' t' i' w.
Proof.
  intros Hne. unfold tracked.
  destruct (forget_effect u t i w) as (Hsame & Hother & Hkept).
  destruct (String.eqb_spec u' u) as [->|Hu]; [|now rewrite Hkept].
  destruct (String.eqb_spec t' t) as [->|Ht]; [|now rewrite Hother].
  rewrite Hsame. destruct (PyDict.get (list_for u w) t) as [resources|];
    [|reflexivity].
  cbn. apply get_del_other. intros ->. now apply Hne.
Qed.

(** X5.  A deletion ([delete_workflow], [delete_credential] and
    [delete_project] are [delete_then_forget] at their endpoint and ledger
    type) sends exactly one request, the DELETE of the resource.  It returns
    normally exactly when the platform answers with status 200, and the
    resource is then no longer tracked; otherwise it raises and the ledger
    file is as it was.  No other ledger entry changes in either case. *)
Theorem delete_outcome (remote : transport) (url : string) (target : endpoint)
    (t id : string) (w : world) :
  let reply := remote (requests_of (log w)) (deletion url target) in
  let outcome := delete_then_forget remote url target t id w in
  requests_of (log (snd outcome))
    = requests_of (log w) ++ [deletion url target]
  /\ (fst outcome = Ok tt <->
      exists r, reply = Ok r /\ status_code r = 200%Z)
  /\ (fst outcome = Ok tt -> tracked url t id (snd outcome) = None)
  /\ (fst outcome <> Ok tt -> file (snd outcome) = file w)
  /\ (forall u' t' id', (u', t', id') <> (url, t, id) ->
        tracked u' t' id' (snd outcome) = tracked u' t' id' w).
Proof.
  intros reply outcome. subst reply outcome.
  unfold delete_then_forget, send. fold (deletion url target).
  set (sent := {| file := file w;
                  log := log w ++ [Sent (deletion url target)
                                     (remote (requests_of (log w))
                                             (deletion url target))] |}).
  assert (Hsent : requests_of (log sent)
                  = requests_of (log w) ++ [deletion url target]).
  { unfold sent. cbn [log]. now rewrite requests_of_app. }
  assert (Hremoved : requests_of (log (remove_resource_mapping url t id sent))
                     = requests_of (log w) ++ [deletion url target]).
  { rewrite <- Hsent. unfold remove_resource_mapping.
    destruct (forget_in url t id (file sent)); [|reflexivity].
    cbn [log]. rewrite requests_of_app. cbn. now rewrite app_nil_r. }
  assert (Hkept : forall u' t' id', tracked u' t' id' sent = tracked u' t' id' w).
  { reflexivity. }
  destruct (remote (requests_of (log w)) (deletion url target)) as [r|e].
  - destruct (Z.eqb_spec (status_code r) 200) as [H200|H200]; cbn [fst snd].
    + split; [exact Hremoved|]. split; [split; [now exists r | reflexivity]|].
      split; [intros _; apply tracked_after_forget|].
      split; [congruence|].
      intros u' t' id' Hne. now rewrite tracked_forget_other.
    + split; [exact Hsent|]. split.
      { split; [discriminate|]. intros (r' & [= <-] & H). contradiction. }
      split; [discriminate|]. split; [reflexivity|]. intros; apply Hkept.
  - cbn [fst snd]. split; [exact Hsent|]. split.
    { split; [discriminate|]. intros (r' & [=] & _). }
    split; [discriminate|]. split; [reflexivity|]. intros; apply Hkept.
Qed.

(** ** Cleanup: what it touches *)

Lemma grows_refl (P : event -> Prop) (w : world) : grows P w w.
Proof. exists []. split; [now rewrite app_nil_r | constructor]. Qed.

Lemma grows_trans (P : event -> Prop) (w1 w2 w3 : world) :
  grows P w1 w2 -> grows P w2 w3 -> grows P w1 w3.
Proof.
  intros (new1 & Hlog1 & Hnew1) (new2 & Hlog2 & Hnew2).
  exists (new1 ++ new2). split.
  - now rewrite Hlog2, Hlog1, app_assoc.
  - now apply Forall_app.
Qed.

Lemma grows_one (P : event -> Prop) (w : world) (f : storage) (e : event) :
  P e -> grows P w {| file := f; log := log w ++ [e] |}.
Proof. intros H. exists [e]. split; [reflexivity | now repeat constructor]. Qed.

Lemma grows_impl (P Q : event -> Prop) (w w' : world) :
  (forall e, P e -> Q e) -> grows P w w' -> grows Q w w'.
Proof.
  intros H (new & Hlog & Hnew). exists new. split; [assumption|].
  eapply Forall_impl; eassumption.
Qed.

Lemma others_kept_refl (url : string) (w : world) : others_kept url w w.
Proof. now intros u _. Qed.

Lemma others_kept_trans (url : string) (w1 w2 w3 : world) :
  others_kept url w1 w2 -> others_kept url w2 w3 -> others_kept url w1 w3.
Proof. intros H1 H2 u Hu. now rewrite H2, H1. Qed.

Lemma others_kept_file (url : string) (w w' : world) :
  file w' = file w -> others_kept url w w'.
Proof. intros H u _. unfold list_for. now rewrite H. Qed.

Lemma save_others_kept (url t : string) (id name : value) (w : world) :
  others_kept url w (save_resource_mapping url t id name w).
Proof.
  intros u Hu. unfold list_for. rewrite file_save.
  destruct (record_in url t id name (file w)) as [m|] eqn:E; [|reflexivity].
  destruct (record_in_spec url t id name (file w) m E) as (_ & _ & _ & _ & _ & H).
  now apply H.
Qed.

Lemma save_grows (P : event -> Prop) (url t : string) (id name : value)
    (w : world) :
  P (Saved url t id name) -> grows P w (save_resource_mapping url t id name w).
Proof.
  intros H. unfold save_resource_mapping.
  destruct (record_in url t id name (file w)); [|apply grows_refl].
  now apply grows_one.
Qed.

Lemma remove_grows (P : event -> Prop) (url t id : string) (w : world) :
  P (Removed url t id) -> grows P w (remove_resource_mapping url t id w).
Proof.
  intros H. unfold remove_resource_mapping.
  destruct (forget_in url t id (file w)); [|apply grows_refl].
  now apply grows_one.
Qed.

Section Deletions.
Variables (remote : transport) (url : string).
Variable reach_of : event -> Prop.
Hypothesis deletion_sent :
forall target reply, reach_of (Sent (deletion url target) reply).
Hypothesis entry_removed : forall t id, reach_of (Removed url t id).

Let step (w w' : world) : Prop := grows reach_of w w' /\ others_kept url w w'.

Lemma step_refl (w : world) : step w w.
Proof. split; [apply grows_refl | apply others_kept_refl]. Qed.

Lemma step_trans (w1 w2 w3 : world) : step w1 w2 -> step w2 w3 -> step w1 w3.
Proof.
intros (Hg1 & Hk1) (Hg2 & Hk2).
split; [eapply grows_trans | eapply others_kept_trans]; eassumption.
Qed.

Lemma delete_then_forget_step (target : endpoint) (t id : string) (w : world) :
step w (snd (delete_then_forget remote url target t id w)).
Proof.
unfold delete_then_forget, send. fold (deletion url target).
set (reply := remote (requests_of (log w)) (deletion url target)).
assert (Hsent : step w {| file := file w;
log := log w ++ [Sent (deletion url target) reply] |}).
{ split; [now apply grows_one | now apply others_kept_file]. }
destruct reply as [r|e]; [|exact Hsent].
destruct (Z.eqb (status_code r) 200); [|exact Hsent].
cbn [snd]. eapply step_trans; [exact Hsent|]. split.
- now apply remove_grows.
- apply forget_effect.
Qed.

Lemma delete_each_step (delete : string -> world -> result unit * world) :
(forall id w, step w (snd (delete id w))) ->
forall ids w, step w (snd (delete_each delete ids w)).
Proof.
intros Hdelete. induction ids as [|id ids IH]; intros w; [apply step_refl|].
cbn [delete_each]. specialize (Hdelete id w).
destruct (delete id w) as [r w1]. cbn [snd] in Hdelete.
specialize (IH w1). destruct (delete_each delete ids w1) as [[deleted failed] w2].
cbn [snd] in IH. assert (step w w2) by (eapply step_trans; eassumption).
now destruct r.
Qed.

Lemma perform_cleanup_step (p : project) (confirm : string) (w : world) :
step w (snd (perform_cleanup remote url p confirm w)).
Proof.
unfold perform_cleanup.
destruct (negb (String.eqb (PyStr.lower confirm) "yes")); [apply step_refl|].
cbv zeta.
destruct (dict_item (get_instance_resources url (file w)) "workflows")
as [workflows|]; [|apply step_refl].
destruct (dict_item (get_instance_resources url (file w)) "credentials")
as [credentials|]; [|apply step_refl].
assert (Hmain : step w (snd (cleanup_deletions remote url p
 (get_instance_resources url (file w))
 workflows credentials w))).
{ unfold cleanup_deletions.
pose proof (delete_each_step (delete_credential remote url)
(fun id w0 => delete_then_forget_step _ _ _ w0)
(PyDict.keys credentials) w) as H1.
destruct (delete_each (delete_credential remote url)
(PyDict.keys credentials) w) as [[cd cf] w1].
pose proof (delete_each_step (delete_workflow remote url)
(fun id w0 => delete_then_forget_step _ _ _ w0)
(PyDict.keys workflows) w1) as H2.
destruct (delete_each (delete_workflow remote url)
(PyDict.keys workflows) w1) as [[wd wf] w2].
cbn [snd] in H1, H2.
assert (H12 : step w w2) by (eapply step_trans; eassumption).
destruct (Py.truthy (project_id p)); [|exact H12].
destruct (dict_item (get_instance_resources url (file w)) "projects")
as [projects|]; [|exact H12].
destruct (Py.in_mapping (project_id p) projects) as [[|]|]; try exact H12.
destruct (project_id p) as [| | |id| |]; try exact H12.
pose proof (delete_then_forget_step (ProjectAt (PStr id)) "projects" id w2)
as H3.
fold (delete_project remote url id) in H3.
destruct (delete_project remote url id w2) as [r w3]. cbn [snd] in *.
eapply step_trans; eassumption. }
destruct workflows, credentials; try exact Hmain. apply step_refl.
Qed.
End Deletions.

(** X6.  Whatever the platform answers and whatever the user typed, a
    cleanup of the instance at [url] sends nothing but DELETE requests to
    that instance, writes nothing to the ledger but removals filed under
    that instance, and leaves what the ledger holds for every other instance
    as it was. *)
Theorem cleanup_confined (remote : transport) (url : string) (p : project)
    (confirm : string) (w : world) :
  let w' := snd (perform_cleanup remote url p confirm w) in
  confined url w w' /\ grows deletion_event w w'.
Proof.
  intros w'. subst w'.
  destruct (perform_cleanup_step remote url
              (fun e => event_at url e /\ deletion_event e))
    with (p := p) (confirm := confirm) (w := w) as (Hgrows & Hkept).
  - intros target reply. now split.
  - intros t id. now split.
  - split; [split; [|assumption]|]; eapply grows_impl; try exact Hgrows;
      now intros e [].
Qed.

(** ** Cleanup: when every deletion succeeds *)

Lemma keys_nil {V : Type} (d : PyDict.dict V) : PyDict.keys d = [] -> d = [].
Proof. destruct d; [reflexivity | discriminate]. Qed.

Lemma keys_dels {V : Type} (ids : list string) : forall d : PyDict.dict V,
  PyDict.keys (fold_left (fun acc id => PyDict.del acc id) ids d)
  = filter (fun k => negb (existsb (String.eqb k) ids)) (PyDict.keys d).
Proof.
  induction ids as [|id ids IH]; intros d; cbn [fold_left existsb].
  - symmetry. now apply filter_all.
  - rewrite IH, keys_del, filter_twice. apply filter_ext.
    intros k. now rewrite negb_orb.
Qed.

Lemma dels_all {V : Type} (d : PyDict.dict V) :
  fold_left (fun acc id => PyDict.del acc id) (PyDict.keys d) d = [].
Proof.
  apply keys_nil. rewrite keys_dels. apply filter_none.
  intros k Hk. apply negb_false_iff. now apply existsb_eqb_In.
Qed.

Section AllDeleted.
Variables (remote : transport) (url : string).
Hypothesis deletions_succeed :
forall history r, method r = DELETE ->
exists reply, remote history r = Ok reply /\ status_code reply = 200%Z.

Lemma delete_then_forget_succeeds (target : endpoint) (t id : string)
(w : world) :
exists w1,
delete_then_forget remote url target t id w
= (Ok tt, remove_resource_mapping url t id w1)
/\ file w1 = file w.
Proof.
unfold delete_then_forget, send. fold (deletion url target).
destruct (deletions_succeed (requests_of (log w)) (deletion url target)
eq_refl) as (reply & -> & ->).
cbn [Z.eqb Pos.eqb]. eexists. split; [reflexivity | reflexivity].
Qed.

(** A loop of deletions under one ledger type: every id is deleted and
forgotten, the other types are left alone. *)
Lemma delete_each_succeeds (mk : string -> endpoint) (t : string)
(ids : list string) : forall w,
let '(deleted, failed, w') :=
delete_each (fun id => delete_then_forget remote url (mk id) t id) ids w in
deleted = length ids /\ failed = 0
/\ PyDict.get (list_for url w') t
 = option_map (fun resources =>
 fold_left (fun acc id => PyDict.del acc id) ids resources)
(PyDict.get (list_for url w) t)
/\ forall t', t' <> t ->
 PyDict.get (list_for url w') t' = PyDict.get (list_for url w) t'.
Proof.
induction ids as [|id ids IH]; intros w.
- cbn. repeat split; try reflexivity.
now destruct (PyDict.get (list_for url w) t).
- cbn [delete_each].
destruct (delete_then_forget_succeeds (mk id) t id w) as (w1 & -> & Hfile).
specialize (IH (remove_resource_mapping url t id w1)).
destruct (delete_each _ ids (remove_resource_mapping url t id w1))
as [[deleted failed] w2].
destruct IH as (-> & -> & Hsame & Hother).
destruct (forget_effect url t id w1) as (Hsame1 & Hother1 & _).
assert (Hw1 : list_for url w1 = list_for url w).
{ unfold list_for. now rewrite Hfile. }
rewrite Hw1 in Hsame1, Hother1.
split; [reflexivity|]. split; [reflexivity|]. split.
+ rewrite Hsame, Hsame1.
now destruct (PyDict.get (list_for url w) t).
+ intros t' Ht. now rewrite Hother, Hother1.
Qed.

(** X7.  On a platform that answers every DELETE with status 200, a cleanup
that reports its summary has deleted everything: no deletion is counted
as failed, the ledger tracks no workflow and no credential of the
instance any more, and the project, if its id is not empty, is not
tracked either. *)
Theorem cleanup_complete (p : project) (confirm : string) (w w' : world)
(stats : cleanup_stats) :
perform_cleanup remote url p confirm w = (Cleaned stats, w') ->
workflows_failed stats = 0 /\ credentials_failed stats = 0
/\ workflows_deleted stats = length (tracked_ids url "workflows" (file w))
/\ credentials_deleted stats
 = length (tracked_ids url "credentials" (file w))
/\ tracked_ids url "workflows" (file w') = []
/\ tracked_ids url "credentials" (file w') = []
/\ (forall id, project_id p = PStr id -> id <> EmptyString ->
~ In id (tracked_ids url "projects" (file w'))).
Proof.
unfold perform_cleanup.
destruct (negb (String.eqb (PyStr.lower confirm) "yes")); [discriminate|].
cbv zeta. unfold dict_item, tracked_ids.
destruct (PyDict.get (get_instance_resources url (file w)) "workflows")
as [workflows|] eqn:Hw; [|discriminate].
destruct (PyDict.get (get_instance_resources url (file w)) "credentials")
as [credentials|] eqn:Hc; [|discriminate].
assert (Hmain :
cleanup_deletions remote url p (get_instance_resources url (file w))
workflows credentials w = (Cleaned stats, w') ->
workflows_failed stats = 0 /\ credentials_failed stats = 0
/\ workflows_deleted stats = length (PyDict.keys workflows)
/\ credentials_deleted stats = length (PyDict.keys credentials)
/\ match PyDict.get (get_instance_resources url (file w')) "workflows" with
 | Some resources => PyDict.keys resources
 | None => []
 end = []
/\ match PyDict.get (get_instance_resources url (file w')) "credentials" with
 | Some resources => PyDict.keys resources
 | None => []
 end = []
/\ (forall id, project_id p = PStr id -> id <> EmptyString ->
~ In id match PyDict.get (get_instance_resources url (file w'))
"projects" with
| Some resources => PyDict.keys resources
| None => []
end)).
{ unfold cleanup_deletions, dict_item, delete_credential, delete_workflow.
pose proof (delete_each_succeeds (fun id => CredentialAt (PStr id))
"credentials" (PyDict.keys credentials) w) as H1.
cbv beta in H1.
destruct (delete_each _ (PyDict.keys credentials) w) as [[cd cf] w1].
destruct H1 as (-> & -> & Hc1 & Hother1).
pose proof (delete_each_succeeds (fun id => WorkflowAt (PStr id))
"workflows" (PyDict.keys workflows) w1) as H2.
cbv beta in H2.
destruct (delete_each _ (PyDict.keys workflows) w1) as [[wd wf] w2].
destruct H2 as (-> & -> & Hw2 & Hother2).
unfold list_for in *.
assert (Hw2' : PyDict.get (get_instance_resources url (file w2)) "workflows"
 = Some []).
{ rewrite Hw2, Hother1 by discriminate. rewrite Hw. cbn.
now rewrite dels_all. }
assert (Hc2' : PyDict.get (get_instance_resources url (file w2)) "credentials"
 = Some []).
{ rewrite Hother2 by discriminate. rewrite Hc1, Hc. cbn.
now rewrite dels_all. }
assert (Hp2 : PyDict.get (get_instance_resources url (file w2)) "projects"
= PyDict.get (get_instance_resources url (file w)) "projects").
{ rewrite Hother2, Hother1 by discriminate. reflexivity. }
assert (Hkeep : forall projects,
PyDict.get (get_instance_resources url (file w)) "projects"
= Some projects ->
(forall id, project_id p = PStr id -> id <> EmptyString ->
PyDict.mem id projects = false) ->
forall stats0 w0,
(Cleaned {| workflows_deleted := length (PyDict.keys workflows);
workflows_failed := 0;
credentials_deleted := length (PyDict.keys credentials);
credentials_failed := 0 |}, w2) = (Cleaned stats0, w0) ->
workflows_failed stats0 = 0 /\ credentials_failed stats0 = 0
/\ workflows_deleted stats0 = length (PyDict.keys workflows)
/\ credentials_deleted stats0 = length (PyDict.keys credentials)
/\ match PyDict.get (get_instance_resources url (file w0)) "workflows" with
 | Some resources => PyDict.keys resources
 | None => []
 end = []
/\ match PyDict.get (get_instance_resources url (file w0)) "credentials" with
 | Some resources => PyDict.keys resources
 | None => []
 end = []
/\ (forall id, project_id p = PStr id -> id <> EmptyString ->
~ In id match PyDict.get (get_instance_resources url (file w0))
"projects" with
| Some resources => PyDict.keys resources
| None => []
end)).
{ intros projects Hp Hnot stats0 w0 [= <- <-]. cbn.
rewrite Hw2', Hc2', Hp2, Hp. repeat split; try reflexivity.
intros id Hid Hne. apply mem_false. now apply Hnot. }
destruct (Py.truthy (project_id p)) eqn:Etruthy.
- destruct (PyDict.get (get_instance_resources url (file w)) "projects")
as [projects|] eqn:Hp; [|discriminate].
destruct (project_id p) as [| | |id| |] eqn:Eid; cbn [Py.in_mapping];
try discriminate;
try (apply (Hkeep projects eq_refl); intros; discriminate).
destruct (PyDict.mem id projects) eqn:Emem.
+ destruct (delete_then_forget_succeeds (ProjectAt (PStr id))
"projects" id w2) as (w3 & E3 & Hfile3).
fold (delete_project remote url id) in E3. rewrite E3.
intros [= <- <-]. cbn.
destruct (forget_effect url "projects" id w3) as (Hsame3 & Hother3 & _).
unfold list_for in *. rewrite !Hfile3 in *.
rewrite !Hother3 by discriminate. rewrite Hw2', Hc2', Hsame3, Hp2.
repeat split; try reflexivity.
intros id' [= <-] _ Hin.
exact (proj1 (get_None (PyDict.del projects id) id)
 (get_del_same projects id) Hin).
+ apply (Hkeep projects eq_refl). now intros id' [= <-] _.
- destruct (PyDict.get (get_instance_resources url (file w)) "projects")
as [projects|] eqn:Hp.
+ apply (Hkeep projects eq_refl). intros id Hid Hne.
rewrite Hid in Etruthy. cbn in Etruthy.
apply negb_false_iff, String.eqb_eq in Etruthy. contradiction.
+ intros [= <- <-]. cbn. rewrite Hw2', Hc2', Hp2.
repeat split; try reflexivity. intros id _ _ [].
}
destruct workflows, credentials; try exact Hmain. discriminate.
Qed.
End AllDeleted.

(** The theorem on the sample platform and the sample ledger. *)
Lemma cleanup_complete_witness :
  let outcome :=
    perform_cleanup Sample.remote Sample.instance_url Sample.the_project "yes"
      Sample.tracked_world in
  tracked_ids Sample.instance_url "workflows" (file (snd outcome)) = []
  /\ tracked_ids Sample.instance_url "credentials" (file (snd outcome)) = []
  /\ ~ In "P1"%string
         (tracked_ids Sample.instance_url "projects" (file (snd outcome))).
Proof.
  intros outcome.
  assert (Hremote : forall history r, method r = DELETE ->
            exists reply, Sample.remote history r = Ok reply
                          /\ status_code reply = 200%Z).
  { intros history [m u t b] Hm. cbn in Hm. subst m.
    eexists. unfold Sample.remote. cbn. split; reflexivity. }
  destruct (cleanup_complete Sample.remote Sample.instance_url Hremote
              Sample.the_project "yes" Sample.tracked_world (snd outcome)
              {| workflows_deleted := 1; workflows_failed := 0;
                 credentials_deleted := 1; credentials_failed := 0 |}
              eq_refl)
    as (_ & _ & _ & _ & Hw & Hc & Hp).
  split; [exact Hw|]. split; [exact Hc|].
  apply Hp; [reflexivity | discriminate].
Defined.

(** ** Creating a workflow: what is sent and what is recorded *)

Ltac split_cases E :=
  repeat (match type of E with
          | context [match ?x with _ => _ end] =>
              lazymatch x with
              | context [match _ with _ => _ end] => fail
              | _ => idtac
              end;
              let H := fresh "Hcase" in
              destruct x eqn:H; cbv beta iota zeta in E
          end).

Ltac split_create_workflow E :=
  unfold create_workflow in E; cbv beta iota zeta delta [send] in E;
  split_cases E; injection E as <- <-.

Lemma saved_log (url t : string) (id name : value) (w : world) :
  log (save_resource_mapping url t id name w) = log w
  \/ log (save_resource_mapping url t id name w)
     = log w ++ [Saved url t id name].
Proof.
  unfold save_resource_mapping.
  destruct (record_in url t id name (file w)); [now right | now left].
Qed.

Lemma saved_file (url t : string) (id name : value) (w : world) :
  file (save_resource_mapping url t id name w) <> file w ->
  log (save_resource_mapping url t id name w) = log w ++ [Saved url t id name].
Proof.
  unfold save_resource_mapping.
  destruct (record_in url t id name (file w)); [reflexivity | congruence].
Qed.

(** A call of [create_workflow] that returns has sent one creation
    request. *)
Lemma create_workflow_one_creation (remote : transport) (json : json_module)
    (url : string) (creds_file : option creds_config) (workflow_data : value)
    (project_id : value) (credential_mapping sf_id_mapping : PyDict.dict value)
    (env_type : string) (supports_projects : bool) (w : world) :
  let outcome :=
    create_workflow remote json url creds_file workflow_data project_id
      credential_mapping sf_id_mapping env_type supports_projects w in
  exists new,
    log (snd outcome) = log w ++ new
    /\ (forall v, fst outcome = Ok v ->
                  length (creations (requests_of new)) = 1).
Proof.
  intros outcome. subst outcome.
  destruct (create_workflow remote json url creds_file workflow_data project_id
              credential_mapping sf_id_mapping env_type supports_projects w)
    as [returned w'] eqn:E.
  cbn [fst snd]. split_create_workflow E.
  all: unfold save_resource_mapping;
    try match goal with
        | |- context [record_in ?u ?t ?i ?n ?f] =>
            destruct (record_in u t i n f)
        end;
    cbn [file log].
  all: first [ eexists; split; [rewrite <- ?app_assoc; cbn [app]; reflexivity|]
             | exists []; split; [now rewrite app_nil_r|] ].
  all: intros ?v Hv; first [discriminate Hv | reflexivity].
Qed.

(** X8.  [create_workflow] raises only when the rewrite of the definition
    raises, and has then sent and written nothing.  Otherwise it sends
    exactly one creation request.  It writes to the ledger only a record of
    the workflow it returns, filed under [workflows] for its instance, and
    only after the creation was answered with status 200 and, on a target
    with projects, the transfer of that workflow with status 200 or 204. *)
Theorem create_workflow_ledger (remote : transport) (json : json_module)
    (url : string) (creds_file : option creds_config) (workflow_data : value)
    (project_id : value) (credential_mapping sf_id_mapping : PyDict.dict value)
    (env_type : string) (supports_projects : bool) (w : world) :
  let outcome :=
    create_workflow remote json url creds_file workflow_data project_id
      credential_mapping sf_id_mapping env_type supports_projects w in
  exists new,
    log (snd outcome) = log w ++ new
    /\ (forall e, fst outcome = Raise e <->
                  rewrite json creds_file env_type credential_mapping
                          sf_id_mapping workflow_data = Raise e)
    /\ (forall e, fst outcome = Raise e -> snd outcome = w)
    /\ (forall v, fst outcome = Ok v ->
                  length (creations (requests_of new)) = 1)
    /\ (forall u t id name,
           In (Saved u t id name) new ->
           u = url /\ t = "workflows"%string /\ fst outcome = Ok id
           /\ (exists r created,
                  In (Sent r (Ok created)) new /\ method r = POST
                  /\ target r = Workflows /\ status_code created = 200%Z)
           /\ (supports_projects = true ->
               exists r tr,
                 In (Sent r (Ok tr)) new /\ method r = PUT
                 /\ target r = TransferOf id
                 /\ (status_code tr = 200%Z \/ status_code tr = 204%Z)))
    /\ (file (snd outcome) <> file w ->
        exists id name, In (Saved url "workflows" id name) new).
Proof.
  intros outcome. subst outcome.
  destruct (create_workflow remote json url creds_file workflow_data project_id
              credential_mapping sf_id_mapping env_type supports_projects w)
    as [returned w'] eqn:E.
  cbn [fst snd]. split_create_workflow E.
  all: unfold save_resource_mapping;
    try match goal with
        | |- context [record_in ?u ?t ?i ?n ?f] =>
            destruct (record_in u t i n f) eqn:Hrecord
        end;
    cbn [file log].
  all: first [ eexists; split; [rewrite <- ?app_assoc; cbn [app]; reflexivity|]
             | exists []; split; [now rewrite app_nil_r|] ].
  all: split; [intros ?e; split; intros He; congruence|].
  all: split; [intros ?e He; first [congruence | reflexivity]|].
  all: split; [intros ?v Hv; first [discriminate Hv | reflexivity]|].
  all: split; [|intros Hfile; first [now contradiction Hfile
                                    | do 2 eexists; cbn; now eauto 6]].
  all: intros u t id name Hin; cbn [In] in Hin;
    repeat (destruct Hin as [Hin|Hin]; [try discriminate Hin|]);
    try contradiction.
  all: injection Hin as <- <- <- <-.
  all: repeat match goal with
              | H : negb _ = false |- _ =>
                  apply negb_false_iff, Z.eqb_eq in H
              | H : (_ || _)%bool = true |- _ =>
                  apply orb_true_iff in H; rewrite !Z.eqb_eq in H
              end.
  all: split; [reflexivity|]; split; [reflexivity|]; split; [reflexivity|].
  all: split; [do 2 eexists; split; [left; reflexivity|]; now repeat split|].
  all: intros Hsp; try discriminate Hsp.
  all: do 2 eexists; split; [right; left; reflexivity|]; now repeat split.
Qed.

(** ** Restore: what holds along the way *)

Section RestoreInvariant.
Variables (remote : transport) (json : json_module) (url : string).
Variable along : world -> world -> Prop.
Hypothesis along_refl : forall w, along w w.
Hypothesis along_trans : forall w1 w2 w3, along w1 w2 -> along w2 w3 -> along w1 w3.
Hypothesis along_send :
forall r w, base_url r = url -> along w (snd (send remote r w)).
Hypothesis along_save :
forall t id name w, along w (save_resource_mapping url t id name w).

Ltac send_step E :=
match type of E with
| context [send ?rm ?r ?w0] =>
let H := fresh "Hsend" in
pose proof (along_send r w0 eq_refl) as H;
destruct (send rm r w0) as [? ?]; cbn [snd] in H;
cbv beta iota zeta in E
end.

Ltac case_step E :=
match type of E with
| context [match ?x with _ => _ end] =>
lazymatch x with
| context [match _ with _ => _ end] => fail
| context [send _ _ _] => fail
| _ => idtac
end;
destruct x; cbv beta iota zeta in E
end.

Ltac along_cases E := repeat first [send_step E | case_step E].

Lemma create_credential_along (creds_file : option creds_config)
(decl : credential_declaration) (env_postfix : string) (w : world) :
along w (snd (create_credential remote url creds_file decl env_postfix w)).
Proof.
destruct (create_credential remote url creds_file decl env_postfix w)
as [returned w'] eqn:E.
cbn [snd]. unfold create_credential in E. cbv beta iota zeta in E.
along_cases E; injection E as <- <-; eauto.
Qed.

Lemma create_credentials_along (creds_file : option creds_config)
(env_postfix : string) (declarations : PyDict.dict credential_declaration) :
forall (credential_mapping : PyDict.dict value) (w : world),
along w (snd (create_credentials remote url creds_file env_postfix
declarations credential_mapping w)).
Proof.
induction declarations as [|[cred_key cred_data] rest IH];
intros credential_mapping w; [apply along_refl|].
cbn [create_credentials].
pose proof (create_credential_along creds_file cred_data env_postfix w) as Hone.
destruct (create_credential remote url creds_file cred_data env_postfix w)
as [new_cred_id w1]. cbn [snd] in Hone.
destruct (Py.truthy new_cred_id).
- specialize (IH (PyDict.set (PyDict.set credential_mapping cred_key new_cred_id)
(decl_name cred_data) new_cred_id) w1).
destruct (create_credentials remote url creds_file env_postfix rest _ w1)
as [[[m created] failed] w2].
cbn [snd] in *. eauto.
- specialize (IH credential_mapping w1).
destruct (create_credentials remote url creds_file env_postfix rest _ w1)
as [[[m created] failed] w2].
cbn [snd] in *. eauto.
Qed.

Lemma create_workflow_along (creds_file : option creds_config)
(workflow_data project_id : value)
(credential_mapping sf_id_mapping : PyDict.dict value) (env_type : string)
(supports_projects : bool) (w : world) :
along w (snd (create_workflow remote json url creds_file workflow_data
project_id credential_mapping sf_id_mapping env_type
supports_projects w)).
Proof.
destruct (create_workflow remote json url creds_file workflow_data project_id
credential_mapping sf_id_mapping env_type supports_projects w)
as [returned w'] eqn:E.
cbn [snd]. unfold create_workflow in E. cbv beta iota zeta in E.
along_cases E; injection E as <- <-; eauto.
Qed.

Lemma create_workflows_along (creds_file : option creds_config)
(workflows : list value) (project_id : value)
(credential_mapping : PyDict.dict value) (env_type : string)
(supports_projects : bool) (workflow_order : list string) :
forall (workflow_mapping : PyDict.dict value) (w : world),
along w (snd (create_workflows remote json url creds_file workflows
project_id credential_mapping env_type supports_projects
workflow_order workflow_mapping w)).
Proof.
induction workflow_order as [|workflow_id rest IH];
intros workflow_mapping w; [apply along_refl|].
cbn [create_workflows].
destruct (workflow_with_id workflows workflow_id) as [workflow_data|];
[|apply along_refl].
pose proof (create_workflow_along creds_file workflow_data project_id
credential_mapping workflow_mapping env_type
supports_projects w) as Hone.
destruct (create_workflow remote json url creds_file workflow_data project_id
credential_mapping workflow_mapping env_type supports_projects w)
as [r w1]. cbn [snd] in Hone.
destruct r as [new_id|e]; [|exact Hone].
specialize (IH (if Py.truthy new_id
then PyDict.set workflow_mapping workflow_id new_id
else workflow_mapping) w1).
destruct (create_workflows remote json url creds_file workflows project_id
credential_mapping env_type supports_projects rest _ w1)
as [r' w2]. cbn [snd] in IH.
assert (along w w2) by eauto.
destruct r' as [[created failed]|e]; [|assumption].
now destruct (Py.truthy new_id).
Qed.

Lemma perform_restore_along (p : project) (supports_projects : bool)
(target_env : string) (cfg : creds_config)
(creds_file : option creds_config) (workflows : list value) (w : world) :
along w (snd (perform_restore remote json url p supports_projects target_env
cfg creds_file workflows w)).
Proof.
unfold perform_restore.
destruct (PyDict.get (environments cfg) target_env) as [env_data|];
[|apply along_refl].
cbv zeta.
pose proof (create_credentials_along creds_file
(PyStr.strip (env_postfix env_data))
(env_credentials env_data) [] w) as Hcreds.
destruct (create_credentials remote url creds_file
(PyStr.strip (env_postfix env_data))
(env_credentials env_data) [] w)
as [[[credential_mapping cc] cf] w1].
cbn [snd] in Hcreds.
destruct (build_dependency_graph workflows) as [g|]; [|exact Hcreds].
destruct (workflow_order_of g) as [workflow_order|]; [|exact Hcreds].
pose proof (create_workflows_along creds_file workflows (project_id p)
credential_mapping target_env supports_projects
workflow_order [] w1) as Hflows.
destruct (create_workflows remote json url creds_file workflows
(project_id p) credential_mapping target_env supports_projects
workflow_order [] w1) as [r w2].
cbn [snd] in Hflows. assert (along w w2) by eauto.
now destruct r as [[wc wf]|e].
Qed.
End RestoreInvariant.

Lemma send_confined (remote : transport) (url : string) (r : request) (w : world) :
  base_url r = url -> confined url w (snd (send remote r w)).
Proof.
  intros Hr. unfold send. cbn [snd]. split.
  - now apply grows_one.
  - now apply others_kept_file.
Qed.

Lemma confined_trans (url : string) (w1 w2 w3 : world) :
  confined url w1 w2 -> confined url w2 w3 -> confined url w1 w3.
Proof.
  intros (Hg1 & Hk1) (Hg2 & Hk2).
  split; [eapply grows_trans | eapply others_kept_trans]; eassumption.
Qed.

(** X9.  Whatever the platform answers, a restore into the instance at [url]
    sends requests to that instance only, writes to the ledger only records
    filed under that instance, never removes a ledger entry, and leaves what
    the ledger holds for every other instance as it was. *)
Theorem restore_confined (remote : transport) (json : json_module)
    (url : string) (p : project) (supports_projects : bool)
    (target_env : string) (cfg : creds_config)
    (creds_file : option creds_config) (workflows : list value) (w : world) :
  let w' := snd (perform_restore remote json url p supports_projects target_env
                   cfg creds_file workflows w) in
  confined url w w'
  /\ grows (fun e => match e with Removed _ _ _ => False | _ => True end) w w'.
Proof.
  intros w'. subst w'. split.
  - apply perform_restore_along.
    + intros w0. split; [apply grows_refl | apply others_kept_refl].
    + apply confined_trans.
    + apply send_confined.
    + intros t id name w0. split;
        [now apply save_grows | apply save_others_kept].
  - apply perform_restore_along.
    + apply grows_refl.
    + apply grows_trans.
    + intros r w0 _. unfold send. cbn [snd]. now apply grows_one.
    + intros t id name w0. now apply save_grows.
Qed.

(** ** Restore with a ledger that cannot be read *)

Lemma save_unreadable (url t : string) (id name : value) (w : world) :
  file w = Unreadable -> save_resource_mapping url t id name w = w.
Proof.
  intros H. unfold save_resource_mapping, record_in. now rewrite H.
Qed.

(** X10.  When [resource_mapping.json] exists but is not a JSON document,
    every ledger write of a restore fails and is only reported: the restore
    goes on creating resources on the platform, none of them is recorded, the
    file stays as it is, and a cleanup afterwards finds nothing to delete. *)
Theorem restore_with_unreadable_ledger (remote : transport)
    (json : json_module) (url : string) (p : project)
    (supports_projects : bool) (target_env : string) (cfg : creds_config)
    (creds_file : option creds_config) (workflows : list value) (w : world) :
  file w = Unreadable ->
  let w' := snd (perform_restore remote json url p supports_projects target_env
                   cfg creds_file workflows w) in
  file w' = Unreadable
  /\ grows (fun e => match e with Sent _ _ => True | _ => False end) w w'
  /\ forall confirm,
       snd (perform_cleanup remote url p confirm w') = w'
       /\ (fst (perform_cleanup remote url p confirm w') = Cancelled
           \/ fst (perform_cleanup remote url p confirm w') = NothingTracked).
Proof.
  intros Hfile w'.
  assert (Halong : file w = Unreadable ->
            file w' = Unreadable
            /\ grows (fun e => match e with Sent _ _ => True | _ => False end)
                     w w').
  { subst w'.
    apply (perform_restore_along remote json url
             (fun w1 w2 => file w1 = Unreadable ->
                file w2 = Unreadable
                /\ grows (fun e => match e with Sent _ _ => True | _ => False end)
                         w1 w2)).
    - intros w0 H. split; [assumption | apply grows_refl].
    - intros w1 w2 w3 H12 H23 H1. destruct (H12 H1) as (H2 & Hg12).
      destruct (H23 H2) as (H3 & Hg23). split; [assumption|].
      eapply grows_trans; eassumption.
    - intros r w0 _ H. unfold send. cbn [snd file]. split; [assumption|].
      now apply grows_one.
    - intros t id name w0 H. rewrite (save_unreadable url t id name w0 H).
      split; [assumption | apply grows_refl]. }
  destruct (Halong Hfile) as (Hfile' & Hgrows).
  split; [assumption|]. split; [assumption|].
  intros confirm. unfold perform_cleanup.
  destruct (negb (String.eqb (PyStr.lower confirm) "yes")); cbn [fst snd];
    [now split; [|left]|].
  rewrite Hfile'. cbn. now split; [|right].
Qed.

Lemma restore_with_unreadable_ledger_witness :
  let w := {| file := Unreadable; log := [] |} in
  let w' := snd (perform_restore Sample.remote RefJson.module Sample.instance_url
                   Sample.the_project true "development" Sample.config
                   (Some Sample.config) [Sample.w2; Sample.w1] w) in
  file w' = Unreadable
  /\ length (creations (requests_of (log w'))) = 2
  /\ fst (perform_cleanup Sample.remote Sample.instance_url Sample.the_project
            "yes" w') = NothingTracked.
Proof.
  intros w w'.
  destruct (restore_with_unreadable_ledger Sample.remote RefJson.module
              Sample.instance_url Sample.the_project true "development"
              Sample.config (Some Sample.config) [Sample.w2; Sample.w1] w
              eq_refl)
    as (Hfile & _ & Hcleanup).
  split; [exact Hfile|]. split; [reflexivity|].
  destruct (Hcleanup "yes"%string) as (_ & [H|H]); [|exact H].
  discriminate H.
Defined.

(** ** Restore: the counts of the summary *)

Lemma creations_app (l1 l2 : list request) :
  creations (l1 ++ l2) = creations l1 ++ creations l2.
Proof. unfold creations. apply filter_app. Qed.

Lemma create_credentials_count (remote : transport) (url : string)
    (creds_file : option creds_config) (env_postfix : string)
    (declarations : PyDict.dict credential_declaration) :
  forall (credential_mapping : PyDict.dict value) (w : world),
    let '(_, created, failed, _) :=
      create_credentials remote url creds_file env_postfix declarations
                         credential_mapping w in
    created + failed = length declarations.
Proof.
  induction declarations as [|[cred_key cred_data] rest IH];
    intros credential_mapping w; [reflexivity|].
  cbn [create_credentials length].
  destruct (create_credential remote url creds_file cred_data env_postfix w)
    as [new_cred_id w1].
  destruct (Py.truthy new_cred_id).
  - specialize (IH (PyDict.set (PyDict.set credential_mapping cred_key new_cred_id)
                      (decl_name cred_data) new_cred_id) w1).
    destruct (create_credentials remote url creds_file env_postfix rest _ w1)
      as [[[m created] failed] w2]. lia.
  - specialize (IH credential_mapping w1).
    destruct (create_credentials remote url creds_file env_postfix rest _ w1)
      as [[[m created] failed] w2]. lia.
Qed.

Lemma create_workflows_count (remote : transport) (json : json_module)
    (url : string) (creds_file : option creds_config) (workflows : list value)
    (project_id : value) (credential_mapping : PyDict.dict value)
    (env_type : string) (supports_projects : bool)
    (workflow_order : list string) :
  forall (workflow_mapping : PyDict.dict value) (w w' : world)
         (created failed : nat),
    create_workflows remote json url creds_file workflows project_id
      credential_mapping env_type supports_projects workflow_order
      workflow_mapping w = (Ok (created, failed), w') ->
    created + failed = length workflow_order
    /\ exists new, log w' = log w ++ new
                   /\ length (creations (requests_of new))
                      = length workflow_order.
Proof.
  induction workflow_order as [|workflow_id rest IH];
    intros workflow_mapping w w' created failed H.
  - injection H as <- <- <-. split; [reflexivity|].
    exists []. split; [now rewrite app_nil_r | reflexivity].
  - cbn [create_workflows] in H.
    destruct (workflow_with_id workflows workflow_id) as [workflow_data|];
      [|discriminate].
    destruct (create_workflow_one_creation remote json url creds_file workflow_data
                project_id credential_mapping workflow_mapping env_type
                supports_projects w)
      as (new1 & Hlog1 & Hone).
    destruct (create_workflow remote json url creds_file workflow_data project_id
                credential_mapping workflow_mapping env_type supports_projects w)
      as [r w1].
    cbn [fst snd] in Hlog1, Hone.
    destruct r as [new_id|e]; [|discriminate].
    specialize (Hone new_id eq_refl).
    destruct (create_workflows remote json url creds_file workflows project_id
                credential_mapping env_type supports_projects rest _ w1)
      as [r' w2] eqn:Erest.
    destruct r' as [[created' failed']|e]; [|discriminate].
    destruct (IH _ _ _ _ _ Erest) as (Hsum & new2 & Hlog2 & Htwo).
    assert (Hlogs : exists new, log w2 = log w ++ new
                     /\ length (creations (requests_of new))
                        = length (workflow_id :: rest)).
    { exists (new1 ++ new2). split.
      - now rewrite Hlog2, Hlog1, app_assoc.
      - rewrite requests_of_app, creations_app, length_app, Hone, Htwo.
        reflexivity. }
    destruct (Py.truthy new_id); injection H as <- <- <-;
      (split; [cbn [length]; lia | exact Hlogs]).
Qed.

Lemma order_permutation (g : graph) (order : list string) :
  PyDict.wf g -> get_workflow_order g = Order order ->
  Permutation order (PyDict.keys g).
Proof.
  intros Hwf E.
  assert (Hac : acyclic g).
  { intros a Ha. rewrite (get_workflow_order_cyclic g Hwf) in E;
      [discriminate | now exists a]. }
  pose proof (get_workflow_order_layered g (level g)
                (level_is_level g Hwf Hac)) as E'.
  rewrite E in E'. injection E' as ->. apply layered_Permutation.
Qed.

Lemma credential_events_no_creation (new : list event) :
  Forall credential_event new -> creations (requests_of new) = [].
Proof.
  induction 1 as [|e new He _ IH]; [reflexivity|].
  destruct e as [r reply|u t id name|u t id]; cbn in *; try assumption.
  destruct He as (_ & Ht). rewrite Ht.
  destruct (method r); assumption.
Qed.

(** X11.  When a restore reaches its summary, the counts add up: every
    declared credential of the environment is counted as created or failed,
    every workflow id of the backup is counted as created or failed, and the
    restore has sent exactly one creation request for each workflow id. *)
Theorem restore_counts (remote : transport) (json : json_module)
    (url : string) (p : project) (supports_projects : bool)
    (target_env : string) (cfg : creds_config)
    (creds_file : option creds_config) (workflows : list value)
    (w w' : world) (stats : restore_stats) :
  perform_restore remote json url p supports_projects target_env cfg
                  creds_file workflows w = (Restored stats, w') ->
  exists env_data g,
    PyDict.get (environments cfg) target_env = Some env_data
    /\ build_dependency_graph workflows = Ok g
    /\ restored_credentials stats + failed_credentials stats
       = length (env_credentials env_data)
    /\ restored_workflows stats + failed_workflows stats
       = length (PyDict.keys g)
    /\ exists new, log w' = log w ++ new
                   /\ length (creations (requests_of new))
                      = length (PyDict.keys g).
Proof.
  unfold perform_restore. intros H.
  destruct (PyDict.get (environments cfg) target_env) as [env_data|];
    [|discriminate].
  cbv zeta in H.
  pose proof (create_credentials_count remote url creds_file
                (PyStr.strip (env_postfix env_data))
                (env_credentials env_data) [] w) as Hcount.
  pose proof (create_credentials_only remote url creds_file
                (PyStr.strip (env_postfix env_data))
                (env_credentials env_data) [] w) as Honly.
  destruct (create_credentials remote url creds_file
              (PyStr.strip (env_postfix env_data))
              (env_credentials env_data) [] w)
    as [[[credential_mapping cc] cf] w1].
  cbn [snd] in Honly. destruct Honly as ((new1 & Hlog1 & Hnew1) & _).
  destruct (build_dependency_graph workflows) as [g|] eqn:Hgraph;
    [|discriminate].
  unfold workflow_order_of in H.
  destruct (get_workflow_order g) as [order| |] eqn:Horder; try discriminate.
  destruct (create_workflows remote json url creds_file workflows
              (project_id p) credential_mapping target_env supports_projects
              order [] w1) as [r w2] eqn:Eflows.
  destruct r as [[wc wf]|e]; [|discriminate].
  injection H as <- <-.
  destruct (create_workflows_count _ _ _ _ _ _ _ _ _ _ _ _ _ _ _ Eflows)
    as (Hsum & new2 & Hlog2 & Hcreations).
  pose proof (Permutation_length
                (order_permutation g order
                   (build_dependency_graph_wf _ _ Hgraph) Horder)) as Hlen.
  exists env_data, g. cbn.
  split; [reflexivity|]. split; [reflexivity|]. split; [assumption|].
  split; [lia|].
  exists (new1 ++ new2). split.
  - now rewrite Hlog2, Hlog1, app_assoc.
  - rewrite requests_of_app, creations_app, length_app,
      (credential_events_no_creation new1 Hnew1), Hcreations. cbn. lia.
Qed.

Lemma restore_counts_witness :
  exists stats w',
    perform_restore Sample.remote RefJson.module Sample.instance_url
      Sample.the_project true "development" Sample.config
      (Some Sample.config) [Sample.w2; Sample.w1] Sample.fresh
    = (Restored stats, w')
    /\ restored_workflows stats + failed_workflows stats = 2
    /\ restored_credentials stats + failed_credentials stats = 1.
Proof.
  eexists. eexists. split; [reflexivity|].
  destruct (restore_counts Sample.remote RefJson.module Sample.instance_url
              Sample.the_project true "development" Sample.config
              (Some Sample.config) [Sample.w2; Sample.w1] Sample.fresh
              _ _ eq_refl)
    as (env_data & g & Henv & Hgraph & Hcreds & Hflows & _).
  injection Hgraph as <-. injection Henv as <-.
  split; [exact Hflows | exact Hcreds].
Defined.

(** ** The rewrite and the dependency analysis agree *)








(** ** What the rewrite of a node leaves alone *)

Lemma resolve_credentials_keys (cm n n1 : PyDict.dict value) :
  resolve_credentials cm n = Ok n1 -> PyDict.keys n1 = PyDict.keys n.
Proof.
  unfold resolve_credentials. intros H.
  destruct (PyDict.get n "credentials") as [credentials|] eqn:E;
    [|now injection H as <-].
  destruct credentials as [| | | | |credentials]; try discriminate H.
  destruct (for_each _ credentials) as [resolved|]; [|discriminate H].
  cbn [bind] in H. injection H as <-.
  now rewrite keys_set, (get_Some_mem _ _ _ E).
Qed.

Lemma set_parameters_frame (n : PyDict.dict value) (params params' : value) :
  PyDict.get n "parameters" = Some params ->
  PyDict.keys (PyDict.set n "parameters" params') = PyDict.keys n
  /\ forall k, k <> "parameters"%string ->
       PyDict.get (PyDict.set n "parameters" params') k = PyDict.get n k.
Proof.
  intros E. split.
  - now rewrite keys_set, (get_Some_mem _ _ _ E).
  - intros k Hk. now apply get_set_other.
Qed.

Lemma remap_node_frame (sm n n' : PyDict.dict value) :
  remap_node sm n = Ok n' ->
  PyDict.keys n' = PyDict.keys n
  /\ forall k, k <> "parameters"%string -> PyDict.get n' k = PyDict.get n k.
Proof.
  intros H.
  assert (Hsame : Ok n = Ok n' ->
            PyDict.keys n' = PyDict.keys n
            /\ forall k, k <> "parameters"%string ->
                 PyDict.get n' k = PyDict.get n k)
    by (intros [= <-]; now split).
  unfold remap_node in H.
  destruct (has_type n execute_workflow_type
            && match sm with [] => false | _ :: _ => true end).
  - unfold remap_execute, Py.get_default in H. cbn [Py.get bind] in H.
    destruct (PyDict.get n "parameters") as [params|] eqn:Eparams;
      [|now apply Hsame].
    destruct params as [| | | | |params]; try discriminate H.
    cbn [Py.get bind] in H.
    destruct (PyDict.get params "workflowId") as [workflow_id|];
      [|now apply Hsame].
    destruct workflow_id as [| | |old| |ref]; try (now apply Hsame).
    + destruct (PyDict.mem old sm); [|now apply Hsame].
      destruct (mapping_item sm (PStr old)) as [new_id|]; [|discriminate H].
      cbn [bind set_item] in H. injection H as <-.
      now apply (set_parameters_frame n (PDict params)).
    + destruct (remap_reference sm ref) as [ref'|]; [|discriminate H].
      cbn [bind set_item] in H. injection H as <-.
      now apply (set_parameters_frame n (PDict params)).
  - destruct (has_type n tool_workflow_type
              && match sm with [] => false | _ :: _ => true end);
      [|now apply Hsame].
    unfold remap_tool, Py.get_default in H. cbn [Py.get bind] in H.
    destruct (PyDict.get n "parameters") as [params|] eqn:Eparams;
      [|now apply Hsame].
    destruct params as [| | | | |params]; try discriminate H.
    cbn [Py.get bind] in H.
    destruct (PyDict.get params "workflowId") as [workflow_id|];
      [|now apply Hsame].
    destruct workflow_id as [| | | | |ref]; try (now apply Hsame).
    destruct (remap_reference sm ref) as [ref'|]; [|discriminate H].
    cbn [bind set_item] in H. injection H as <-.
    now apply (set_parameters_frame n (PDict params)).
Qed.

(** X13.  The rewrite of a node in [create_workflow] touches nothing but its
    [credentials] and its [parameters]: the rewritten node is a dictionary
    with the same keys in the same order, and every other field (name, type,
    position, ...) has the value it had. *)
Theorem rewrite_node_frame (cm sm n : PyDict.dict value) (node' : value) :
  rewrite_node cm sm (PDict n) = Ok node' ->
  exists n',
    node' = PDict n'
    /\ PyDict.keys n' = PyDict.keys n
    /\ forall k, k <> "credentials"%string -> k <> "parameters"%string ->
         PyDict.get n' k = PyDict.get n k.
Proof.
  intros H.
  destruct (rewrite_node_dict cm sm n node' H) as (n1 & n' & Hframe & Hremap & ->).
  destruct (remap_node_frame sm n1 n' Hremap) as (Hkeys & Hother).
  exists n'. split; [reflexivity|]. split.
  - rewrite Hkeys. unfold rewrite_node in H. cbn [Py.str_in bind] in H.
    destruct (PyDict.mem "credentials" n).
    + destruct (resolve_credentials cm n) as [resolved|] eqn:Eres;
        [|discriminate H].
      cbn [bind] in H. rewrite <- (resolve_credentials_keys cm n resolved Eres).
      destruct (remap_node sm resolved) as [remapped|] eqn:Eremap;
        [|discriminate H].
      cbn [bind] in H. injection H as <-.
      destruct (remap_node_frame sm resolved remapped Eremap) as (Hk & _).
      now rewrite <- Hk, Hkeys.
    + cbn [bind] in H.
      destruct (remap_node sm n) as [remapped|] eqn:Eremap; [|discriminate H].
      cbn [bind] in H. injection H as <-.
      destruct (remap_node_frame sm n remapped Eremap) as (Hk & _).
      now rewrite <- Hk, Hkeys.
  - intros k Hc Hp. now rewrite Hother, Hframe.
Qed.

Lemma rewrite_node_frame_witness :
  exists n',
    Sample.rewritten Sample.tool_object = PDict n'
    /\ PyDict.keys n' = ["name"; "type"; "parameters"]%string
    /\ PyDict.get n' "name" = Some (PStr "Lookup tool").
Proof.
  destruct (rewrite_node_frame [] Sample.workflow_mapping Sample.tool_object
              (Sample.rewritten Sample.tool_object) eq_refl)
    as (n' & Hnode & Hkeys & Hother).
  exists n'. split; [exact Hnode|]. split; [exact Hkeys|].
  rewrite Hother; [reflexivity | discriminate | discriminate].
Defined.

(** ** What the credential resolution writes *)

(** X14.  The resolution of a credential entry in [create_workflow] either
    leaves the entry as it is, or replaces its [id], and nothing else, by an
    identifier that the credential mapping holds under a key matching the
    entry's name (the empty name when the entry has none); an identifier that
    is empty or [None] is never written. *)
Theorem resolve_credential_spec (cm : PyDict.dict value)
    (cred_data resolved : value) :
  resolve_credential cm cred_data = Ok resolved ->
  resolved = cred_data
  \/ exists entry name key new_id,
       cred_data = PDict entry
       /\ match PyDict.get entry "name" with
          | Some v => v
          | None => PStr EmptyString
          end = PStr name
       /\ In (key, new_id) cm
       /\ credential_matches key (base_name_of name) = true
       /\ Py.truthy new_id = true
       /\ resolved = PDict (PyDict.set entry "id" new_id).
Proof.
  unfold resolve_credential, Py.get_default. intros H.
  destruct cred_data as [| | | | |entry]; try discriminate H.
  cbn [Py.get bind] in H.
  set (old_name := match PyDict.get entry "name" with
                   | Some v => v
                   | None => PStr EmptyString
                   end) in *.
  destruct old_name as [| | |name| |] eqn:Ename; cbn [Py.str_in bind] in H;
    try discriminate H.
  - destruct (find_credential cm
                (if PyStr.contains " " name then PyStr.split_first name
                 else name)) as [matching_cred|] eqn:Efind;
      [|left; congruence].
    destruct (Py.truthy matching_cred) eqn:Etruthy; [|left; congruence].
    cbn [set_item] in H. injection H as <-. right.
    unfold find_credential in Efind.
    destruct (find _ cm) as [[key new_id]|] eqn:Ef; [|discriminate Efind].
    injection Efind as <-. apply find_some in Ef. destruct Ef as (Hin & Hm).
    exists entry, name, key, new_id. repeat split; assumption.
  - destruct (existsb _ _); [discriminate H|].
    destruct cm; [left; congruence | discriminate H].
  - destruct (PyDict.mem " " _); [discriminate H|].
    destruct cm; [left; congruence | discriminate H].
Qed.

Lemma resolve_credential_spec_witness :
  exists resolved,
    resolve_credential [("slack_token", PStr "C1")]
      (PDict [("id", PStr "17"); ("name", PStr "Slack_Token Prod")])
    = Ok resolved
    /\ resolved = PDict [("id", PStr "C1"); ("name", PStr "Slack_Token Prod")].
Proof.
  eexists. split; [reflexivity|].
  destruct (resolve_credential_spec [("slack_token", PStr "C1")]
              (PDict [("id", PStr "17"); ("name", PStr "Slack_Token Prod")])
              _ eq_refl)
    as [H|(entry & name & key & new_id & _ & _ & _ & _ & _ & H)];
    [discriminate H | reflexivity].
Defined.

(** ** Menus *)

(** What [choose] skips and what it returns. *)
Lemma choose_spec (count : nat) (typed : list (option Z)) :
  match choose count typed with
  | Answered choice unread =>
      choice < count
      /\ exists skipped n,
           typed = skipped ++ Some n :: unread
           /\ Z.of_nat choice = (n - 1)%Z
           /\ Forall (fun line => match line with
                                  | Some m => ~ (1 <= m <= Z.of_nat count)%Z
                                  | None => True
                                  end) skipped
  | StillAsking =>
      Forall (fun line => match line with
                          | Some m => ~ (1 <= m <= Z.of_nat count)%Z
                          | None => True
                          end) typed
  | IndexOutOfRange => False
  end.
Proof.
  induction typed as [|line rest IH]; [constructor|].
  cbn [choose]. destruct line as [n|].
  - cbv zeta.
    destruct (Z.leb_spec 0 (n - 1)) as [Hlo|Hlo];
      destruct (Z.ltb_spec (n - 1) (Z.of_nat count)) as [Hhi|Hhi];
      cbn [andb].
    + split; [lia|]. exists [], n. repeat split; [lia | constructor].
    + destruct (choose count rest) as [choice unread| |]; [| |assumption].
      * destruct IH as (Hlt & skipped & m & -> & Hm & Hskipped).
        split; [assumption|]. exists (Some n :: skipped), m.
        repeat split; [assumption|]. constructor; [lia | assumption].
      * constructor; [lia | assumption].
    + destruct (choose count rest) as [choice unread| |]; [| |assumption].
      * destruct IH as (Hlt & skipped & m & -> & Hm & Hskipped).
        split; [assumption|]. exists (Some n :: skipped), m.
        repeat split; [assumption|]. constructor; [lia | assumption].
      * constructor; [lia | assumption].
    + destruct (choose count rest) as [choice unread| |]; [| |assumption].
      * destruct IH as (Hlt & skipped & m & -> & Hm & Hskipped).
        split; [assumption|]. exists (Some n :: skipped), m.
        repeat split; [assumption|]. constructor; [lia | assumption].
      * constructor; [lia | assumption].
  - destruct (choose count rest) as [choice unread| |]; [| |assumption].
    + destruct IH as (Hlt & skipped & m & -> & Hm & Hskipped).
      split; [assumption|]. exists (None :: skipped), m.
      repeat split; [assumption|]. constructor; [exact I | assumption].
    + constructor; [exact I | assumption].
Qed.

(** X15.  The numbered menus answer with an entry that exists.  [print_menu]
    returns the number typed on the first line that names an option, less
    one, skipping every line before it that is not a number or names no
    option; it returns nothing as long as no such line is typed, so that a
    menu without options is never left.  [select_project] and
    [select_server] index their list with that choice and never fail on it:
    the project returned is one of the projects, the server returned is the
    entry of [servers.yaml] under the name returned. *)
Theorem menus_in_range :
  (forall title options typed,
      match print_menu title options typed with
      | Answered choice unread =>
          choice < length options
          /\ exists skipped n,
               typed = skipped ++ Some n :: unread
               /\ Z.of_nat choice = (n - 1)%Z
               /\ Forall (fun line =>
                            match line with
                            | Some m => ~ (1 <= m <= Z.of_nat (length options))%Z
                            | None => True
                            end) skipped
      | StillAsking =>
          Forall (fun line =>
                    match line with
                    | Some m => ~ (1 <= m <= Z.of_nat (length options))%Z
                    | None => True
                    end) typed
      | IndexOutOfRange => False
      end)
  /\ (forall title typed, print_menu title [] typed = StillAsking)
  /\ (forall projects typed,
         match select_project projects typed with
         | Answered p _ => In p projects
         | StillAsking => True
         | IndexOutOfRange => False
         end)
  /\ (forall servers typed,
         match select_server servers typed with
         | Answered (name, s) _ => PyDict.get servers name = Some s
         | StillAsking => True
         | IndexOutOfRange => False
         end).
Proof.
  split; [|split; [|split]].
  - intros title options typed. apply choose_spec.
  - intros title typed. unfold print_menu.
    pose proof (choose_spec (length (@nil string)) typed) as H.
    destruct (choose (length (@nil string)) typed) as [choice unread| |];
      [|reflexivity|contradiction].
    cbn in H. lia.
  - intros projects typed. unfold select_project.
    pose proof (choose_spec (length projects) typed) as H.
    destruct (choose (length projects) typed) as [choice unread| |];
      [|exact I|exact H].
    destruct H as (Hlt & _).
    destruct (nth_error projects choice) as [p|] eqn:E.
    + now apply nth_error_In in E.
    + apply nth_error_None in E. lia.
  - intros servers typed. unfold select_server, print_menu. cbv zeta.
    rewrite length_map.
    pose proof (choose_spec (length (PyDict.keys servers)) typed) as H.
    destruct (choose (length (PyDict.keys servers)) typed)
      as [choice unread| |]; [|exact I|exact H].
    destruct H as (Hlt & _).
    destruct (nth_error (PyDict.keys servers) choice) as [name|] eqn:E.
    + apply nth_error_In, mem_In, mem_get_Some in E. destruct E as (s & E).
      now rewrite E.
    + apply nth_error_None in E. lia.
Qed.

(** Two servers; the user types a word, then 5, then 2. *)
Example select_second_server :
  let servers :=
    [("prod", {| server_name := "Production";
                 server_url := "https://n8n.example.com";
                 server_api_key := "k1"; server_supports_projects := true |});
     ("local", {| server_name := "Local";
                  server_url := "http://localhost:5678";
                  server_api_key := "k2"; server_supports_projects := false |})] in
  match select_server servers [None; Some 5%Z; Some 2%Z; Some 1%Z] with
  | Answered (name, s) unread =>
      name = "local"%string /\ server_name s = "Local"%string
      /\ unread = [Some 1%Z]
  | _ => False
  end.
Proof. cbn. repeat split. Qed.

(** ** The name of a backup directory *)

Lemma name_char_not_space (c : ascii) :
  name_char c = true -> Ascii.eqb c " " = false.
Proof.
  destruct c as [[] [] [] [] [] [] [] []]; intros H;
    first [reflexivity | discriminate H].
Qed.

Lemma name_char_not_whitespace (c : ascii) :
  name_char c = true -> PyStr.is_whitespace c = false.
Proof.
  destruct c as [[] [] [] [] [] [] [] []]; intros H;
    first [reflexivity | discriminate H].
Qed.

Lemma kept_not_space (c : ascii) :
  kept_in_name c = true -> Ascii.eqb c " " = false -> name_char c = true.
Proof.
  unfold kept_in_name, name_char. intros H Hs. rewrite Hs in H.
  now rewrite orb_false_r in H.
Qed.

Lemma name_char_kept (c : ascii) : name_char c = true -> kept_in_name c = true.
Proof.
  unfold kept_in_name, name_char. intros H.
  destruct (isalnum c), (Ascii.eqb c "-"), (Ascii.eqb c "_"),
    (Ascii.eqb c " "); first [reflexivity | discriminate H].
Qed.

Lemma replace_from_space (s : string) :
  list_ascii_of_string (PyStr.replace_from " " "_" 0 s)
  = map (fun c => if Ascii.eqb c " " then "_"%char else c)
        (list_ascii_of_string s).
Proof.
  induction s as [|c s IH]; [reflexivity|].
  cbn [PyStr.replace_from]. rewrite prefix_char. cbn [String.length Nat.sub].
  rewrite (Ascii.eqb_sym " " c). cbn [list_ascii_of_string map].
  destruct (Ascii.eqb c " ").
  - change ("_" ++ PyStr.replace_from " " "_" 0 s)%string
      with (String "_" (PyStr.replace_from " " "_" 0 s)).
    cbn [list_ascii_of_string]. now rewrite IH.
  - cbn [list_ascii_of_string]. now rewrite IH.
Qed.

(** [s.replace(' ', '_')], character by character. *)
Lemma replace_space (s : string) :
  list_ascii_of_string (PyStr.replace " " "_" s)
  = map (fun c => if Ascii.eqb c " " then "_"%char else c)
        (list_ascii_of_string s).
Proof. exact (replace_from_space s). Qed.

Lemma lstrip_chars (P : ascii -> Prop) (s : string) :
  Forall P (list_ascii_of_string s) ->
  Forall P (list_ascii_of_string (PyStr.lstrip s)).
Proof.
  induction s as [|c s IH]; intros H; [assumption|].
  cbn [PyStr.lstrip]. destruct (PyStr.is_whitespace c); [|assumption].
  apply IH. now inversion H.
Qed.

Lemma rstrip_chars (P : ascii -> Prop) (s : string) :
  Forall P (list_ascii_of_string s) ->
  Forall P (list_ascii_of_string (PyStr.rstrip s)).
Proof.
  induction s as [|c s IH]; intros H; [assumption|].
  cbn [PyStr.rstrip]. inversion H as [|? ? Hc Hs]; subst.
  specialize (IH Hs).
  destruct (PyStr.rstrip s) as [|c' rest].
  - destruct (PyStr.is_whitespace c); [constructor|].
    cbn. constructor; [assumption | constructor].
  - cbn. constructor; assumption.
Qed.

Lemma lstrip_clean (s : string) :
  Forall (fun c => PyStr.is_whitespace c = false) (list_ascii_of_string s) ->
  PyStr.lstrip s = s.
Proof.
  destruct s as [|c s]; intros H; [reflexivity|].
  cbn [PyStr.lstrip]. inversion H as [|? ? Hc _]; subst. now rewrite Hc.
Qed.

Lemma rstrip_clean (s : string) :
  Forall (fun c => PyStr.is_whitespace c = false) (list_ascii_of_string s) ->
  PyStr.rstrip s = s.
Proof.
  induction s as [|c s IH]; intros H; [reflexivity|].
  cbn [PyStr.rstrip]. inversion H as [|? ? Hc Hs]; subst.
  rewrite (IH Hs). destruct s; [now rewrite Hc | reflexivity].
Qed.

Lemma map_id_on {A : Type} (f : A -> A) (l : list A) :
  Forall (fun x => f x = x) l -> map f l = l.
Proof. induction 1 as [|x l Hx _ IH]; cbn; congruence. Qed.

Lemma list_ascii_inj (s t : string) :
  list_ascii_of_string s = list_ascii_of_string t -> s = t.
Proof.
  intros H. rewrite <- (string_of_list_ascii_of_string s),
              <- (string_of_list_ascii_of_string t). now rewrite H.
Qed.

(** X16.  The server name that [perform_backup] puts into the name of the
    backup directory is made only of letters, digits, [-] and [_]: it holds
    no space, no slash, no backslash, no dot and no colon, whatever the name
    of the server in [servers.yaml]; and a server name already made of such
    characters is used as it is. *)
Theorem sanitized_server_name_spec (server_name : string) :
  Forall (fun c => name_char c = true)
         (list_ascii_of_string (sanitized_server_name server_name))
  /\ (forall c, In c [" "%char; "/"%char; ascii_of_nat 92; "."%char; ":"%char] ->
        ~ In c (list_ascii_of_string (sanitized_server_name server_name)))
  /\ (Forall (fun c => name_char c = true) (list_ascii_of_string server_name) ->
      sanitized_server_name server_name = server_name).
Proof.
  assert (Hchars : Forall (fun c => name_char c = true)
            (list_ascii_of_string (sanitized_server_name server_name))).
  { unfold sanitized_server_name. rewrite replace_space.
    apply Forall_map. unfold PyStr.strip.
    eapply Forall_impl;
      [|apply rstrip_chars, lstrip_chars;
        rewrite list_ascii_of_string_of_list_ascii;
        apply Forall_forall; intros c Hc; apply filter_In in Hc;
        exact (proj2 Hc)].
    intros c Hkept. cbv beta in *.
    destruct (Ascii.eqb c " ") eqn:E; [reflexivity|].
    now apply kept_not_space. }
  split; [exact Hchars|]. split.
  - intros c Hc Hin. rewrite Forall_forall in Hchars.
    specialize (Hchars c Hin). cbn [In] in Hc.
    repeat (destruct Hc as [<-|Hc]; [discriminate Hchars|]). contradiction.
  - intros Hclean. unfold sanitized_server_name.
    assert (Hfilter : filter kept_in_name (list_ascii_of_string server_name)
                      = list_ascii_of_string server_name).
    { apply filter_all. rewrite Forall_forall in Hclean.
      intros c Hc. apply name_char_kept. now apply Hclean. }
    rewrite Hfilter, string_of_list_ascii_of_string.
    assert (Hstrip : PyStr.strip server_name = server_name).
    { unfold PyStr.strip.
      assert (Hws : Forall (fun c => PyStr.is_whitespace c = false)
                           (list_ascii_of_string server_name)).
      { eapply Forall_impl; [|exact Hclean].
        intros c. apply name_char_not_whitespace. }
      now rewrite (lstrip_clean _ Hws), (rstrip_clean _ Hws). }
    rewrite Hstrip. apply list_ascii_inj. rewrite replace_space.
    apply map_id_on. eapply Forall_impl; [|exact Hclean].
    intros c Hc. cbv beta. now rewrite (name_char_not_space c Hc).
Qed.

(** Some server names and what becomes of them. *)
Example sanitized_names :
  sanitized_server_name " My n8n (prod) " = "My_n8n_prod"%string
  /\ sanitized_server_name "../etc/passwd" = "etcpasswd"%string
  /\ sanitized_server_name "dev-server_2" = "dev-server_2"%string.
Proof. repeat split. Qed.

(** ** Creating a credential *)

(** On the dictionary [perform_restore] makes of a declaration with a
    string for a name, the function does what [create_credential] does on
    the declaration, and returns. *)
Lemma create_credential_declared (remote : transport) (url : string)
    (creds_file : option creds_config) (decl : credential_declaration)
    (env_postfix : string) (w : world) :
  Untyped.create_credential remote url creds_file
    (PDict [("name", PStr (decl_name decl)); ("data", decl_data decl)])
    (PStr (decl_type decl)) env_postfix w
  = (Ok (fst (create_credential remote url creds_file decl env_postfix w)),
     snd (create_credential remote url creds_file decl env_postfix w)).
Proof.
  unfold Untyped.create_credential, create_credential. cbn [Untyped.declared_name
    Py.item PyDict.get String.eqb Ascii.eqb Bool.eqb bind].
  destruct (send remote _ w) as [[r|e] w1]; [|reflexivity].
  destruct (Z.eqb (status_code r) 200); [|reflexivity].
  destruct (body_json r) as [credential|]; [|reflexivity]. cbn [bind].
  destruct (Py.item credential "id") as [id|]; [|reflexivity]. cbn [bind].
  destruct (Py.item credential "name") as [name|]; reflexivity.
Qed.

(** X17.  [create_credential] reads the name and the data of the dictionary
    it is handed before anything else: when the dictionary has no [name],
    when the name is not a string (a number in [credentials.yaml]), or when
    there is no [data], it raises, and nothing has been sent or written.
    Otherwise it returns, having sent exactly one request: the creation of
    the credential, under the name [credential_name] gives it, with the type
    and data it was handed.  It returns an identifier other than [None] only
    when the platform answered with status 200 and a body holding that [id];
    and it writes to the ledger only then, a record of that identifier with
    the name the platform reported, filed under [credentials] for its
    instance.  On a declaration whose name is a string this is
    [create_credential] as the restore is modelled with. *)
Theorem create_credential_facts (remote : transport) (url : string)
    (creds_file : option creds_config) (credential_data credential_type : value)
    (env_postfix : string) (w : world) :
  let outcome :=
    Untyped.create_credential remote url creds_file credential_data
      credential_type env_postfix w in
  match Py.item credential_data "name" with
  | Raise e => outcome = (Raise e, w)
  | Ok (PStr _) =>
      match Py.item credential_data "data" with
      | Raise e => outcome = (Raise e, w)
      | Ok _ => exists returned, fst outcome = Ok returned
      end
  | Ok _ => outcome = (Raise AttributeError, w)
  end
  /\ (forall declared data,
         Py.item credential_data "name" = Ok (PStr declared) ->
         Py.item credential_data "data" = Ok data ->
         let request :=
           {| method := POST; base_url := url; target := Credentials;
              body := Some (PDict [("name", PStr (credential_name creds_file
                                                    declared env_postfix));
                                   ("type", credential_type);
                                   ("data", data)]) |} in
         let reply := remote (requests_of (log w)) request in
         exists returned new,
           fst outcome = Ok returned
           /\ log (snd outcome) = log w ++ new
           /\ requests_of new = [request]
           /\ (returned <> PNone ->
               exists r credential,
                 reply = Ok r /\ status_code r = 200%Z
                 /\ body_json r = Ok credential
                 /\ Py.item credential "id" = Ok returned)
           /\ (forall u t id name,
                  In (Saved u t id name) new ->
                  u = url /\ t = "credentials"%string /\ id = returned
                  /\ exists r credential,
                       reply = Ok r /\ status_code r = 200%Z
                       /\ body_json r = Ok credential
                       /\ Py.item credential "id" = Ok id
                       /\ Py.item credential "name" = Ok name)
           /\ (file (snd outcome) <> file w ->
               exists id name, In (Saved url "credentials" id name) new))
  /\ (forall decl : credential_declaration,
         credential_data = PDict [("name", PStr (decl_name decl));
                                  ("data", decl_data decl)] ->
         credential_type = PStr (decl_type decl) ->
         outcome
         = (Ok (fst (create_credential remote url creds_file decl env_postfix w)),
            snd (create_credential remote url creds_file decl env_postfix w))).
Proof.
  intros outcome.
  assert (Hfacts : forall declared data,
    Py.item credential_data "name" = Ok (PStr declared) ->
    Py.item credential_data "data" = Ok data ->
    let request :=
      {| method := POST; base_url := url; target := Credentials;
         body := Some (PDict [("name", PStr (credential_name creds_file
                                               declared env_postfix));
                              ("type", credential_type);
                              ("data", data)]) |} in
    let reply := remote (requests_of (log w)) request in
    exists returned new,
      fst outcome = Ok returned
      /\ log (snd outcome) = log w ++ new
      /\ requests_of new = [request]
      /\ (returned <> PNone ->
          exists r credential,
            reply = Ok r /\ status_code r = 200%Z
            /\ body_json r = Ok credential
            /\ Py.item credential "id" = Ok returned)
      /\ (forall u t id name,
             In (Saved u t id name) new ->
             u = url /\ t = "credentials"%string /\ id = returned
             /\ exists r credential,
                  reply = Ok r /\ status_code r = 200%Z
                  /\ body_json r = Ok credential
                  /\ Py.item credential "id" = Ok id
                  /\ Py.item credential "name" = Ok name)
      /\ (file (snd outcome) <> file w ->
          exists id name, In (Saved url "credentials" id name) new)).
  { intros declared data Hname Hdata request reply. subst outcome.
    destruct (Untyped.create_credential remote url creds_file credential_data
                credential_type env_postfix w) as [returned w'] eqn:E.
    cbn [fst snd]. unfold Untyped.create_credential, Untyped.declared_name in E.
    rewrite Hname in E. cbn [bind] in E. rewrite Hdata in E. cbn [bind] in E.
    cbv beta iota zeta delta [send] in E. fold request in E. fold reply in E.
    assert (Hnothing : forall f,
      f = file w ->
      exists returned0 new,
        Ok PNone = Ok returned0
        /\ log {| file := f; log := log w ++ [Sent request reply] |} = log w ++ new
        /\ requests_of new = [request]
        /\ (returned0 <> PNone ->
            exists r credential,
              reply = Ok r /\ status_code r = 200%Z
              /\ body_json r = Ok credential
              /\ Py.item credential "id" = Ok returned0)
        /\ (forall u t id name,
               In (Saved u t id name) new ->
               u = url /\ t = "credentials"%string /\ id = returned0
               /\ exists r credential,
                    reply = Ok r /\ status_code r = 200%Z
                    /\ body_json r = Ok credential
                    /\ Py.item credential "id" = Ok id
                    /\ Py.item credential "name" = Ok name)
        /\ (file {| file := f; log := log w ++ [Sent request reply] |} <> file w ->
            exists id name, In (Saved url "credentials" id name) new)).
    { intros f ->. exists PNone, [Sent request reply]. cbn [file log].
      split; [reflexivity|]. split; [reflexivity|]. split; [reflexivity|]. split.
      { intros H. now contradiction H. }
      split.
      { intros u t id' name' [Hin|[]]. discriminate Hin. }
      intros Hfile. now contradiction Hfile. }
    destruct reply as [r|e] eqn:Ereply;
      [|injection E as <- <-; now apply Hnothing].
    destruct (Z.eqb_spec (status_code r) 200) as [H200|H200];
      [|injection E as <- <-; now apply Hnothing].
    destruct (body_json r) as [credential|] eqn:Ebody; cbn [bind] in E;
      [|injection E as <- <-; now apply Hnothing].
    destruct (Py.item credential "id") as [id|] eqn:Eid; cbn [bind] in E;
      [|injection E as <- <-; now apply Hnothing].
    destruct (Py.item credential "name") as [name|] eqn:Ename; cbn [bind] in E;
      [|injection E as <- <-; now apply Hnothing].
    injection E as <- <-. unfold save_resource_mapping.
    destruct (record_in url "credentials" id name _) eqn:Erecord; cbn [file log].
    - exists id, [Sent request (Ok r); Saved url "credentials" id name].
      split; [reflexivity|].
      split; [now rewrite <- app_assoc|]. split; [reflexivity|]. split.
      { intros _. exists r, credential. now repeat split. }
      split.
      { intros u t id' name' [Hin|[Hin|[]]]; [discriminate Hin|].
        injection Hin as <- <- <- <-.
        repeat split. exists r, credential. now repeat split. }
      intros _. exists id, name. right. now left.
    - exists id, [Sent request (Ok r)].
      split; [reflexivity|].
      split; [reflexivity|]. split; [reflexivity|]. split.
      { intros _. exists r, credential. now repeat split. }
      split.
      { intros u t id' name' [Hin|[]]. discriminate Hin. }
      intros Hfile. now contradiction Hfile. }
  split; [|split; [exact Hfacts|]].
  - destruct (Py.item credential_data "name") as [name|e] eqn:Hname.
    + destruct name as [| | |declared| |];
        try (subst outcome; unfold Untyped.create_credential,
               Untyped.declared_name; now rewrite Hname).
      destruct (Py.item credential_data "data") as [data|e] eqn:Hdata.
      * destruct (Hfacts declared data eq_refl eq_refl)
          as (returned & new & Hreturned & _).
        now exists returned.
      * subst outcome. unfold Untyped.create_credential, Untyped.declared_name.
        rewrite Hname. cbn [bind]. now rewrite Hdata.
    + subst outcome. unfold Untyped.create_credential, Untyped.declared_name.
      now rewrite Hname.
  - intros decl -> ->. apply create_credential_declared.
Qed.

(** A credential whose name [credentials.yaml] gives as the number 12345:
    the function raises before it sends anything. *)
Lemma create_credential_facts_witness :
  Untyped.create_credential Sample.remote Sample.instance_url
    (Some Sample.config)
    (PDict [("name", PInt 12345); ("data", PDict [("accessToken", PStr "x")])])
    (PStr "slackApi") "Dev" Sample.fresh
  = (Raise AttributeError, Sample.fresh).
Proof.
  exact (proj1 (create_credential_facts Sample.remote Sample.instance_url
                  (Some Sample.config)
                  (PDict [("name", PInt 12345);
                          ("data", PDict [("accessToken", PStr "x")])])
                  (PStr "slackApi") "Dev" Sample.fresh)).
Defined.

(** ** The credential mapping of a restore *)

Lemma in_set_cases {V : Type} (d : PyDict.dict V) (k k' : string) (v v' : V) :
  In (k', v') (PyDict.set d k v) -> In (k', v') d \/ (k' = k /\ v' = v).
Proof.
  induction d as [|[k0 v0] d IH]; cbn.
  - intros [[= <- <-]|[]]. now right.
  - destruct (String.eqb k0 k) eqn:E.
    + apply String.eqb_eq in E. subst k0.
      intros [[= <- <-]|Hin]; [now right | left; now right].
    + intros [Hin|Hin]; [left; now left|].
      destruct (IH Hin) as [H|H]; [left; now right | now right].
Qed.

Section CredentialMapping.
Variables (remote : transport) (url : string).
Variables (creds_file : option creds_config) (env_postfix : string).

(** An entry the creation of one of [declarations] has put in the mapping. *)
Let created_by (declarations : PyDict.dict credential_declaration)
(k : string) (v : value) : Prop :=
Py.truthy v = true
/\ exists key decl w0,
 In (key, decl) declarations
 /\ (k = key \/ k = decl_name decl)
 /\ fst (create_credential remote url creds_file decl env_postfix w0) = v.

Lemma created_by_later (key : string) (decl : credential_declaration)
(rest : PyDict.dict credential_declaration) (k : string) (v : value) :
created_by rest k v -> created_by ((key, decl) :: rest) k v.
Proof.
intros (Ht & key' & decl' & w0 & Hd & Hk & Hv). split; [assumption|].
exists key', decl', w0. split; [now right | now split].
Qed.

Lemma create_credentials_mapping
(declarations : PyDict.dict credential_declaration) :
forall (credential_mapping : PyDict.dict value) (w : world) (k : string)
 (v : value),
In (k, v)
 (fst (fst (fst (create_credentials remote url creds_file env_postfix
 declarations credential_mapping w)))) ->
In (k, v) credential_mapping \/ created_by declarations k v.
Proof.
induction declarations as [|[cred_key cred_data] rest IH];
intros credential_mapping w k v Hin; [now left|].
cbn [create_credentials] in Hin.
destruct (create_credential remote url creds_file cred_data env_postfix w)
as [new_cred_id w1] eqn:Eone.
assert (Hhere : Py.truthy new_cred_id = true ->
(k = cred_key \/ k = decl_name cred_data) -> v = new_cred_id ->
created_by ((cred_key, cred_data) :: rest) k v).
{ intros Ht Hk ->. split; [assumption|].
exists cred_key, cred_data, w. rewrite Eone.
split; [now left | now split]. }
destruct (Py.truthy new_cred_id) eqn:Etruthy.
- specialize (IH (PyDict.set (PyDict.set credential_mapping cred_key new_cred_id)
(decl_name cred_data) new_cred_id) w1 k v).
destruct (create_credentials remote url creds_file env_postfix rest _ w1)
as [[[m created] failed] w2].
cbn [fst] in *. destruct (IH Hin) as [Hold|Hlater];
[|right; now apply created_by_later].
apply in_set_cases in Hold. destruct Hold as [Hold|(-> & ->)];
[|right; apply Hhere; auto].
apply in_set_cases in Hold. destruct Hold as [Hold|(-> & ->)];
[now left | right; apply Hhere; auto].
- specialize (IH credential_mapping w1 k v).
destruct (create_credentials remote url creds_file env_postfix rest _ w1)
as [[[m created] failed] w2].
cbn [fst] in *. destruct (IH Hin) as [Hold|Hlater];
[now left | right; now apply created_by_later].
Qed.
End CredentialMapping.

(** X18.  The credential mapping a restore builds holds nothing but
    identifiers the platform returned: every entry maps the key of a
    declared credential, or its declared name, to the identifier
    [create_credential] returned for that declaration, and a creation that
    failed leaves no entry. *)
Theorem credential_mapping_sound (remote : transport) (url : string)
    (creds_file : option creds_config) (env_postfix : string)
    (declarations : PyDict.dict credential_declaration) (w : world)
    (k : string) (v : value) :
  let mapping :=
    fst (fst (fst (create_credentials remote url creds_file env_postfix
                     declarations [] w))) in
  In (k, v) mapping ->
  Py.truthy v = true
  /\ exists key decl w0,
       In (key, decl) declarations
       /\ (k = key \/ k = decl_name decl)
       /\ fst (create_credential remote url creds_file decl env_postfix w0) = v.
Proof.
  intros mapping Hin.
  destruct (create_credentials_mapping remote url creds_file env_postfix
              declarations [] w k v Hin) as [[]|H].
  exact H.
Qed.

Lemma credential_mapping_sound_witness :
  let mapping :=
    fst (fst (fst (create_credentials Sample.remote Sample.instance_url
                     (Some Sample.config) "Dev"
                     [("slack_token",
                       {| decl_name := "Slack Token"; decl_type := "slackApi";
                          decl_data := PDict [("accessToken", PStr "xoxb-dev")] |})]
                     [] Sample.fresh))) in
  mapping = [("slack_token", PStr "C1"); ("Slack Token", PStr "C1")]
  /\ Py.truthy (PStr "C1") = true.
Proof.
  intros mapping. split; [reflexivity|].
  apply (credential_mapping_sound Sample.remote Sample.instance_url
           (Some Sample.config) "Dev"
           [("slack_token",
             {| decl_name := "Slack Token"; decl_type := "slackApi";
                decl_data := PDict [("accessToken", PStr "xoxb-dev")] |})]
           Sample.fresh "slack_token" (PStr "C1")).
  cbn. now left.
Defined.

(** ** Restore: the ledger only gains *)

Lemma tracked_save (url t : string) (id name : value) (w : world)
    (u' t' k' : string) :
  tracked u' t' k' w <> None ->
  tracked u' t' k' (save_resource_mapping url t id name w) <> None.
Proof.
  unfold tracked, list_for. rewrite file_save.
  destruct (record_in url t id name (file w)) as [m|] eqn:E; [|auto].
  destruct (record_in_spec url t id name (file w) m E)
    as (resources & key & Hres & Hkey & Hsame & Hother).
  destruct (String.eqb_spec u' url) as [->|Hu]; [|now rewrite Hother].
  rewrite Hsame.
  destruct (String.eqb_spec t' t) as [->|Ht];
    [|now rewrite get_set_other].
  rewrite get_set_same, Hres.
  destruct (String.eqb_spec k' key) as [->|Hk];
    [now rewrite get_set_same | now rewrite get_set_other].
Qed.

Lemma tracked_saved (url t : string) (id name : value) (w : world) (m : ledger) :
  record_in url t id name (file w) = Ok m ->
  exists k, ledger_key id = Ok k
            /\ tracked url t k (save_resource_mapping url t id name w)
               = Some name.
Proof.
  intros E. unfold tracked, list_for. rewrite file_save, E.
  destruct (record_in_spec url t id name (file w) m E)
    as (resources & key & Hres & Hkey & Hsame & _).
  exists key. split; [assumption|].
  now rewrite Hsame, !get_set_same.
Qed.

Section LedgerGains.
Variables (remote : transport) (json : json_module) (url : string).

(** From [w] to [w'] the ledger has only gained: what was tracked is still
tracked, and every record written on the way is tracked at the end. *)
Let gains (w w' : world) : Prop :=
(forall u t k, tracked u t k w <> None -> tracked u t k w' <> None)
/\ exists new,
 log w' = log w ++ new
 /\ forall u t id name,
In (Saved u t id name) new ->
exists k, ledger_key id = Ok k /\ tracked u t k w' <> None.

Lemma gains_refl (w : world) : gains w w.
Proof.
split; [auto|]. exists []. split; [now rewrite app_nil_r|].
intros u t id name [].
Qed.

Lemma gains_trans (w1 w2 w3 : world) : gains w1 w2 -> gains w2 w3 -> gains w1 w3.
Proof.
intros (Hkeep1 & new1 & Hlog1 & Hnew1) (Hkeep2 & new2 & Hlog2 & Hnew2).
split; [auto|]. exists (new1 ++ new2). split.
- now rewrite Hlog2, Hlog1, app_assoc.
- intros u t id name Hin. apply in_app_or in Hin. destruct Hin as [Hin|Hin].
+ destruct (Hnew1 u t id name Hin) as (k & Hk & Ht).
exists k. split; [assumption | now apply Hkeep2].
+ exact (Hnew2 u t id name Hin).
Qed.

Lemma gains_send (r : request) (w : world) :
base_url r = url -> gains w (snd (send remote r w)).
Proof.
intros _. unfold send. cbn [snd]. split; [auto|].
eexists. split; [reflexivity|].
intros u t id name [Hin|[]]. discriminate Hin.
Qed.

Lemma gains_save (t : string) (id name : value) (w : world) :
gains w (save_resource_mapping url t id name w).
Proof.
split; [intros u' t' k'; apply tracked_save|].
destruct (record_in url t id name (file w)) as [m|e] eqn:E.
- destruct (tracked_saved url t id name w m E) as (k & Hk & Ht).
exists [Saved url t id name]. split.
+ unfold save_resource_mapping. now rewrite E.
+ intros u' t' id' name' [Hin|[]]. injection Hin as <- <- <- <-.
exists k. split; [assumption|]. now rewrite Ht.
- exists []. split.
+ unfold save_resource_mapping. rewrite E. now rewrite app_nil_r.
+ intros u' t' id' name' [].
Qed.

End LedgerGains.

(** X19.  A restore never loses a ledger entry: every resource tracked
    before it is still tracked after it, for every instance, and every
    record the restore writes on the way is still tracked when it ends. *)
Theorem restore_keeps_tracked (remote : transport) (json : json_module)
    (url : string) (p : project) (supports_projects : bool)
    (target_env : string) (cfg : creds_config)
    (creds_file : option creds_config) (workflows : list value) (w : world) :
  let w' := snd (perform_restore remote json url p supports_projects target_env
                   cfg creds_file workflows w) in
  (forall u t k, tracked u t k w <> None -> tracked u t k w' <> None)
  /\ exists new,
       log w' = log w ++ new
       /\ forall u t id name,
            In (Saved u t id name) new ->
            exists k, ledger_key id = Ok k /\ tracked u t k w' <> None.
Proof.
  intros w'. subst w'.
  apply (perform_restore_along remote json url
           (fun w1 w2 =>
              (forall u t k, tracked u t k w1 <> None -> tracked u t k w2 <> None)
              /\ exists new,
                   log w2 = log w1 ++ new
                   /\ forall u t id name,
                        In (Saved u t id name) new ->
                        exists k, ledger_key id = Ok k
                                  /\ tracked u t k w2 <> None)).
  - apply gains_refl.
  - apply gains_trans.
  - apply gains_send.
  - apply gains_save.
Qed.

(** The two workflows and the credential of the sample restore are tracked
    when it ends, next to what was tracked before. *)
Example restore_tracks_sample :
  let w' := snd (perform_restore Sample.remote RefJson.module Sample.instance_url
                   Sample.the_project true "development" Sample.config
                   (Some Sample.config) [Sample.w2; Sample.w1]
                   Sample.tracked_world) in
  tracked_ids Sample.instance_url "workflows" (file w') = ["N1"; "N2"]%string
  /\ tracked_ids Sample.instance_url "credentials" (file w') = ["C1"]%string.
Proof. vm_compute. split; reflexivity. Qed.

(** ** Restore: credentials first *)

Lemma create_workflow_events (remote : transport) (json : json_module)
    (url : string) (creds_file : option creds_config) (workflow_data : value)
    (project_id : value) (credential_mapping sf_id_mapping : PyDict.dict value)
    (env_type : string) (supports_projects : bool) (w : world) :
  grows workflow_event w
    (snd (create_workflow remote json url creds_file workflow_data project_id
            credential_mapping sf_id_mapping env_type supports_projects w)).
Proof.
  destruct (create_workflow remote json url creds_file workflow_data project_id
              credential_mapping sf_id_mapping env_type supports_projects w)
    as [returned w'] eqn:E.
  cbn [snd]. split_create_workflow E.
  all: unfold save_resource_mapping;
    try match goal with
        | |- context [record_in ?u ?t ?i ?n ?f] =>
            destruct (record_in u t i n f)
        end;
    cbn [file log].
  all: first [ eexists; split; [rewrite <- ?app_assoc; cbn [app]; reflexivity|]
             | exists []; split; [now rewrite app_nil_r|] ].
  all: repeat constructor.
Qed.

Lemma create_workflows_events (remote : transport) (json : json_module)
    (url : string) (creds_file : option creds_config) (workflows : list value)
    (project_id : value) (credential_mapping : PyDict.dict value)
    (env_type : string) (supports_projects : bool)
    (workflow_order : list string) :
  forall (workflow_mapping : PyDict.dict value) (w : world),
    grows workflow_event w
      (snd (create_workflows remote json url creds_file workflows project_id
              credential_mapping env_type supports_projects workflow_order
              workflow_mapping w)).
Proof.
  induction workflow_order as [|workflow_id rest IH];
    intros workflow_mapping w; [apply grows_refl|].
  cbn [create_workflows].
  destruct (workflow_with_id workflows workflow_id) as [workflow_data|];
    [|apply grows_refl].
  pose proof (create_workflow_events remote json url creds_file workflow_data
                project_id credential_mapping workflow_mapping env_type
                supports_projects w) as Hone.
  destruct (create_workflow remote json url creds_file workflow_data project_id
              credential_mapping workflow_mapping env_type supports_projects w)
    as [r w1]. cbn [snd] in Hone.
  destruct r as [new_id|e]; [|exact Hone].
  specialize (IH (if Py.truthy new_id
                  then PyDict.set workflow_mapping workflow_id new_id
                  else workflow_mapping) w1).
  destruct (create_workflows remote json url creds_file workflows project_id
              credential_mapping env_type supports_projects rest _ w1)
    as [r' w2]. cbn [snd] in IH.
  assert (grows workflow_event w w2) by (eapply grows_trans; eassumption).
  destruct r' as [[created failed]|e]; [|assumption].
  now destruct (Py.truthy new_id).
Qed.

(** X20.  A restore creates the credentials of the environment before it
    submits any workflow: what it sends and writes is first a run of
    credential creations and their ledger records, then a run of workflow
    requests (creation, transfer, rollback) and workflow ledger records, and
    nothing else. *)
Theorem credentials_before_workflows (remote : transport)
    (json : json_module) (url : string) (p : project)
    (supports_projects : bool) (target_env : string) (cfg : creds_config)
    (creds_file : option creds_config) (workflows : list value) (w : world) :
  let w' := snd (perform_restore remote json url p supports_projects target_env
                   cfg creds_file workflows w) in
  exists first_run second_run,
    log w' = log w ++ first_run ++ second_run
    /\ Forall credential_event first_run
    /\ Forall workflow_event second_run.
Proof.
  intros w'. subst w'. unfold perform_restore.
  assert (Hnothing : exists first_run second_run,
            log w = log w ++ first_run ++ second_run
            /\ Forall credential_event first_run
            /\ Forall workflow_event second_run).
  { exists [], []. now rewrite app_nil_r. }
  destruct (PyDict.get (environments cfg) target_env) as [env_data|];
    [|exact Hnothing].
  cbv zeta.
  pose proof (create_credentials_only remote url creds_file
                (PyStr.strip (env_postfix env_data))
                (env_credentials env_data) [] w) as Honly.
  destruct (create_credentials remote url creds_file
              (PyStr.strip (env_postfix env_data))
              (env_credentials env_data) [] w)
    as [[[credential_mapping cc] cf] w1].
  cbn [snd] in Honly. destruct Honly as ((new1 & Hlog1 & Hnew1) & _).
  assert (Hfirst : exists first_run second_run,
            log w1 = log w ++ first_run ++ second_run
            /\ Forall credential_event first_run
            /\ Forall workflow_event second_run).
  { exists new1, []. rewrite app_nil_r. now repeat split. }
  destruct (build_dependency_graph workflows) as [g|]; [|exact Hfirst].
  destruct (workflow_order_of g) as [workflow_order|]; [|exact Hfirst].
  pose proof (create_workflows_events remote json url creds_file workflows
                (project_id p) credential_mapping target_env supports_projects
                workflow_order [] w1) as (new2 & Hlog2 & Hnew2).
  destruct (create_workflows remote json url creds_file workflows
              (project_id p) credential_mapping target_env supports_projects
              workflow_order [] w1) as [r w2].
  cbn [snd] in Hlog2.
  assert (Hboth : exists first_run second_run,
            log w2 = log w ++ first_run ++ second_run
            /\ Forall credential_event first_run
            /\ Forall workflow_event second_run).
  { exists new1, new2. rewrite Hlog2, Hlog1, <- app_assoc. now repeat split. }
  now destruct r as [[wc wf]|e].
Qed.

(** ** The payload: what the rewrite carries over *)

Lemma for_each_Forall2 {A B : Type} (f : A -> result B) (xs : list A) :
  forall ys, for_each f xs = Ok ys -> Forall2 (fun x y => f x = Ok y) xs ys.
Proof.
  induction xs as [|x xs IH]; intros ys H; cbn in H.
  - injection H as <-. constructor.
  - destruct (f x) as [y|] eqn:E; [|discriminate H]. cbn [bind] in H.
    destruct (for_each f xs) as [ys'|]; [|discriminate H]. cbn [bind] in H.
    injection H as <-. constructor; [assumption | now apply IH].
Qed.

(** X21.  When the rewrite of [create_workflow] produces a payload, the
    definition it started from (after the literal replacement) is a
    dictionary that has a [name], [nodes] and [connections]; the payload
    carries that name and those connections unchanged, and its nodes are the
    nodes of the definition, each rewritten on its own, as many and in the
    same order.  A definition lacking one of the three keys makes the rewrite
    raise. *)
Theorem payload_carries_definition (cm sm : PyDict.dict value)
    (definition payload : value) :
  finish_rewrite cm sm definition = Ok payload ->
  exists p name nodes nodes' connections settings,
    definition = PDict p
    /\ PyDict.get p "name" = Some name
    /\ PyDict.get p "nodes" = Some nodes
    /\ PyDict.get p "connections" = Some connections
    /\ payload = PDict [("name", name); ("nodes", nodes');
                        ("connections", connections); ("settings", settings)]
    /\ match nodes with
       | PList l =>
           exists l', nodes' = PList l'
                      /\ Forall2 (fun n n' => rewrite_node cm sm n = Ok n') l l'
       | _ => nodes' = nodes
       end.
Proof.
  unfold finish_rewrite. intros H.
  destruct definition as [| | | | |p]; try discriminate H.
  rewrite normalize_settings_dict in H.
  destruct (declared_settings p) as [s|]; [|discriminate H].
  cbn [bind] in H.
  set (p1 := PyDict.set p "settings" _) in H.
  assert (Hp1 : forall k, k <> "settings"%string ->
                          PyDict.get p1 k = PyDict.get p k).
  { intros k Hk. unfold p1. now apply get_set_other. }
  destruct (rewrite_nodes cm sm p1) as [rewritten|] eqn:Erw; [|discriminate H].
  cbn [bind] in H.
  pose proof (rewrite_nodes_frame cm sm p1 rewritten) as Hframe.
  specialize (Hframe). unfold create_payload, Py.get_default in H.
  cbn [Py.item Py.get bind] in H.
  destruct (PyDict.get rewritten "name") as [name|] eqn:Ename;
    [|discriminate H].
  destruct (PyDict.get rewritten "nodes") as [nodes'|] eqn:Enodes;
    [|discriminate H].
  destruct (PyDict.get rewritten "connections") as [connections|] eqn:Econn;
    [|discriminate H].
  cbn [bind] in H. injection H as <-.
  rewrite (Hframe "name" Erw), Hp1 in Ename by discriminate.
  rewrite (Hframe "connections" Erw), Hp1 in Econn by discriminate.
  unfold rewrite_nodes in Erw. rewrite (Hp1 "nodes") in Erw by discriminate.
  destruct (PyDict.get p "nodes") as [nodes|] eqn:Epn.
  - destruct (Py.iter nodes) as [elements|] eqn:Eiter; [|discriminate Erw].
    cbn [bind] in Erw.
    destruct (for_each (rewrite_node cm sm) elements) as [rewritten_nodes|]
      eqn:Eeach; [|discriminate Erw].
    cbn [bind] in Erw. injection Erw as <-.
    exists p, name, nodes, nodes', connections.
    eexists. split; [reflexivity|]. split; [assumption|].
    split; [exact Epn|]. split; [assumption|]. split; [reflexivity|].
    destruct nodes as [| | | |l|d];
      try (rewrite (Hp1 "nodes"), Epn in Enodes by discriminate;
           now injection Enodes as <-).
    rewrite get_set_same in Enodes. injection Enodes as <-.
    cbn in Eiter. injection Eiter as <-.
    exists rewritten_nodes. split; [reflexivity|].
    now apply for_each_Forall2.
  - injection Erw as <-. rewrite (Hp1 "nodes"), Epn in Enodes by discriminate.
    discriminate Enodes.
Qed.

Lemma payload_carries_definition_witness :
  exists p name nodes nodes' connections settings,
    Sample.w2 = PDict p
    /\ PyDict.get p "name" = Some name
    /\ PyDict.get p "nodes" = Some nodes
    /\ PyDict.get p "connections" = Some connections
    /\ finish_rewrite [] Sample.workflow_mapping Sample.w2
       = Ok (PDict [("name", name); ("nodes", nodes');
                    ("connections", connections); ("settings", settings)]).
Proof.
  destruct (payload_carries_definition [] Sample.workflow_mapping Sample.w2
              _ eq_refl)
    as (p & name & nodes & nodes' & connections & settings
        & Hp & Hname & Hnodes & Hconn & Hpayload & _).
  exists p, name, nodes, nodes', connections, settings.
  repeat split; try assumption. now rewrite <- Hpayload.
Defined.
